(** * RFQ playground: the quote protocol and its pricing engine

    A shallow embedding of the NestJS services of the repository

    - [UtilsService]  (utils.service.ts): bucket derivation, the protobuf
      schemas, the price lookup and the pricing arithmetic;
    - [SolverService] (solver.service.ts): the request callback,
      [processMessage] and [sendResponse];
    - [UserService]   (user.service.ts): the response callback and
      [sendRequest];

    followed by the properties of the specification that can be settled on
    it.

    Conventions of the embedding.

    - A JavaScript [number] is an exact rational ([Q]): the arithmetic of the
      pricing engine is the real-number arithmetic the source text denotes,
      IEEE-754 rounding is not part of the model.  The code divides only by
      [100] and by a price it has already tested to be truthy, so no division
      by zero, infinity or NaN arises from well-typed inputs.
    - A JavaScript string is a [string], read as the sequence of its UTF-8
      bytes.
    - [async] methods run to completion one after the other; an effectful
      method is a function of the environment (what the outside world
      answers) and of the world (what the process has done so far) that
      either returns a value or throws.
    - protobufjs, the Waku SDK and the hash of node:crypto are libraries
      the services call; they are modelled as far as the services use
      them: the writer, the reader and the generated code of protobufjs,
      SHA-256 in full, the Waku node as a counter of open light nodes, a
      list of published messages and a subscription flag.
    - The interfaces of types/index.ts are records.  An object that is only
      cast to one of them ([as RequestQuote]) may lack what the interface
      promises; the methods are then followed on the object as it is, see
      [Unchecked]. *)

From Stdlib Require Import ZArith QArith List String Ascii Bool Lia Lqa.
From Stdlib.Strings Require Import Byte.
Import ListNotations.

Set Implicit Arguments.

(* ================================================================== *)
(** * JavaScript values *)

Definition number := Q.

(** [!x] for an [x] of type [number | undefined]: [undefined] and [0] are
    falsy, every other number of the model is truthy. *)
Definition falsy (x : option number) : bool :=
  match x with
  | None => true
  | Some q => Qeq_bool q 0
  end.

(** [String.prototype.toLowerCase] on the ASCII letters (token addresses are
    hexadecimal strings). *)
Definition lowerAscii (c : ascii) : ascii :=
  let n := nat_of_ascii c in
  if (65 <=? n)%nat && (n <=? 90)%nat then ascii_of_nat (n + 32) else c.

Fixpoint toLowerCase (s : string) : string :=
  match s with
  | EmptyString => EmptyString
  | String c r => String (lowerAscii c) (toLowerCase r)
  end.

(** [String.prototype.substring(0, n)]. *)
Fixpoint substring0 (n : nat) (s : string) : string :=
  match n, s with
  | S k, String c r => String c (substring0 k r)
  | _, _ => EmptyString
  end.

(* ================================================================== *)
(** * The types of types/index.ts *)

Module RequestToken.
Record t := { address : string; weight : number }.
End RequestToken.

(** The anonymous object type of [RequestQuote.from] and [RequestQuote.to]. *)
Module RequestSide.
Record t := { network : string; tokens : list RequestToken.t }.
End RequestSide.

Module RequestQuote.
Record t := { bucket : string; from : RequestSide.t; to : RequestSide.t }.
End RequestQuote.

Module ResponseToken.
Record t := { address : string; amount : number }.
End ResponseToken.

(** The anonymous object type of [ResponseQuote.from] and [ResponseQuote.to]. *)
Module ResponseSide.
Record t := { network : string; tokens : list ResponseToken.t }.
End ResponseSide.

Module ResponseQuote.
Record t := { solver : string; from : ResponseSide.t; to : ResponseSide.t }.
End ResponseQuote.

(** [price] is declared a [number]; [getTokenPrices] stores [data[key].usd]
    there, which is [undefined] when what it found under the key has no
    [usd]. *)
Module Price.
Record t := { address : string; price : option number }.
End Price.

(* ================================================================== *)
(** * Exceptions *)

Inductive Exn :=
| TypeError        (* property access on [undefined] *)
| RangeError       (* protobufjs: index out of range *)
| WireTypeError    (* protobufjs: invalid wire type *)
| FetchFailed      (* fetch rejected *)
| HttpError        (* the status of the response is not ok *)
| SubscribeError   (* the relay refused the subscription *)
| TransportError.  (* lightPush could not send *)

Inductive Result (A : Type) :=
| Ok (a : A)
| Threw (e : Exn).
Arguments Threw {A} e.

(* ================================================================== *)
(** * SHA-256 (FIPS 180-4), the digest behind [createHash('sha256')] *)

Module Sha256.
Local Open Scope Z_scope.

(** 32-bit words are integers below [2^32]; addition wraps. *)
Definition add32 (x y : Z) : Z := (x + y) mod 2 ^ 32.

Definition rotr (n x : Z) : Z :=
  Z.lor (Z.shiftr x n) (Z.shiftl x (32 - n)) mod 2 ^ 32.

Definition Ch (x y z : Z) : Z :=
  Z.lxor (Z.land x y) (Z.land (Z.lnot x) z).

Definition Maj (x y z : Z) : Z :=
  Z.lxor (Z.lxor (Z.land x y) (Z.land x z)) (Z.land y z).

Definition Sigma0 (x : Z) : Z := Z.lxor (Z.lxor (rotr 2 x) (rotr 13 x)) (rotr 22 x).
Definition Sigma1 (x : Z) : Z := Z.lxor (Z.lxor (rotr 6 x) (rotr 11 x)) (rotr 25 x).
Definition sigma0 (x : Z) : Z := Z.lxor (Z.lxor (rotr 7 x) (rotr 18 x)) (Z.shiftr x 3).
Definition sigma1 (x : Z) : Z := Z.lxor (Z.lxor (rotr 17 x) (rotr 19 x)) (Z.shiftr x 10).

(** The constants of the standard are taken from the prime numbers: the
    round constants are the first 32 bits of the fractional parts of the
    cube roots of the first 64 primes, the initial state those of the
    square roots of the first 8. *)
Definition isPrime (n : nat) : bool :=
  forallb (fun d => negb (Nat.eqb (Nat.modulo n d) 0)) (seq 2 (n - 2)).

Definition primes (count : nat) : list Z :=
  map Z.of_nat (firstn count (filter isPrime (seq 2 310))).

(** The integer cube root, one bit at a time from the top. *)
Fixpoint cubeRoot (bits : nat) (n root : Z) : Z :=
  match bits with
  | O => root
  | S bits' =>
      let candidate := root + 2 ^ Z.of_nat bits' in
      if candidate * candidate * candidate <=? n
      then cubeRoot bits' n candidate
      else cubeRoot bits' n root
  end.

Definition K : list Z :=
  Eval vm_compute in
    map (fun p => cubeRoot 40 (p * 2 ^ 96) 0 mod 2 ^ 32) (primes 64).

Record State := {
  h0 : Z; h1 : Z; h2 : Z; h3 : Z; h4 : Z; h5 : Z; h6 : Z; h7 : Z
}.

Definition fractionOfRoot (p : Z) : Z := Z.sqrt (p * 2 ^ 64) mod 2 ^ 32.

Definition initial : State :=
  Eval vm_compute in
    match map fractionOfRoot (primes 8) with
    | [a; b; c; d; e; f; g; h] =>
        {| h0 := a; h1 := b; h2 := c; h3 := d; h4 := e; h5 := f; h6 := g; h7 := h |}
    | _ => {| h0 := 0; h1 := 0; h2 := 0; h3 := 0; h4 := 0; h5 := 0; h6 := 0; h7 := 0 |}
    end.

(** Padding: the byte [0x80], zeros up to 56 modulo 64, the bit length on
    eight bytes, most significant first. *)
Definition bigEndian (n : nat) (x : Z) : list Z :=
  map (fun i => Z.shiftr x (8 * Z.of_nat i) mod 256) (rev (seq 0 n)).

Definition pad (message : list Z) : list Z :=
  let len := Z.of_nat (List.length message) in
  message ++ [128] ++ repeat 0 (Z.to_nat ((55 - len) mod 64))
  ++ bigEndian 8 ((8 * len) mod 2 ^ 64).

Fixpoint wordsOf (bytes : list Z) : list Z :=
  match bytes with
  | a :: b :: c :: d :: rest =>
      (a * 2 ^ 24 + b * 2 ^ 16 + c * 2 ^ 8 + d) :: wordsOf rest
  | _ => []
  end.

Fixpoint blocksOf (n : nat) (words : list Z) : list (list Z) :=
  match n with
  | O => []
  | S n' =>
      match words with
      | [] => []
      | _ => firstn 16 words :: blocksOf n' (skipn 16 words)
      end
  end.

(** The message schedule: sixteen words of the block, then forty-eight
    derived ones. *)
Fixpoint extend (n : nat) (w : list Z) : list Z :=
  match n with
  | O => w
  | S n' =>
      let t := List.length w in
      let at_ k := nth (t - k) w 0 in
      extend n' (w ++ [add32 (add32 (sigma1 (at_ 2%nat)) (at_ 7%nat))
                             (add32 (sigma0 (at_ 15%nat)) (at_ 16%nat))])
  end.

Definition round (s : State) (kw : Z * Z) : State :=
  let (k, w) := kw in
  let t1 := add32 (add32 (add32 (h7 s) (Sigma1 (h4 s)))
                         (add32 (Ch (h4 s) (h5 s) (h6 s)) k)) w in
  let t2 := add32 (Sigma0 (h0 s)) (Maj (h0 s) (h1 s) (h2 s)) in
  {| h0 := add32 t1 t2; h1 := h0 s; h2 := h1 s; h3 := h2 s;
     h4 := add32 (h3 s) t1; h5 := h4 s; h6 := h5 s; h7 := h6 s |}.

Definition compress (s : State) (block : list Z) : State :=
  let r := fold_left round (combine K (extend 48 block)) s in
  {| h0 := add32 (h0 s) (h0 r); h1 := add32 (h1 s) (h1 r);
     h2 := add32 (h2 s) (h2 r); h3 := add32 (h3 s) (h3 r);
     h4 := add32 (h4 s) (h4 r); h5 := add32 (h5 s) (h5 r);
     h6 := add32 (h6 s) (h6 r); h7 := add32 (h7 s) (h7 r) |}.

Definition hash (message : list Z) : State :=
  let words := wordsOf (pad message) in
  fold_left compress (blocksOf (List.length words) words) initial.

(** [digest('hex')]: lower-case hexadecimal, eight digits per word. *)
Definition hexDigit (x : Z) : ascii :=
  match x mod 16 with
  | 0 => "0" | 1 => "1" | 2 => "2" | 3 => "3" | 4 => "4" | 5 => "5"
  | 6 => "6" | 7 => "7" | 8 => "8" | 9 => "9" | 10 => "a" | 11 => "b"
  | 12 => "c" | 13 => "d" | 14 => "e" | _ => "f"
  end%char.

Definition hexWord (x : Z) (tail : string) : string :=
  String (hexDigit (Z.shiftr x 28)) (String (hexDigit (Z.shiftr x 24))
 (String (hexDigit (Z.shiftr x 20)) (String (hexDigit (Z.shiftr x 16))
 (String (hexDigit (Z.shiftr x 12)) (String (hexDigit (Z.shiftr x 8))
 (String (hexDigit (Z.shiftr x 4))  (String (hexDigit x) tail))))))).

Definition hex (s : State) : string :=
  hexWord (h0 s) (hexWord (h1 s) (hexWord (h2 s) (hexWord (h3 s)
 (hexWord (h4 s) (hexWord (h5 s) (hexWord (h6 s) (hexWord (h7 s) ""))))))).

(** [createHash('sha256').update(text).digest('hex')]. *)
Definition hexdigest (text : string) : string :=
  hex (hash (map (fun b => Z.of_N (Byte.to_N b)) (list_byte_of_string text))).

End Sha256.

(* ================================================================== *)
(** * protobufjs: the writer, the reader and the code generated for the
      message types of utils.service.ts *)

Module Protobuf.
Local Open Scope Z_scope.

Definition byteZ (b : byte) : Z := Z.of_N (Byte.to_N b).

Definition zByte (z : Z) : byte :=
  match Byte.of_N (Z.to_N (z mod 256)) with
  | Some b => b
  | None => x00
  end.

(** ** Number conversions of the language *)

(** Rounding toward zero, the first step of [ToUint32] and [ToInt32]. *)
Definition truncate (x : number) : Z := Z.quot (Qnum x) (Zpos (Qden x)).

(** [x >>> 0]. *)
Definition ToUint32 (x : number) : Z := truncate x mod 2 ^ 32.

(** [z | 0] on an integer. *)
Definition ToInt32 (z : Z) : Z := (z + 2 ^ 31) mod 2 ^ 32 - 2 ^ 31.

(** ** Writer

    A writer queues operations.  Each one reserves a number of bytes;
    [finish] allocates a buffer of the total and lets every operation write
    at its position.  An operation that writes all it reserves is given by
    its bytes.  A writer is kept as the buffer to come: position by
    position, the byte an operation writes there, or nothing where an
    operation reserves more than it writes. *)

Definition Writer := list (option byte).

Definition written (bytes : list byte) : Writer := map Some bytes.

(** [this._push(fn, len, val)] for an [fn] that writes [bytes]. *)
Definition reserved (len : nat) (bytes : list byte) : Writer :=
  written bytes ++ repeat None (len - List.length bytes).

(** [writeVarint32] and [writeVarint64]: groups of seven bits, least
    significant first, the high bit set on all but the last.  Five turns
    are enough below [2^32], ten below [2^64]. *)
Fixpoint writeVarint (fuel : nat) (val : Z) : list byte :=
  match fuel with
  | O => []
  | S fuel' =>
      if 127 <? val
      then zByte (Z.lor (Z.land val 127) 128) :: writeVarint fuel' (Z.shiftr val 7)
      else [zByte val]
  end.

(** [Writer.prototype.uint32]: [value >>> 0], then [writeVarint32]. *)
Definition Writer_uint32 (value : number) : list byte :=
  writeVarint 5 (ToUint32 value).

(** [Writer.prototype.int32]: [value < 0 ? this._push(writeVarint64, 10,
    LongBits.fromNumber(value)) : this.uint32(value)].  [LongBits.fromNumber]
    rounds toward zero and builds the 64-bit two's complement;
    [writeVarint64] writes ten bytes when the top bit of the 64 is set.
    For a value strictly between [-1] and [0] the 64 bits are all zero: one
    byte is written and nine of the ten reserved are left as they were
    (below [-2^63] the top bit can be clear as well, and fewer than ten
    are written). *)
Definition Writer_int32 (value : number) : Writer :=
  if Qle_bool 0 value then written (Writer_uint32 value)
  else reserved 10 (writeVarint 10 (truncate value mod 2 ^ 64)).

(** [Writer.prototype.string]: the byte length, then the bytes. *)
Definition Writer_string (value : string) : list byte :=
  Writer_uint32 (inject_Z (Z.of_nat (String.length value)))
  ++ list_byte_of_string value.

(** [fork() ... ldelim()]: the length reserved since the fork, then what
    was queued since. *)
Definition ldelim (body : Writer) : Writer :=
  written (Writer_uint32 (inject_Z (Z.of_nat (List.length body)))) ++ body.

(** The key of a field: [w.uint32((id << 3 | wireType) >>> 0)]. *)
Definition tag (id wireType : Z) : list byte :=
  Writer_uint32 (inject_Z (Z.lor (Z.shiftl id 3) wireType)).

(** [Writer.prototype.finish], once the buffer is allocated: [buf] is what
    the fresh buffer holds, position by position. *)
Fixpoint fillFrom (pos : nat) (buf : nat -> byte) (writer : Writer) : list byte :=
  match writer with
  | [] => []
  | Some b :: rest => b :: fillFrom (S pos) buf rest
  | None :: rest => buf pos :: fillFrom (S pos) buf rest
  end.

Definition fill (buf : nat -> byte) (writer : Writer) : list byte :=
  fillFrom 0 buf writer.

(** ** Reader *)

(** [Reader.prototype.uint32].  A byte read past the end of the buffer is
    [undefined]: it contributes no bit and is not below 128, so the reader
    goes on to the final range check, which fails. *)
Definition readUint32 (buf : list byte) : Result (Z * list byte) :=
  match buf with
  | [] => Threw RangeError
  | b0 :: r0 =>
    let value := Z.land (byteZ b0) 127 in
    if byteZ b0 <? 128 then Ok (value, r0) else
    match r0 with
    | [] => Threw RangeError
    | b1 :: r1 =>
      let value := Z.lor value (Z.shiftl (Z.land (byteZ b1) 127) 7) in
      if byteZ b1 <? 128 then Ok (value, r1) else
      match r1 with
      | [] => Threw RangeError
      | b2 :: r2 =>
        let value := Z.lor value (Z.shiftl (Z.land (byteZ b2) 127) 14) in
        if byteZ b2 <? 128 then Ok (value, r2) else
        match r2 with
        | [] => Threw RangeError
        | b3 :: r3 =>
          let value := Z.lor value (Z.shiftl (Z.land (byteZ b3) 127) 21) in
          if byteZ b3 <? 128 then Ok (value, r3) else
          match r3 with
          | [] => Threw RangeError
          | b4 :: r4 =>
            let value := Z.lor value (Z.shiftl (Z.land (byteZ b4) 15) 28) in
            if byteZ b4 <? 128 then Ok (value, r4) else
            (* if ((this.pos += 5) > this.len) throw *)
            if (List.length r4 <? 5)%nat then Threw RangeError
            else Ok (value, skipn 5 r4)
          end
        end
      end
    end
  end.

(** [Reader.prototype.int32]: [this.uint32() | 0]. *)
Definition readInt32 (buf : list byte) : Result (Z * list byte) :=
  match readUint32 buf with
  | Ok (v, rest) => Ok (ToInt32 v, rest)
  | Threw e => Threw e
  end.

(** [Reader.prototype.skip(length)]. *)
Definition skipBytes (length : Z) (buf : list byte) : Result (list byte) :=
  if Z.of_nat (List.length buf) <? length then Threw RangeError
  else Ok (skipn (Z.to_nat length) buf).

(** [Reader.prototype.string]: [bytes()], read as UTF-8. *)
Definition readString (buf : list byte) : Result (string * list byte) :=
  match readUint32 buf with
  | Threw e => Threw e
  | Ok (length, rest) =>
      if Z.of_nat (List.length rest) <? length then Threw RangeError
      else Ok (string_of_list_byte (firstn (Z.to_nat length) rest),
               skipn (Z.to_nat length) rest)
  end.

(** [Reader.prototype.skip()]: up to and including the first byte without
    the continuation bit. *)
Fixpoint skipVarint (buf : list byte) : Result (list byte) :=
  match buf with
  | [] => Threw RangeError
  | b :: rest => if byteZ b <? 128 then Ok rest else skipVarint rest
  end.

(** [Reader.prototype.skipType].  A group (wire type 3) is skipped tag by
    tag up to its end marker; every turn reads at least one byte, so the
    length of the buffer bounds the recursion. *)
Fixpoint skipTypeFuel (fuel : nat) (wireType : Z) (buf : list byte)
  : Result (list byte) :=
  match wireType with
  | 0 => skipVarint buf
  | 1 => skipBytes 8 buf
  | 2 => match readUint32 buf with
         | Ok (length, rest) => skipBytes length rest
         | Threw e => Threw e
         end
  | 3 =>
      (fix group (n : nat) (buf : list byte) {struct n} : Result (list byte) :=
         match n with
         | O => Threw RangeError
         | S n' =>
             match readUint32 buf with
             | Threw e => Threw e
             | Ok (t, rest) =>
                 if Z.land t 7 =? 4 then Ok rest
                 else match fuel with
                      | O => Threw RangeError
                      | S fuel' =>
                          match skipTypeFuel fuel' (Z.land t 7) rest with
                          | Ok rest' => group n' rest'
                          | Threw e => Threw e
                          end
                      end
             end
         end) (S (List.length buf)) buf
  | 5 => skipBytes 4 buf
  | _ => Threw WireTypeError
  end.

Definition skipType (wireType : Z) (buf : list byte) : Result (list byte) :=
  skipTypeFuel (List.length buf) wireType buf.

(** ** The generated code

    [getRequestType] and [getResponseType] build message types of one and
    the same layout:

    - a token: field 1 [address: string], field 2 [weight] (request) or
      [amount] (response) [: int32];
    - a side ([from] or [to]): field 1 [network: string], field 2
      [tokens: repeated token];
    - the quote: field 1 [bucket] (request) or [solver] (response)
      [: string], field 2 [from], field 3 [to].

    What follows is the code protobufjs generates for that layout; [key]
    stands for [bucket] or [solver], [value] for [weight] or [amount]. *)

(** *** encode, on an object that carries every field *)

Definition encodeToken (address : string) (value : number) : Writer :=
  written (tag 1 2 ++ Writer_string address ++ tag 2 0) ++ Writer_int32 value.

Definition encodeSide (network : string) (tokens : list Writer) : Writer :=
  written (tag 1 2 ++ Writer_string network)
  ++ flat_map (fun token => written (tag 2 2) ++ ldelim token) tokens.

Definition encodeQuote (key : string) (from to : Writer) : Writer :=
  written (tag 1 2 ++ Writer_string key)
  ++ written (tag 2 2) ++ ldelim from
  ++ written (tag 3 2) ++ ldelim to.

(** *** decode

    A decoded message instance: a scalar field is an own property only once
    it has been read; a repeated field is an array, empty until something
    is pushed. *)

Module Token.
Record t := { address : option string; value : option Z }.
End Token.

Module SideMessage.
Record t := { network : option string; tokens : list Token.t }.
End SideMessage.

Module QuoteMessage.
Record t := { key : option string;
              from : option SideMessage.t;
              to : option SideMessage.t }.
End QuoteMessage.

(** The position [c] at which a decode loop stops is kept as the number of
    bytes that remain once it is reached: [r.pos < c] reads "more than
    [stop] bytes remain".  Every turn consumes at least one byte or throws,
    so one more turn than there are bytes is never needed. *)
Definition stopAfter (l : option Z) (buf : list byte) : Z :=
  match l with
  | None => 0                                  (* c = r.len *)
  | Some l => Z.of_nat (List.length buf) - l   (* c = r.pos + l *)
  end.

Fixpoint decodeTokenLoop (fuel : nat) (stop : Z) (m : Token.t) (buf : list byte)
  : Result (Token.t * list byte) :=
  if Z.of_nat (List.length buf) <=? stop then Ok (m, buf) else
  match fuel with
  | O => Threw RangeError
  | S fuel' =>
      match readUint32 buf with
      | Threw e => Threw e
      | Ok (t, buf) =>
          match Z.shiftr t 3 with
          | 1 =>
              match readString buf with
              | Threw e => Threw e
              | Ok (s, buf) =>
                  decodeTokenLoop fuel' stop
                    {| Token.address := Some s; Token.value := Token.value m |} buf
              end
          | 2 =>
              match readInt32 buf with
              | Threw e => Threw e
              | Ok (v, buf) =>
                  decodeTokenLoop fuel' stop
                    {| Token.address := Token.address m; Token.value := Some v |} buf
              end
          | _ =>
              match skipType (Z.land t 7) buf with
              | Threw e => Threw e
              | Ok buf => decodeTokenLoop fuel' stop m buf
              end
          end
      end
  end.

Definition decodeToken (l : option Z) (buf : list byte)
  : Result (Token.t * list byte) :=
  decodeTokenLoop (S (List.length buf)) (stopAfter l buf)
    {| Token.address := None; Token.value := None |} buf.

Fixpoint decodeSideLoop (fuel : nat) (stop : Z) (m : SideMessage.t) (buf : list byte)
  : Result (SideMessage.t * list byte) :=
  if Z.of_nat (List.length buf) <=? stop then Ok (m, buf) else
  match fuel with
  | O => Threw RangeError
  | S fuel' =>
      match readUint32 buf with
      | Threw e => Threw e
      | Ok (t, buf) =>
          match Z.shiftr t 3 with
          | 1 =>
              match readString buf with
              | Threw e => Threw e
              | Ok (s, buf) =>
                  decodeSideLoop fuel' stop
                    {| SideMessage.network := Some s;
                       SideMessage.tokens := SideMessage.tokens m |} buf
              end
          | 2 =>
              match readUint32 buf with
              | Threw e => Threw e
              | Ok (l, buf) =>
                  match decodeToken (Some l) buf with
                  | Threw e => Threw e
                  | Ok (token, buf) =>
                      decodeSideLoop fuel' stop
                        {| SideMessage.network := SideMessage.network m;
                           SideMessage.tokens := SideMessage.tokens m ++ [token] |} buf
                  end
              end
          | _ =>
              match skipType (Z.land t 7) buf with
              | Threw e => Threw e
              | Ok buf => decodeSideLoop fuel' stop m buf
              end
          end
      end
  end.

Definition decodeSide (l : option Z) (buf : list byte)
  : Result (SideMessage.t * list byte) :=
  decodeSideLoop (S (List.length buf)) (stopAfter l buf)
    {| SideMessage.network := None; SideMessage.tokens := [] |} buf.

Fixpoint decodeQuoteLoop (fuel : nat) (stop : Z) (m : QuoteMessage.t) (buf : list byte)
  : Result (QuoteMessage.t * list byte) :=
  if Z.of_nat (List.length buf) <=? stop then Ok (m, buf) else
  match fuel with
  | O => Threw RangeError
  | S fuel' =>
      match readUint32 buf with
      | Threw e => Threw e
      | Ok (t, buf) =>
          match Z.shiftr t 3 with
          | 1 =>
              match readString buf with
              | Threw e => Threw e
              | Ok (s, buf) =>
                  decodeQuoteLoop fuel' stop
                    {| QuoteMessage.key := Some s;
                       QuoteMessage.from := QuoteMessage.from m;
                       QuoteMessage.to := QuoteMessage.to m |} buf
              end
          | 2 =>
              match readUint32 buf with
              | Threw e => Threw e
              | Ok (l, buf) =>
                  match decodeSide (Some l) buf with
                  | Threw e => Threw e
                  | Ok (side, buf) =>
                      decodeQuoteLoop fuel' stop
                        {| QuoteMessage.key := QuoteMessage.key m;
                           QuoteMessage.from := Some side;
                           QuoteMessage.to := QuoteMessage.to m |} buf
                  end
              end
          | 3 =>
              match readUint32 buf with
              | Threw e => Threw e
              | Ok (l, buf) =>
                  match decodeSide (Some l) buf with
                  | Threw e => Threw e
                  | Ok (side, buf) =>
                      decodeQuoteLoop fuel' stop
                        {| QuoteMessage.key := QuoteMessage.key m;
                           QuoteMessage.from := QuoteMessage.from m;
                           QuoteMessage.to := Some side |} buf
                  end
              end
          | _ =>
              match skipType (Z.land t 7) buf with
              | Threw e => Threw e
              | Ok buf => decodeQuoteLoop fuel' stop m buf
              end
          end
      end
  end.

(** [Type.decode(payload)]: the whole buffer, [l] undefined. *)
Definition decodeQuote (payload : list byte) : Result QuoteMessage.t :=
  match decodeQuoteLoop (S (List.length payload)) (stopAfter None payload)
          {| QuoteMessage.key := None; QuoteMessage.from := None;
             QuoteMessage.to := None |} payload with
  | Ok (m, _) => Ok m
  | Threw e => Threw e
  end.

(** *** toJSON

    [toObject] with [util.toJSONOptions], which sets neither [defaults] nor
    [arrays]: an own scalar is copied, a repeated field is copied only when
    its array is not empty and is left out otherwise. *)

Module Side.
Record t := { network : option string; tokens : option (list Token.t) }.
End Side.

Module Quote.
Record t := { key : option string; from : option Side.t; to : option Side.t }.
End Quote.

Definition sideToJSON (m : SideMessage.t) : Side.t :=
  {| Side.network := SideMessage.network m;
     Side.tokens :=
       match SideMessage.tokens m with
       | [] => None
       | tokens => Some tokens
       end |}.

Definition toJSON (m : QuoteMessage.t) : Quote.t :=
  {| Quote.key := QuoteMessage.key m;
     Quote.from := option_map sideToJSON (QuoteMessage.from m);
     Quote.to := option_map sideToJSON (QuoteMessage.to m) |}.

End Protobuf.

(* ================================================================== *)
(** * Effects: environment and world *)

(** Where a line of output goes: the Nest [Logger] of the service or the
    global [console]. *)
Inductive Sink :=
| LoggerLog | LoggerWarn | LoggerError
| ConsoleLog | ConsoleWarn | ConsoleError.

(** What was written: a line of text, or the value handed to
    [console.log(JSON.stringify(...))]. *)
Inductive LogEntry :=
| Line (sink : Sink) (text : string)
| PrintedRequest (message : RequestQuote.t)
| PrintedResponse (response : Protobuf.Quote.t).

(** What the price feed says of one contract: an object that may carry a
    [usd] number. *)
Module Quotation.
Record t := { usd : option number }.
End Quotation.

(** One round trip to the price feed: [fetch] rejects, or answers with a
    status that is not ok, or answers with a JSON object, given by its own
    properties: under a key, a quotation (the answers of the feed have that
    shape). *)
Inductive FetchResult :=
| FetchRejects
| HttpNotOk (status : Z)
| HttpOk (data : string -> option Quotation.t).

(** What every object made by [JSON.parse] inherits from
    [Object.prototype]: functions and an object, all truthy, none with a
    [usd]. *)
Definition Object_prototype : list string :=
  [ "constructor"; "__defineGetter__"; "__defineSetter__"; "hasOwnProperty";
    "__lookupGetter__"; "__lookupSetter__"; "isPrototypeOf";
    "propertyIsEnumerable"; "toString"; "valueOf"; "__proto__";
    "toLocaleString" ]%string.

(** [data[key]]: the own property, or else the inherited one, or else
    [undefined]. *)
Definition getProperty (data : string -> option Quotation.t) (key : string)
  : option Quotation.t :=
  match data key with
  | Some quotation => Some quotation
  | None =>
      if existsb (String.eqb key) Object_prototype
      then Some {| Quotation.usd := None |}
      else None
  end.

Record Env := {
  fetch : string -> FetchResult;          (* by URL *)
  Math_random : nat -> number;            (* the n-th value Math.random() returns *)
  subscribeWithUnsubscribe : nat -> bool; (* does the n-th subscribe attempt succeed *)
  lightPush_send : string -> list byte -> bool; (* does the send go through *)
  Buffer_allocUnsafe : nat -> nat -> byte (* the n-th buffer handed out, as it
                                             is found: the byte at a position *)
}.

Record World := {
  logs : list LogEntry;                   (* most recent first *)
  draws : nat;                            (* calls of Math.random() so far *)
  attempts : nat;                         (* subscribe attempts so far *)
  subscribed : list string;               (* content topics of the live relay
                                             subscriptions, most recent first *)
  timers : list Z;                        (* pending setTimeout delays, in ms *)
  lightNodes : nat;                       (* light nodes started and not yet stopped *)
  published : list (string * list byte);  (* (content topic, payload), most recent first *)
  allocations : nat                       (* buffers handed out so far *)
}.

Definition set_logs (f : list LogEntry -> list LogEntry) (w : World) : World :=
  {| logs := f (logs w); draws := draws w; attempts := attempts w;
     subscribed := subscribed w; timers := timers w;
     lightNodes := lightNodes w; published := published w;
     allocations := allocations w |}.

Definition set_draws (f : nat -> nat) (w : World) : World :=
  {| logs := logs w; draws := f (draws w); attempts := attempts w;
     subscribed := subscribed w; timers := timers w;
     lightNodes := lightNodes w; published := published w;
     allocations := allocations w |}.

Definition set_attempts (f : nat -> nat) (w : World) : World :=
  {| logs := logs w; draws := draws w; attempts := f (attempts w);
     subscribed := subscribed w; timers := timers w;
     lightNodes := lightNodes w; published := published w;
     allocations := allocations w |}.

Definition set_subscribed (f : list string -> list string) (w : World) : World :=
  {| logs := logs w; draws := draws w; attempts := attempts w;
     subscribed := f (subscribed w); timers := timers w;
     lightNodes := lightNodes w; published := published w;
     allocations := allocations w |}.

Definition set_timers (f : list Z -> list Z) (w : World) : World :=
  {| logs := logs w; draws := draws w; attempts := attempts w;
     subscribed := subscribed w; timers := f (timers w);
     lightNodes := lightNodes w; published := published w;
     allocations := allocations w |}.

Definition set_lightNodes (f : nat -> nat) (w : World) : World :=
  {| logs := logs w; draws := draws w; attempts := attempts w;
     subscribed := subscribed w; timers := timers w;
     lightNodes := f (lightNodes w); published := published w;
     allocations := allocations w |}.

Definition set_published
  (f : list (string * list byte) -> list (string * list byte)) (w : World) : World :=
  {| logs := logs w; draws := draws w; attempts := attempts w;
     subscribed := subscribed w; timers := timers w;
     lightNodes := lightNodes w; published := f (published w);
     allocations := allocations w |}.

Definition set_allocations (f : nat -> nat) (w : World) : World :=
  {| logs := logs w; draws := draws w; attempts := attempts w;
     subscribed := subscribed w; timers := timers w;
     lightNodes := lightNodes w; published := published w;
     allocations := f (allocations w) |}.

(** An effectful computation: reads the environment, transforms the world,
    returns or throws.  The world reached when an exception is thrown is
    kept: what was logged or sent before the throw stays logged and sent. *)
Definition M (A : Type) : Type := Env -> World -> Result A * World.

Definition ret {A} (a : A) : M A := fun _ w => (Ok a, w).

Definition bind {A B} (c : M A) (k : A -> M B) : M B :=
  fun env w =>
    match c env w with
    | (Ok a, w') => k a env w'
    | (Threw e, w') => (Threw e, w')
    end.

Definition throw {A} (e : Exn) : M A := fun _ w => (Threw e, w).

(** [try { c } catch (error) { h error }]. *)
Definition tryCatch {A} (c : M A) (h : Exn -> M A) : M A :=
  fun env w =>
    match c env w with
    | (Ok a, w') => (Ok a, w')
    | (Threw e, w') => h e env w'
    end.

Declare Scope js_scope.
Delimit Scope js_scope with js.
Notation "x <- c ;; k" := (bind c (fun x => k))
  (at level 61, c at next level, right associativity) : js_scope.
Notation "c ;; k" := (bind c (fun _ => k))
  (at level 61, right associativity) : js_scope.
Open Scope js_scope.

Definition ask : M Env := fun env w => (Ok env, w).

Definition liftResult {A} (r : Result A) : M A := fun _ w => (r, w).

Definition write (entry : LogEntry) : M unit :=
  fun _ w => (Ok tt, set_logs (cons entry) w).

Definition emit (s : Sink) (line : string) : M unit := write (Line s line).

(** [Math.random()]. *)
Definition random : M number :=
  fun env w => (Ok (Math_random env (draws w)), set_draws S w).

(** [Array.prototype.map] with a callback that has effects: the callback runs
    on the elements in index order. *)
Fixpoint mapM {A B} (f : A -> M B) (l : list A) : M (list B) :=
  match l with
  | [] => ret []
  | a :: l' => b <- f a ;; bs <- mapM f l' ;; ret (b :: bs)
  end.

(** [encode(m).finish()] in Node: the buffer comes from
    [Buffer.allocUnsafe], which does not clear it; the operations of the
    writer then write what they write. *)
Module BufferWriter.

Definition alloc : M (nat -> byte) :=
  fun env w => (Ok (Buffer_allocUnsafe env (allocations w)), set_allocations S w).

Definition finish (writer : Protobuf.Writer) : M (list byte) :=
  buf <- alloc ;; ret (Protobuf.fill buf writer).

End BufferWriter.

(* ================================================================== *)
(** * The Waku node, as far as the services use it *)

Module Waku.

(** [createLightNode(...)], [node.start()], [node.waitForPeers(...)]. *)
Definition startLightNode : M unit :=
  fun _ w => (Ok tt, set_lightNodes S w).

(** [node.stop()] on a light node. *)
Definition stopLightNode : M unit :=
  fun _ w => (Ok tt, set_lightNodes Nat.pred w).

(** [node.lightPush.send(encoder, { payload })]. *)
Definition lightPushSend (contentTopic : string) (payload : list byte) : M unit :=
  fun env w =>
    if lightPush_send env contentTopic payload
    then (Ok tt, set_published (cons (contentTopic, payload)) w)
    else (Threw TransportError, w).

(** [node.relay.subscribeWithUnsubscribe([decoder], callback)], for a
    decoder made by [createDecoder(contentTopic, ...)]. *)
Definition relaySubscribe (contentTopic : string) : M unit :=
  fun env w =>
    if subscribeWithUnsubscribe env (attempts w)
    then (Ok tt, set_subscribed (cons contentTopic) (set_attempts S w))
    else (Threw SubscribeError, set_attempts S w).

(** [setTimeout(f, ms)]: the delay is recorded; the timer is fired by
    whoever runs the event loop. *)
Definition setTimeout (ms : Z) : M unit :=
  fun _ w => (Ok tt, set_timers (cons ms) w).

(** A message handed to a subscription callback. *)
Module DecodedMessage.
Record t := { payload : option (list byte) }.
End DecodedMessage.

End Waku.

Module HDNodeWallet.
Record t := { publicKey : string }.
End HDNodeWallet.

(** The timers of the event loop.  In each service every timer is armed by
    the same statement, [setTimeout(async () => await this.listen...(), 3000)],
    so a pending timer is known by its delay and the callback is given once.
    [runTimers] fires pending timers, oldest first, as long as there are
    some, at most [turns] times. *)
Module EventLoop.

Fixpoint runTimers (turns : nat) (callback : M unit) : M unit :=
  fun env w =>
    match turns, timers w with
    | S turns', _ :: _ =>
        match callback env (set_timers (@removelast Z) w) with
        | (Ok _, w') => runTimers turns' callback env w'
        | (Threw e, w') => (Threw e, w')
        end
    | _, _ => (Ok tt, w)
    end.

End EventLoop.

(* ================================================================== *)
(** * utils.service.ts *)

Module UtilsService.

(** [getBucketFromPublicKey]: the first eight characters of the hexadecimal
    SHA-256 digest of the public key. *)
Definition getBucketFromPublicKey (wallet : HDNodeWallet.t) : string :=
  let hash := Sha256.hexdigest (HDNodeWallet.publicKey wallet) in
  substring0 8 hash.

(** A protobufjs [Type], as the services use it: [encode(m)], which
    returns the writer, and [decode(payload)]. *)
Record ProtobufType (T : Type) := {
  encode : T -> Protobuf.Writer;
  decode : list byte -> Result Protobuf.QuoteMessage.t
}.

(** [getRequestType]: [Request { bucket = 1, from = 2, to = 3 }] over
    [RequestFrom]/[RequestTo { network = 1, tokens = 2 }] over
    [RequestToken { address = 1, weight = 2 }]. *)
Definition getRequestType : ProtobufType RequestQuote.t :=
  let encodeSide (side : RequestSide.t) :=
    Protobuf.encodeSide (RequestSide.network side)
      (map (fun token =>
              Protobuf.encodeToken (RequestToken.address token)
                                   (RequestToken.weight token))
           (RequestSide.tokens side)) in
  {| encode := fun m =>
       Protobuf.encodeQuote (RequestQuote.bucket m)
         (encodeSide (RequestQuote.from m)) (encodeSide (RequestQuote.to m));
     decode := Protobuf.decodeQuote |}.

(** [getResponseType]: [Response { solver = 1, from = 2, to = 3 }] over
    [ResponseFrom]/[ResponseTo { network = 1, tokens = 2 }] over
    [ResponseToken { address = 1, amount = 2 }]. *)
Definition getResponseType : ProtobufType ResponseQuote.t :=
  let encodeSide (side : ResponseSide.t) :=
    Protobuf.encodeSide (ResponseSide.network side)
      (map (fun token =>
              Protobuf.encodeToken (ResponseToken.address token)
                                   (ResponseToken.amount token))
           (ResponseSide.tokens side)) in
  {| encode := fun m =>
       Protobuf.encodeQuote (ResponseQuote.solver m)
         (encodeSide (ResponseQuote.from m)) (encodeSide (ResponseQuote.to m));
     decode := Protobuf.decodeQuote |}.

(** [getTokenPrices]: one request per address, in order.  When the answer
    has something under the lower-cased address, an entry is pushed under
    that key with the [usd] found there; otherwise the address is warned
    about; any failure of the round trip is caught and logged. *)
Definition priceUrl (address : string) : string :=
  ("https://api.coingecko.com/api/v3/simple/token_price/ethereum?contract_addresses="
     ++ address ++ "&vs_currencies=usd")%string.

Definition fetchPrice (address : string) : M (list Price.t) :=
  tryCatch
    (env <- ask ;;
     match fetch env (priceUrl address) with
     | FetchRejects => throw FetchFailed
     | HttpNotOk _ => throw HttpError
     | HttpOk data =>
         match getProperty data (toLowerCase address) with
         | Some quotation =>
             ret [ {| Price.address := toLowerCase address;
                      Price.price := Quotation.usd quotation |} ]
         | None =>
             emit ConsoleWarn ("Price not found for " ++ address)%string ;;
             ret []
         end
     end)
    (fun _ => emit ConsoleError "Error fetching token price:"%string ;; ret []).

Fixpoint getTokenPrices (addresses : list string) : M (list Price.t) :=
  match addresses with
  | [] => ret []
  | address :: rest =>
      found <- fetchPrice address ;;
      prices <- getTokenPrices rest ;;
      ret (found ++ prices)
  end.

(** [extractTokenAddresses]: from-tokens then to-tokens, duplicates kept. *)
Definition extractTokenAddresses (message : RequestQuote.t) : list string :=
  let fromAddresses :=
    map RequestToken.address (RequestSide.tokens (RequestQuote.from message)) in
  let toAddresses :=
    map RequestToken.address (RequestSide.tokens (RequestQuote.to message)) in
  fromAddresses ++ toAddresses.

(** [getPriceForAddress]: the price of the first entry whose address equals
    the given one ignoring case, [undefined] when there is none. *)
Definition getPriceForAddress (prices : list Price.t) (address : string)
  : option number :=
  let priceObj :=
    find (fun price =>
            String.eqb (toLowerCase (Price.address price)) (toLowerCase address))
         prices in
  match priceObj with
  | Some p => Price.price p
  | None => None
  end.

Definition minFee : number := 1 # 1000. (* 0.1% *)
Definition maxFee : number := 1 # 100.  (* 1% *)

(** The arithmetic of [getRandomFeePercentage] on the value [u] drawn. *)
Definition feeOfDraw (u : number) : number := u * (maxFee - minFee) + minFee.

Definition getRandomFeePercentage : M number :=
  u <- random ;; ret (feeOfDraw u).

(** [computeUpdatedToTokens].  The method reaches the fee through
    [this.getRandomFeePercentage()]; the fee source is a parameter here, so
    that a run with a stubbed fee can be stated, and the method of the class
    is the instance at [getRandomFeePercentage]. *)
Section FeeSource.
Variable feeSource : M number.

Definition updateToToken (fromTokenAmountInUSD : number) (prices : list Price.t)
  (toToken : RequestToken.t) : M ResponseToken.t :=
  let toTokenPrice := getPriceForAddress prices (RequestToken.address toToken) in
  let notFound :=
    emit ConsoleError
      ("Prezzo non trovato per l'indirizzo " ++ RequestToken.address toToken)%string ;;
    ret {| ResponseToken.address := RequestToken.address toToken;
           ResponseToken.amount := 0 |} in
  match toTokenPrice with
  | None => notFound
  | Some price =>
      if falsy toTokenPrice then notFound
      else
        let toTokenAmountInUSD :=
          (fromTokenAmountInUSD * RequestToken.weight toToken) / 100 in
        let toTokenAmount := toTokenAmountInUSD / price in
        feePercentage <- feeSource ;;
        let toTokenAmountAfterFee := toTokenAmount * (1 - feePercentage) in
        ret {| ResponseToken.address := RequestToken.address toToken;
               ResponseToken.amount := toTokenAmountAfterFee |}
  end.

Definition computeUpdatedToTokensWith (toTokens : list RequestToken.t)
  (fromTokenAmountInUSD : number) (prices : list Price.t)
  : M (list ResponseToken.t) :=
  mapM (updateToToken fromTokenAmountInUSD prices) toTokens.
End FeeSource.

Definition computeUpdatedToTokens :=
  computeUpdatedToTokensWith getRandomFeePercentage.

End UtilsService.

(* ================================================================== *)
(** * The solver on an object that is not what its type says

    The methods of solver.service.ts and utils.service.ts once more, as
    they run when [request] is the decoded object itself and a property the
    interface promises is [undefined]: an [undefined] string is spelled
    ["undefined"] in a template and has no [toLowerCase], an [undefined]
    number makes the arithmetic yield [NaN], and the generated [encode]
    leaves out a property that is [undefined]. *)

Module Unchecked.

(** A [number] of the language that may be [NaN]. *)
Inductive Numeric :=
| Finite (q : number)
| NaN.

Definition times (x y : Numeric) : Numeric :=
  match x, y with
  | Finite a, Finite b => Finite (a * b)
  | _, _ => NaN
  end.

(** Division; the code divides by [100] and by a price it found truthy. *)
Definition over (x y : Numeric) : Numeric :=
  match x, y with
  | Finite a, Finite b => Finite (a / b)
  | _, _ => NaN
  end.

Definition minus (x y : Numeric) : Numeric :=
  match x, y with
  | Finite a, Finite b => Finite (a - b)
  | _, _ => NaN
  end.

(** A weight read off the object, as a number and as an operand. *)
Definition numberOf (value : option Z) : option Numeric :=
  option_map (fun z => Finite (inject_Z z)) value.

Definition operand (value : option Numeric) : Numeric :=
  match value with
  | Some x => x
  | None => NaN
  end.

(** [`${x}`]. *)
Definition interpolate (x : option string) : string :=
  match x with
  | Some s => s
  | None => "undefined"
  end.

Module ResponseToken.
Record t := { address : option string; amount : option Numeric }.
End ResponseToken.

Module ResponseSide.
Record t := { network : option string; tokens : list ResponseToken.t }.
End ResponseSide.

Module ResponseQuote.
Record t := { solver : string; from : ResponseSide.t; to : ResponseSide.t }.
End ResponseQuote.

(** ** utils.service.ts *)

(** [getTokenPrices], one address: with [address] undefined the round trip
    is made for a URL spelled with ["undefined"], and once an answer is
    there [address.toLowerCase()] throws; the catch clause logs that like
    any other failure. *)
Definition fetchPrice (address : option string) : M (list Price.t) :=
  tryCatch
    (env <- ask ;;
     match fetch env (UtilsService.priceUrl (interpolate address)) with
     | FetchRejects => throw FetchFailed
     | HttpNotOk _ => throw HttpError
     | HttpOk data =>
         match address with
         | None => throw TypeError
         | Some address =>
             match getProperty data (toLowerCase address) with
             | Some quotation =>
                 ret [ {| Price.address := toLowerCase address;
                          Price.price := Quotation.usd quotation |} ]
             | None =>
                 emit ConsoleWarn ("Price not found for " ++ address)%string ;;
                 ret []
             end
         end
     end)
    (fun _ => emit ConsoleError "Error fetching token price:"%string ;; ret []).

Fixpoint getTokenPrices (addresses : list (option string)) : M (list Price.t) :=
  match addresses with
  | [] => ret []
  | address :: rest =>
      found <- fetchPrice address ;;
      prices <- getTokenPrices rest ;;
      ret (found ++ prices)
  end.

Definition extractTokenAddresses (fromTokens toTokens : list Protobuf.Token.t)
  : list (option string) :=
  let fromAddresses := map Protobuf.Token.address fromTokens in
  let toAddresses := map Protobuf.Token.address toTokens in
  fromAddresses ++ toAddresses.

(** [getPriceForAddress]: the callback of [find] reads
    [address.toLowerCase()] for the first entry it is shown; on an empty
    list it is not called. *)
Definition getPriceForAddress (prices : list Price.t) (address : option string)
  : Result (option number) :=
  match address with
  | Some address => Ok (UtilsService.getPriceForAddress prices address)
  | None =>
      match prices with
      | [] => Ok None
      | _ :: _ => Threw TypeError
      end
  end.

Section Service.
Variable wallet : HDNodeWallet.t.
Variable feeSource : M number.

Definition updateToToken (fromTokenAmountInUSD : Numeric) (prices : list Price.t)
  (toToken : Protobuf.Token.t) : M ResponseToken.t :=
  toTokenPrice <-
    liftResult (getPriceForAddress prices (Protobuf.Token.address toToken)) ;;
  let notFound :=
    emit ConsoleError
      ("Prezzo non trovato per l'indirizzo "
         ++ interpolate (Protobuf.Token.address toToken))%string ;;
    ret {| ResponseToken.address := Protobuf.Token.address toToken;
           ResponseToken.amount := Some (Finite 0) |} in
  match toTokenPrice with
  | None => notFound
  | Some price =>
      if falsy toTokenPrice then notFound
      else
        let toTokenAmountInUSD :=
          over (times fromTokenAmountInUSD
                      (operand (numberOf (Protobuf.Token.value toToken))))
               (Finite 100) in
        let toTokenAmount := over toTokenAmountInUSD (Finite price) in
        feePercentage <- feeSource ;;
        let toTokenAmountAfterFee :=
          times toTokenAmount (minus (Finite 1) (Finite feePercentage)) in
        ret {| ResponseToken.address := Protobuf.Token.address toToken;
               ResponseToken.amount := Some toTokenAmountAfterFee |}
  end.

Definition computeUpdatedToTokens (toTokens : list Protobuf.Token.t)
  (fromTokenAmountInUSD : Numeric) (prices : list Price.t)
  : M (list ResponseToken.t) :=
  mapM (updateToToken fromTokenAmountInUSD prices) toTokens.

(** ** solver.service.ts *)

(** [request.from.tokens] and [request.to.tokens]. *)
(** The tokens of a side as pairs of an address and a weight. *)
Definition tokensOf (side : option Protobuf.Side.t) : option (list Protobuf.Token.t) :=
  match side with
  | Some side => Protobuf.Side.tokens side
  | None => None
  end.

(** [request.from.network] and [request.to.network], once [tokens] was
    read off the same side. *)
Definition networkOf (side : option Protobuf.Side.t) : option string :=
  match side with
  | Some side => Protobuf.Side.network side
  | None => None
  end.

Definition processMessage (request : Protobuf.Quote.t)
  : M (option ResponseQuote.t) :=
  match tokensOf (Protobuf.Quote.from request),
        tokensOf (Protobuf.Quote.to request) with
  | Some fromTokens, Some toTokens =>
      let tokenAddresses := extractTokenAddresses fromTokens toTokens in
      prices <- getTokenPrices tokenAddresses ;;
      match fromTokens with
      | [] => throw TypeError
      | fromToken :: _ =>
          fromTokenPrice <-
            liftResult
              (getPriceForAddress prices (Protobuf.Token.address fromToken)) ;;
          let notFound :=
            emit LoggerError
              ("Price not found for "
                 ++ interpolate (Protobuf.Token.address fromToken))%string ;;
            ret None in
          match fromTokenPrice with
          | None => notFound
          | Some price =>
              if falsy fromTokenPrice then notFound
              else
                let fromTokenAmountInUSD :=
                  times (operand (numberOf (Protobuf.Token.value fromToken)))
                        (Finite price) in
                updatedToTokens <-
                  computeUpdatedToTokens toTokens fromTokenAmountInUSD prices ;;
                ret (Some
                  {| ResponseQuote.solver := HDNodeWallet.publicKey wallet;
                     ResponseQuote.from :=
                       {| ResponseSide.network :=
                            networkOf (Protobuf.Quote.from request);
                          ResponseSide.tokens :=
                            map (fun token =>
                                   {| ResponseToken.address :=
                                        Protobuf.Token.address token;
                                      ResponseToken.amount :=
                                        numberOf (Protobuf.Token.value token) |})
                                fromTokens |};
                     ResponseQuote.to :=
                       {| ResponseSide.network :=
                            networkOf (Protobuf.Quote.to request);
                          ResponseSide.tokens := updatedToTokens |} |})
          end
      end
  | _, _ => throw TypeError
  end.

End Service.

(** The code generated for [encode] guards every field by
    [m.field != null], and every repeated field by its length. *)
Definition Writer_int32 (value : Numeric) : Protobuf.Writer :=
  match value with
  | Finite q => Protobuf.Writer_int32 q
  | NaN => Protobuf.written (Protobuf.Writer_uint32 0) (* NaN >>> 0 *)
  end.

Definition encodeToken (token : ResponseToken.t) : Protobuf.Writer :=
  match ResponseToken.address token with
  | Some address =>
      Protobuf.written (Protobuf.tag 1 2 ++ Protobuf.Writer_string address)
  | None => []
  end
  ++ match ResponseToken.amount token with
     | Some amount => Protobuf.written (Protobuf.tag 2 0) ++ Writer_int32 amount
     | None => []
     end.

Definition encodeSide (side : ResponseSide.t) : Protobuf.Writer :=
  match ResponseSide.network side with
  | Some network =>
      Protobuf.written (Protobuf.tag 1 2 ++ Protobuf.Writer_string network)
  | None => []
  end
  ++ flat_map (fun token =>
                 Protobuf.written (Protobuf.tag 2 2)
                 ++ Protobuf.ldelim (encodeToken token))
              (ResponseSide.tokens side).

Definition encode (m : ResponseQuote.t) : Protobuf.Writer :=
  Protobuf.written (Protobuf.tag 1 2 ++ Protobuf.Writer_string (ResponseQuote.solver m))
  ++ Protobuf.written (Protobuf.tag 2 2)
  ++ Protobuf.ldelim (encodeSide (ResponseQuote.from m))
  ++ Protobuf.written (Protobuf.tag 3 2)
  ++ Protobuf.ldelim (encodeSide (ResponseQuote.to m)).

(** [sendResponse], with [request.bucket] for bucket. *)
Definition sendResponse (bucket : option string) (response : option ResponseQuote.t)
  : M unit :=
  let contentTopics := [("/iLayer/1/" ++ interpolate bucket ++ "/proto")%string] in
  Waku.startLightNode ;;
  emit LoggerLog "Sending response for quotes..." ;;
  serialisedMessage <-
    match response with
    | Some m => BufferWriter.finish (encode m)
    | None => throw TypeError
    end ;;
  Waku.lightPushSend (nth 0 contentTopics ""%string) serialisedMessage ;;
  emit LoggerLog "Response for quotes sent." ;;
  Waku.stopLightNode.

End Unchecked.

(* ================================================================== *)
(** * solver.service.ts *)

Module SolverService.

(** The constructor: the well-known request topic, and the decoder made for
    [contentTopics[0]]. *)
Definition contentTopics : list string := ["/iLayer/1/rfq/proto"%string].

Definition decoderTopic : string := nth 0 contentTopics ""%string.

(** [listenToQuoteRequests], one attempt: subscribe and say so, or warn and
    arm a timer of three seconds that will call the method again. *)
Definition listenToQuoteRequests : M unit :=
  tryCatch
    (Waku.relaySubscribe decoderTopic ;;
     emit LoggerLog "Subscribed to quotes request topic.")
    (fun _ =>
       emit LoggerWarn "Subscription retry..." ;;
       Waku.setTimeout 3000).

(** [onModuleInit]: the relay node is created and started and a peer is
    awaited (taken to succeed), the connection is logged, and the service
    subscribes. *)
Definition onModuleInit : M unit :=
  emit LoggerLog "Connected to TCP relay Node." ;;
  listenToQuoteRequests.

(** The object [requestType.decode(payload).toJSON()] returns is used
    [as RequestQuote], which checks nothing.  [processMessage] starts with
    [extractTokenAddresses], which reads [message.from.tokens] and
    [message.to.tokens] and calls [map] on them: an object without one of
    these containers makes it throw a [TypeError] before anything else
    happens.  An object that has the containers but lacks a leaf ([bucket],
    a [network], an [address], a [weight]) carries [undefined] where the
    interface promises a string or a number: it is no [RequestQuote], and
    the methods run on it as [Unchecked] describes. *)
Inductive Cast (T : Type) :=
| Typed (v : T)
| MissingContainer
| MissingLeaf.
Arguments MissingContainer {T}.
Arguments MissingLeaf {T}.

Definition asRequestToken (token : Protobuf.Token.t) : option RequestToken.t :=
  match Protobuf.Token.address token, Protobuf.Token.value token with
  | Some address, Some weight =>
      Some {| RequestToken.address := address;
              RequestToken.weight := inject_Z weight |}
  | _, _ => None
  end.

Fixpoint asRequestTokens (tokens : list Protobuf.Token.t)
  : option (list RequestToken.t) :=
  match tokens with
  | [] => Some []
  | token :: rest =>
      match asRequestToken token, asRequestTokens rest with
      | Some t, Some ts => Some (t :: ts)
      | _, _ => None
      end
  end.

Definition asRequestQuote (json : Protobuf.Quote.t) : Cast RequestQuote.t :=
  match Protobuf.Quote.from json, Protobuf.Quote.to json with
  | Some from, Some to =>
      match Protobuf.Side.tokens from, Protobuf.Side.tokens to with
      | Some fromTokens, Some toTokens =>
          match Protobuf.Quote.key json,
                Protobuf.Side.network from, asRequestTokens fromTokens,
                Protobuf.Side.network to, asRequestTokens toTokens with
          | Some bucket, Some fromNetwork, Some fromTokens,
            Some toNetwork, Some toTokens =>
              Typed {| RequestQuote.bucket := bucket;
                       RequestQuote.from :=
                         {| RequestSide.network := fromNetwork;
                            RequestSide.tokens := fromTokens |};
                       RequestQuote.to :=
                         {| RequestSide.network := toNetwork;
                            RequestSide.tokens := toTokens |} |}
          | _, _, _, _, _ => MissingLeaf
          end
      | _, _ => MissingContainer
      end
  | _, _ => MissingContainer
  end.

Section Service.
Variable wallet : HDNodeWallet.t.

Definition requestType := UtilsService.getRequestType.
Definition responseType := UtilsService.getResponseType.

(** [processMessage].  It resolves to a response, or to [undefined] when the
    price of the first from-token is falsy; [request.from.tokens[0]] is
    [undefined] on an empty list, and reading its [address] throws. *)
Section FeeSource.
Variable feeSource : M number.

Definition processMessageWith (request : RequestQuote.t)
  : M (option ResponseQuote.t) :=
  let tokenAddresses := UtilsService.extractTokenAddresses request in
  prices <- UtilsService.getTokenPrices tokenAddresses ;;
  match RequestSide.tokens (RequestQuote.from request) with
  | [] => throw TypeError
  | fromToken :: _ =>
      let fromTokenPrice :=
        UtilsService.getPriceForAddress prices (RequestToken.address fromToken) in
      let notFound :=
        emit LoggerError
          ("Price not found for " ++ RequestToken.address fromToken)%string ;;
        ret None in
      match fromTokenPrice with
      | None => notFound
      | Some price =>
          if falsy fromTokenPrice then notFound
          else
            let fromTokenAmountInUSD := RequestToken.weight fromToken * price in
            updatedToTokens <-
              UtilsService.computeUpdatedToTokensWith feeSource
                (RequestSide.tokens (RequestQuote.to request))
                fromTokenAmountInUSD prices ;;
            ret (Some
              {| ResponseQuote.solver := HDNodeWallet.publicKey wallet;
                 ResponseQuote.from :=
                   {| ResponseSide.network :=
                        RequestSide.network (RequestQuote.from request);
                      ResponseSide.tokens :=
                        map (fun token =>
                               {| ResponseToken.address := RequestToken.address token;
                                  ResponseToken.amount := RequestToken.weight token |})
                            (RequestSide.tokens (RequestQuote.from request)) |};
                 ResponseQuote.to :=
                   {| ResponseSide.network :=
                        RequestSide.network (RequestQuote.to request);
                      ResponseSide.tokens := updatedToTokens |} |})
      end
  end.

(** [sendResponse].  A light node is started, the response is encoded and
    pushed on the topic made from the bucket, the node is stopped.  The
    generated [encode] starts by reading [m.solver]: on [undefined] it
    throws a [TypeError], after the node was started and before anything is
    sent. *)
Definition sendResponse_contentTopics (bucket : string) : list string :=
  [("/iLayer/1/" ++ bucket ++ "/proto")%string].

Definition sendResponse (bucket : string) (response : option ResponseQuote.t)
  : M unit :=
  let contentTopics := sendResponse_contentTopics bucket in
  Waku.startLightNode ;;
  emit LoggerLog "Sending response for quotes..." ;;
  serialisedMessage <-
    match response with
    | Some m => BufferWriter.finish (UtilsService.encode responseType m)
    | None => throw TypeError
    end ;;
  Waku.lightPushSend (nth 0 contentTopics ""%string) serialisedMessage ;;
  emit LoggerLog "Response for quotes sent." ;;
  Waku.stopLightNode.

(** [callback]: nothing in it catches. *)
Definition callbackWith (message : Waku.DecodedMessage.t) : M unit :=
  emit LoggerLog "New request for quotes received." ;;
  match Waku.DecodedMessage.payload message with
  | None => ret tt
  | Some payload =>
      decoded <- liftResult (UtilsService.decode requestType payload) ;;
      match asRequestQuote (Protobuf.toJSON decoded) with
      | Typed request =>
          response <- processMessageWith request ;;
          sendResponse (RequestQuote.bucket request) response
      | MissingContainer => throw TypeError
      | MissingLeaf =>
          let request := Protobuf.toJSON decoded in
          response <- Unchecked.processMessage wallet feeSource request ;;
          Unchecked.sendResponse (Protobuf.Quote.key request) response
      end
  end.
End FeeSource.

Definition processMessage := processMessageWith UtilsService.getRandomFeePercentage.
Definition callback := callbackWith UtilsService.getRandomFeePercentage.

End Service.
End SolverService.

(* ================================================================== *)
(** * user.service.ts *)

Module UserService.

Section Service.
Variable wallet : HDNodeWallet.t.

(** The constructor: the bucket of the wallet, and the topic the service
    listens on. *)
Definition bucket : string := UtilsService.getBucketFromPublicKey wallet.

Definition contentTopics : list string :=
  [("/iLayer/1/" ++ bucket ++ "/proto")%string].

Definition decoderTopic : string := nth 0 contentTopics ""%string.

Definition requestType := UtilsService.getRequestType.
Definition responseType := UtilsService.getResponseType.

(** [listenToQuoteResponses], one attempt. *)
Definition listenToQuoteResponses : M unit :=
  tryCatch
    (Waku.relaySubscribe decoderTopic ;;
     emit LoggerLog "Subscribed to quotes response topic.")
    (fun _ =>
       emit LoggerWarn "Subscription retry..." ;;
       Waku.setTimeout 3000).

(** [onModuleInit], as in the solver. *)
Definition onModuleInit : M unit :=
  emit LoggerLog "Connected to TCP relay Node." ;;
  listenToQuoteResponses.

(** [callback]: decode and print; nothing in it catches. *)
Definition callback (message : Waku.DecodedMessage.t) : M unit :=
  emit LoggerLog "New response for quotes received." ;;
  match Waku.DecodedMessage.payload message with
  | None => ret tt
  | Some payload =>
      decoded <- liftResult (UtilsService.decode responseType payload) ;;
      write (PrintedResponse (Protobuf.toJSON decoded))
  end.

(** [sendRequest]: the sample request, pushed once on the request topic. *)
Definition sendRequest_contentTopics : list string :=
  ["/iLayer/1/rfq/proto"%string].

Definition sendRequest_message : RequestQuote.t :=
  {| RequestQuote.bucket := bucket;
     RequestQuote.from :=
       {| RequestSide.network := "mainnet";
          RequestSide.tokens :=
            [ {| RequestToken.address := "0xc02aaa39b223fe8d0a0e5c4f27ead9083c756cc2";
                 RequestToken.weight := 1 |} ] |};
     RequestQuote.to :=
       {| RequestSide.network := "base";
          RequestSide.tokens :=
            [ {| RequestToken.address := "0xa0b86991c6218b36c1d19d4a2e9eb0ce3606eb48";
                 RequestToken.weight := 30 |};
              {| RequestToken.address := "0xdac17f958d2ee523a2206206994597c13d831ec7";
                 RequestToken.weight := 70 |} ] |} |}.

Definition sendRequest : M unit :=
  let contentTopics := sendRequest_contentTopics in
  Waku.startLightNode ;;
  emit LoggerLog "Sending request for quotes..." ;;
  let message := sendRequest_message in
  write (PrintedRequest message) ;;
  serialisedMessage <-
    BufferWriter.finish (UtilsService.encode requestType message) ;;
  Waku.lightPushSend (nth 0 contentTopics ""%string) serialisedMessage ;;
  emit LoggerLog "Request for quotes sent." ;;
  Waku.stopLightNode.

End Service.
End UserService.

(* ================================================================== *)
(** * user.controller.ts *)

Module UserController.

(** [GET /user/waku/send-request]. *)
Definition sendMessage (wallet : HDNodeWallet.t) : M unit :=
  UserService.sendRequest wallet.

End UserController.

(* ================================================================== *)
(** * The scenario of the specification, and a world to run it in *)

Module Scenario.

(** A feed that knows four lower-case addresses, one of them at price 0. *)
Definition quoted (usd : number) : option Quotation.t :=
  Some {| Quotation.usd := Some usd |}.

Definition feed (address : string) : option Quotation.t :=
  if String.eqb address "0xaaa" then quoted 1
  else if String.eqb address "0xbbb" then quoted 2
  else if String.eqb address "0xccc" then quoted 5
  else if String.eqb address "0xddd" then quoted 0
  else None.

Definition env : Env :=
  {| fetch := fun _ => HttpOk feed;
     Math_random := fun _ => 1 # 2;
     subscribeWithUnsubscribe := fun _ => true;
     lightPush_send := fun _ _ => true;
     Buffer_allocUnsafe := fun _ _ => x00 |}.

Definition world : World :=
  {| logs := []; draws := 0; attempts := 1;
     subscribed := ["/iLayer/1/rfq/proto"%string]; timers := [];
     lightNodes := 0; published := []; allocations := 0 |}.

Definition wallet : HDNodeWallet.t := {| HDNodeWallet.publicKey := "0x02abc" |}.

Definition token (address : string) (weight : number) : RequestToken.t :=
  {| RequestToken.address := address; RequestToken.weight := weight |}.

Definition quote (fromTokens toTokens : list RequestToken.t) : RequestQuote.t :=
  {| RequestQuote.bucket := "ab12cd34";
     RequestQuote.from :=
       {| RequestSide.network := "mainnet"; RequestSide.tokens := fromTokens |};
     RequestQuote.to :=
       {| RequestSide.network := "base"; RequestSide.tokens := toTokens |} |}.

(** The request of the concrete scenario. *)
Definition request : RequestQuote.t :=
  quote [token "0xAAA" 1000] [token "0xBBB" 30; token "0xCCC" 70].

Definition prices : list Price.t :=
  [ {| Price.address := "0xaaa"; Price.price := Some 1 |};
    {| Price.address := "0xbbb"; Price.price := Some 2 |};
    {| Price.address := "0xccc"; Price.price := Some 5 |};
    {| Price.address := "0xddd"; Price.price := Some 0 |} ].

End Scenario.
(* ================================================================== *)
(** * Vocabulary of the properties *)

Unset Implicit Arguments.

(** The world after [computeUpdatedToTokens]: only the log and the number of
    draws can have changed. *)
Definition sameOutside (w w' : World) : Prop :=
  attempts w' = attempts w /\ subscribed w' = subscribed w
  /\ timers w' = timers w /\ lightNodes w' = lightNodes w
  /\ published w' = published w.

(** [x] lies between [a] and [b], whichever of the two is the larger. *)
Definition between (a b x : number) : Prop := (a <= x <= b) \/ (b <= x <= a).

(** The from-side of a response, as [processMessage] builds it. *)
Definition echoedFrom (request : RequestQuote.t) : ResponseSide.t :=
  {| ResponseSide.network := RequestSide.network (RequestQuote.from request);
     ResponseSide.tokens :=
       map (fun token =>
              {| ResponseToken.address := RequestToken.address token;
                 ResponseToken.amount := RequestToken.weight token |})
           (RequestSide.tokens (RequestQuote.from request)) |}.

(** A computation relates every world it starts in to the one it ends in. *)
Definition preserves {A} (R : World -> World -> Prop) (c : M A) : Prop :=
  forall env w, R w (snd (c env w)).

(** The long-lived subscription and what drives it. *)
Definition sameSubscription (w w' : World) : Prop :=
  subscribed w' = subscribed w /\ attempts w' = attempts w
  /\ timers w' = timers w.

(** What has been pushed to the network. *)
Definition samePublished (w w' : World) : Prop := published w' = published w.

(** The number of buffers handed out. *)
Definition sameAllocations (w w' : World) : Prop := allocations w' = allocations w.

(** The line the solver callback logs first. *)
Definition receiptLine : LogEntry := Line LoggerLog "New request for quotes received.".

(** What the unchecked reading returns where the typed one returns
    [response]. *)
Definition uncheckedToken (token : ResponseToken.t) : Unchecked.ResponseToken.t :=
  {| Unchecked.ResponseToken.address := Some (ResponseToken.address token);
     Unchecked.ResponseToken.amount :=
       Some (Unchecked.Finite (ResponseToken.amount token)) |}.

Definition uncheckedSide (side : ResponseSide.t) : Unchecked.ResponseSide.t :=
  {| Unchecked.ResponseSide.network := Some (ResponseSide.network side);
     Unchecked.ResponseSide.tokens := map uncheckedToken (ResponseSide.tokens side) |}.

Definition uncheckedResponse (response : ResponseQuote.t) : Unchecked.ResponseQuote.t :=
  {| Unchecked.ResponseQuote.solver := ResponseQuote.solver response;
     Unchecked.ResponseQuote.from := uncheckedSide (ResponseQuote.from response);
     Unchecked.ResponseQuote.to := uncheckedSide (ResponseQuote.to response) |}.

(** The callback of the solver with every decoded object read unchecked. *)
Definition uncheckedCallback (wallet : HDNodeWallet.t)
  (message : Waku.DecodedMessage.t) : M unit :=
  emit LoggerLog "New request for quotes received." ;;
  match Waku.DecodedMessage.payload message with
  | None => ret tt
  | Some payload =>
      decoded <- liftResult
                   (UtilsService.decode UtilsService.getRequestType payload) ;;
      let request := Protobuf.toJSON decoded in
      response <- Unchecked.processMessage wallet
                    UtilsService.getRandomFeePercentage request ;;
      Unchecked.sendResponse (Protobuf.Quote.key request) response
  end.

(** ** What the wire carries

    The decoded image of what [encode] was given, and the conditions under
    which it travels unharmed. *)

Section WireVocabulary.
Import Protobuf.
Local Open Scope Z_scope.

(** The bytes of a writer that leaves nothing unwritten: the field of an
    [int32] when [writeVarint64] fills the ten bytes, a length-delimited
    body, a token, a side and a quote. *)
Definition int32Bytes (value : number) : list byte :=
  if Qle_bool 0 value then Writer_uint32 value
  else writeVarint 10 (truncate value mod 2 ^ 64).

Definition delimited (body : list byte) : list byte :=
  Writer_uint32 (inject_Z (Z.of_nat (List.length body))) ++ body.

Definition tokenBytes (address : string) (value : number) : list byte :=
  tag 1 2 ++ Writer_string address ++ tag 2 0 ++ int32Bytes value.

Definition sideBytes (network : string) (tokens : list (list byte)) : list byte :=
  tag 1 2 ++ Writer_string network
  ++ flat_map (fun token => tag 2 2 ++ delimited token) tokens.

Definition quoteBytes (key : string) (from to : list byte) : list byte :=
  tag 1 2 ++ Writer_string key
  ++ tag 2 2 ++ delimited from
  ++ tag 3 2 ++ delimited to.

(** The value is written in full: it is not negative, or the top bit of
    its 64-bit two's complement is set. *)
Definition writtenInFull (value : number) : Prop :=
  Qle_bool 0 value = true \/ 2 ^ 63 <= truncate value mod 2 ^ 64.

(** The value travels in an [int32] field up to rounding toward zero: its
    integer part fits 32 bits, and it is not strictly between [-1] and [0]
    (for such a value nine bytes of the buffer are left unwritten). *)
Definition carried (value : number) : Prop :=
  - 2 ^ 31 <= truncate value < 2 ^ 31 /\ ~ (- (1) < value /\ value < 0)%Q.

(** The decoded image of a token, and what a token must satisfy to travel
    unharmed: an address shorter than [2^32] bytes and a value whose integer
    part is an [int32]. *)
Definition wireToken (address : string) (value : number) : Token.t :=
  {| Token.address := Some address; Token.value := Some (truncate value) |}.

Definition tokenFits (address : string) (value : number) : Prop :=
  Z.of_nat (String.length address) < 2 ^ 32
  /\ - 2 ^ 31 <= truncate value < 2 ^ 31.

(** A token together with the frame around it. *)
Definition framedFits (token : string * number) : Prop :=
  tokenFits (fst token) (snd token)
  /\ Z.of_nat (List.length (tokenBytes (fst token) (snd token))) < 2 ^ 32.

Definition tokensBytes (tokens : list (string * number)) : list (list byte) :=
  map (fun token => tokenBytes (fst token) (snd token)) tokens.

Definition wireTokens (tokens : list (string * number)) : list Token.t :=
  map (fun token => wireToken (fst token) (snd token)) tokens.

Definition framed (tokens : list (list byte)) : list byte :=
  flat_map (fun token => tag 2 2 ++ delimited token) tokens.

Definition wireSide (network : string) (tokens : list (string * number))
  : SideMessage.t :=
  {| SideMessage.network := Some network;
     SideMessage.tokens := wireTokens tokens |}.

Definition sideFits (network : string) (tokens : list (string * number)) : Prop :=
  Z.of_nat (String.length network) < 2 ^ 32 /\ Forall framedFits tokens.

Definition wireQuote (key : string)
  (fromNetwork : string) (fromTokens : list (string * number))
  (toNetwork : string) (toTokens : list (string * number)) : QuoteMessage.t :=
  {| QuoteMessage.key := Some key;
     QuoteMessage.from := Some (wireSide fromNetwork fromTokens);
     QuoteMessage.to := Some (wireSide toNetwork toTokens) |}.

Definition int32 (x : number) : Prop := - 2 ^ 31 <= truncate x < 2 ^ 31.

End WireVocabulary.

Definition tokensOf (side : RequestSide.t) : list (string * number) :=
  map (fun token => (RequestToken.address token, RequestToken.weight token))
      (RequestSide.tokens side).

(** Every weight of the request travels in the [int32] field. *)
Definition carriedWeights (request : RequestQuote.t) : Prop :=
  Forall (fun token => carried (RequestToken.weight token))
         (RequestSide.tokens (RequestQuote.from request))
  /\ Forall (fun token => carried (RequestToken.weight token))
            (RequestSide.tokens (RequestQuote.to request)).

(** What [encode(m).finish()] returns in a given state. *)
Definition finished (env : Env) (w : World) (writer : Protobuf.Writer) : list byte :=
  Protobuf.fill (Buffer_allocUnsafe env (allocations w)) writer.

(** The request with every weight rounded toward zero. *)
Definition truncatedToken (token : RequestToken.t) : RequestToken.t :=
  {| RequestToken.address := RequestToken.address token;
     RequestToken.weight := inject_Z (Protobuf.truncate (RequestToken.weight token)) |}.

Definition truncatedSide (side : RequestSide.t) : RequestSide.t :=
  {| RequestSide.network := RequestSide.network side;
     RequestSide.tokens := map truncatedToken (RequestSide.tokens side) |}.

Definition truncatedQuote (request : RequestQuote.t) : RequestQuote.t :=
  {| RequestQuote.bucket := RequestQuote.bucket request;
     RequestQuote.from := truncatedSide (RequestQuote.from request);
     RequestQuote.to := truncatedSide (RequestQuote.to request) |}.

(** A request with a weight beyond [int32] and an empty to-list. *)
Definition outOfRangeAndEmpty : RequestQuote.t :=
  Scenario.quote [Scenario.token "0xAAA" 3000000000] [].



(** Requests whose source token the feed does not know, or prices at 0. *)
Definition unknownSource : RequestQuote.t :=
  Scenario.quote [Scenario.token "0xEEE" 1000]
                 [Scenario.token "0xBBB" 30; Scenario.token "0xCCC" 70].

Definition zeroPricedSource : RequestQuote.t :=
  Scenario.quote [Scenario.token "0xDDD" 1000] [Scenario.token "0xBBB" 100].

(** ** For the further properties *)

(** What the answer of the feed has under the lower-cased address, as an
    own property or as one inherited from [Object.prototype], when the
    round trip succeeds. *)
Definition feedEntry (env : Env) (address : string) : option Quotation.t :=
  match fetch env (UtilsService.priceUrl address) with
  | HttpOk data => getProperty data (toLowerCase address)
  | _ => None
  end.

(** The [usd] price found there. *)
Definition feedPrice (env : Env) (address : string) : option number :=
  match feedEntry env address with
  | Some quotation => Quotation.usd quotation
  | None => None
  end.

(** The entry [getTokenPrices] pushes for one address. *)
Definition pushed (env : Env) (address : string) : list Price.t :=
  match feedEntry env address with
  | Some quotation =>
      [ {| Price.address := toLowerCase address;
           Price.price := Quotation.usd quotation |} ]
  | None => []
  end.

(** The price under the first address of the list that equals [address]
    up to case and has an entry. *)
Fixpoint firstKnown (env : Env) (addresses : list string) (address : string)
  : option number :=
  match addresses with
  | [] => None
  | a :: rest =>
      match feedEntry env a with
      | Some quotation =>
          if String.eqb (toLowerCase a) (toLowerCase address)
          then Quotation.usd quotation
          else firstKnown env rest address
      | None => firstKnown env rest address
      end
  end.

(** Has the token a price the engine will use. *)
Definition priced (prices : list Price.t) (token : RequestToken.t) : bool :=
  negb (falsy (UtilsService.getPriceForAddress prices (RequestToken.address token))).

(** The console line written for a token without a usable price. *)
Definition notFoundLine (token : RequestToken.t) : LogEntry :=
  Line ConsoleError
    ("Prezzo non trovato per l'indirizzo " ++ RequestToken.address token)%string.

(** One subscribe attempt, as both services write it, up to the topic of
    the decoder and the line logged on success. *)
Definition subscribeAttempt (contentTopic subscribedLine : string) : M unit :=
  tryCatch
    (Waku.relaySubscribe contentTopic ;; emit LoggerLog subscribedLine)
    (fun _ => emit LoggerWarn "Subscription retry..." ;; Waku.setTimeout 3000).

(** What a service has logged once it is subscribed after [k] failures. *)
Definition retryLog (subscribedLine : string) (k : nat) (before : list LogEntry)
  : list LogEntry :=
  Line LoggerLog subscribedLine
  :: repeat (Line LoggerWarn "Subscription retry...") k ++ before.

(** What the requester prints for a response it receives: the integer part
    of every amount, and no [tokens] property where the list was empty. *)
Definition printedSide (side : ResponseSide.t) : Protobuf.Side.t :=
  {| Protobuf.Side.network := Some (ResponseSide.network side);
     Protobuf.Side.tokens :=
       match ResponseSide.tokens side with
       | [] => None
       | tokens =>
           Some (map (fun token =>
                        {| Protobuf.Token.address := Some (ResponseToken.address token);
                           Protobuf.Token.value :=
                             Some (Protobuf.truncate (ResponseToken.amount token)) |})
                     tokens)
       end |}.

Definition printedResponse (response : ResponseQuote.t) : Protobuf.Quote.t :=
  {| Protobuf.Quote.key := Some (ResponseQuote.solver response);
     Protobuf.Quote.from := Some (printedSide (ResponseQuote.from response));
     Protobuf.Quote.to := Some (printedSide (ResponseQuote.to response)) |}.

(** Every amount of the response travels in the [int32] field. *)
Definition carriedAmounts (response : ResponseQuote.t) : Prop :=
  Forall (fun token => carried (ResponseToken.amount token))
         (ResponseSide.tokens (ResponseQuote.from response))
  /\ Forall (fun token => carried (ResponseToken.amount token))
            (ResponseSide.tokens (ResponseQuote.to response)).

Definition amountsOf (side : ResponseSide.t) : list (string * number) :=
  map (fun token => (ResponseToken.address token, ResponseToken.amount token))
      (ResponseSide.tokens side).

(** A relay that refuses the subscription until the third attempt. *)
Definition reluctantRelay : Env :=
  {| fetch := fetch Scenario.env;
     Math_random := Math_random Scenario.env;
     subscribeWithUnsubscribe := fun n => (3 <=? n)%nat;
     lightPush_send := lightPush_send Scenario.env;
     Buffer_allocUnsafe := Buffer_allocUnsafe Scenario.env |}.

(** A feed that knows the three tokens of the sample request. *)
Definition mainnetFeed (address : string) : option Quotation.t :=
  if String.eqb address "0xc02aaa39b223fe8d0a0e5c4f27ead9083c756cc2"
  then Scenario.quoted 2000
  else if String.eqb address "0xa0b86991c6218b36c1d19d4a2e9eb0ce3606eb48"
  then Scenario.quoted 1
  else if String.eqb address "0xdac17f958d2ee523a2206206994597c13d831ec7"
  then Scenario.quoted 1
  else None.

Definition mainnet : Env :=
  {| fetch := fun _ => HttpOk mainnetFeed;
     Math_random := Math_random Scenario.env;
     subscribeWithUnsubscribe := subscribeWithUnsubscribe Scenario.env;
     lightPush_send := lightPush_send Scenario.env;
     Buffer_allocUnsafe := fun _ _ => xff |}.

(** A response with amounts that are not integers. *)
Definition fractionalResponse : ResponseQuote.t :=
  {| ResponseQuote.solver := "0x03def";
     ResponseQuote.from :=
       {| ResponseSide.network := "mainnet";
          ResponseSide.tokens :=
            [ {| ResponseToken.address := "0xAAA"; ResponseToken.amount := 1000 |} ] |};
     ResponseQuote.to :=
       {| ResponseSide.network := "base";
          ResponseSide.tokens :=
            [ {| ResponseToken.address := "0xBBB"; ResponseToken.amount := 297 # 2 |};
              {| ResponseToken.address := "0xCCC"; ResponseToken.amount := 3 # 10 |} ] |} |}.

(** The request of the scenario as it arrives when the bucket was left out:
    the payload without its first field. *)
Definition withoutBucket : list byte :=
  skipn 10 (finished Scenario.env Scenario.world
              (UtilsService.encode UtilsService.getRequestType Scenario.request)).

(* ================================================================== *)
(** * Properties *)

(** ** Generic facts on the effect layer *)

Lemma bind_ok {A B} (c : M A) (k : A -> M B) {env w a w'} :
  c env w = (Ok a, w') -> bind c k env w = k a env w'.
Proof. intros H. unfold bind. now rewrite H. Qed.

Lemma bind_threw {A B} (c : M A) (k : A -> M B) {env w e w'} :
  c env w = (Threw e, w') -> bind c k env w = (Threw e, w').
Proof. intros H. unfold bind. now rewrite H. Qed.

Lemma bind_assoc {A B C} (c : M A) (k : A -> M B) (k' : B -> M C) env w :
  bind (bind c k) k' env w = bind c (fun a => bind (k a) k') env w.
Proof. unfold bind. destruct (c env w) as [[a|e] w']; reflexivity. Qed.

Lemma mapM_app {A B} (f : A -> M B) l1 l2 env w :
  mapM f (l1 ++ l2) env w =
  (bs1 <- mapM f l1 ;; bs2 <- mapM f l2 ;; ret (bs1 ++ bs2)) env w.
Proof.
  revert w. induction l1 as [|a l1 IH]; intros w; simpl.
  - unfold bind, ret. destruct (mapM f l2 env w) as [[bs|e] w']; reflexivity.
  - unfold bind, ret in *. destruct (f a env w) as [[b|e] w1]; [|reflexivity].
    rewrite IH.
    destruct (mapM f l1 env w1) as [[bs1|e] w2]; [|reflexivity].
    destruct (mapM f l2 env w2) as [[bs2|e] w3]; reflexivity.
Qed.

(** ** The price lookup *)

Lemma fetchPrice_returns address env w :
  exists found w', UtilsService.fetchPrice address env w = (Ok found, w')
    /\ draws w' = draws w /\ published w' = published w
    /\ subscribed w' = subscribed w /\ lightNodes w' = lightNodes w.
Proof.
  unfold UtilsService.fetchPrice, tryCatch, bind, ask, throw, emit, ret.
  destruct (fetch env (UtilsService.priceUrl address)) as [|st|data]; simpl;
    try (eexists _, _; split; [reflexivity|]; simpl; auto).
  destruct (getProperty data (toLowerCase address)); simpl;
    eexists _, _; (split; [reflexivity|]); simpl; auto.
Qed.

Lemma getTokenPrices_returns addresses env w :
  exists prices w', UtilsService.getTokenPrices addresses env w = (Ok prices, w')
    /\ draws w' = draws w /\ published w' = published w
    /\ subscribed w' = subscribed w /\ lightNodes w' = lightNodes w.
Proof.
  revert w. induction addresses as [|a l IH]; intros w;
    cbn [UtilsService.getTokenPrices].
  - eexists _, _. split; [reflexivity|]. auto.
  - destruct (fetchPrice_returns a env w) as (f & w1 & E1 & D1 & P1 & S1 & L1).
    destruct (IH w1) as (ps & w2 & E2 & D2 & P2 & S2 & L2).
    rewrite (bind_ok _ _ E1), (bind_ok _ _ E2). unfold ret.
    eexists _, _. split; [reflexivity|]. repeat split; congruence.
Qed.

(** ** The pricing arithmetic *)

Lemma falsy_Some_false (p : number) : falsy (Some p) = false <-> ~ p == 0.
Proof.
  unfold falsy. split.
  - intros H. now apply Qeq_bool_neq.
  - intros H. destruct (Qeq_bool p 0) eqn:E; [|reflexivity].
    now apply Qeq_bool_eq in E.
Qed.

Lemma falsy_Some_true (p : number) : falsy (Some p) = true <-> p == 0.
Proof. unfold falsy. apply Qeq_bool_iff. Qed.

Lemma feeOfDraw_range (u : number) :
  0 <= u < 1 ->
  UtilsService.minFee <= UtilsService.feeOfDraw u < UtilsService.maxFee.
Proof.
  unfold UtilsService.feeOfDraw, UtilsService.minFee, UtilsService.maxFee.
  intros [H0 H1]. split; lra.
Qed.

(** What one step of the map does on a token without a usable price. *)
Lemma updateToToken_unpriced feeSource usd prices toToken env w :
  falsy (UtilsService.getPriceForAddress prices (RequestToken.address toToken)) = true ->
  UtilsService.updateToToken feeSource usd prices toToken env w =
  (Ok {| ResponseToken.address := RequestToken.address toToken;
         ResponseToken.amount := 0 |},
   set_logs (cons (Line ConsoleError ("Prezzo non trovato per l'indirizzo "
                      ++ RequestToken.address toToken)%string)) w).
Proof.
  intros H. unfold UtilsService.updateToToken.
  destruct (UtilsService.getPriceForAddress _ _) as [p|]; [rewrite H|]; reflexivity.
Qed.

(** What it does on a priced token, with the class's own fee source. *)
Lemma updateToToken_priced usd prices toToken {p} env w :
  UtilsService.getPriceForAddress prices (RequestToken.address toToken) = Some p ->
  ~ p == 0 ->
  UtilsService.updateToToken UtilsService.getRandomFeePercentage usd prices toToken env w =
  (Ok {| ResponseToken.address := RequestToken.address toToken;
         ResponseToken.amount :=
           usd * RequestToken.weight toToken / 100 / p
           * (1 - UtilsService.feeOfDraw (Math_random env (draws w))) |},
   set_draws S w).
Proof.
  intros H Hp. unfold UtilsService.updateToToken. rewrite H.
  apply falsy_Some_false in Hp. rewrite Hp. reflexivity.
Qed.

Lemma updateToToken_priced_stub fee usd prices toToken {p} env w :
  UtilsService.getPriceForAddress prices (RequestToken.address toToken) = Some p ->
  ~ p == 0 ->
  UtilsService.updateToToken (ret fee) usd prices toToken env w =
  (Ok {| ResponseToken.address := RequestToken.address toToken;
         ResponseToken.amount :=
           usd * RequestToken.weight toToken / 100 / p * (1 - fee) |},
   w).
Proof.
  intros H Hp. unfold UtilsService.updateToToken. rewrite H.
  apply falsy_Some_false in Hp. rewrite Hp. reflexivity.
Qed.

Lemma updateToToken_cases (prices : list Price.t) (toToken : RequestToken.t) :
  falsy (UtilsService.getPriceForAddress prices (RequestToken.address toToken)) = true
  \/ exists p,
       UtilsService.getPriceForAddress prices (RequestToken.address toToken) = Some p
       /\ ~ p == 0.
Proof.
  destruct (UtilsService.getPriceForAddress prices (RequestToken.address toToken))
    as [p|] eqn:E.
  - destruct (falsy (Some p)) eqn:F; [now left|].
    right. exists p. split; [reflexivity|]. now apply falsy_Some_false.
  - now left.
Qed.

Lemma sameOutside_refl w : sameOutside w w.
Proof. repeat split. Qed.

Lemma sameOutside_trans w1 w2 w3 :
  sameOutside w1 w2 -> sameOutside w2 w3 -> sameOutside w1 w3.
Proof. unfold sameOutside. intuition congruence. Qed.

(** Element by element description of the result of the map. *)
Lemma computeUpdatedToTokens_nth toTokens usd prices env w :
  exists out w',
    UtilsService.computeUpdatedToTokens toTokens usd prices env w = (Ok out, w')
    /\ List.length out = List.length toTokens
    /\ (draws w <= draws w')%nat
    /\ sameOutside w w'
    /\ forall i t, nth_error toTokens i = Some t ->
         exists r, nth_error out i = Some r
           /\ ResponseToken.address r = RequestToken.address t
           /\ (falsy (UtilsService.getPriceForAddress prices (RequestToken.address t)) = true ->
               ResponseToken.amount r = 0)
           /\ (forall p,
                 UtilsService.getPriceForAddress prices (RequestToken.address t) = Some p ->
                 ~ p == 0 ->
                 exists k, (draws w <= k < draws w')%nat
                   /\ ResponseToken.amount r =
                      usd * RequestToken.weight t / 100 / p
                      * (1 - UtilsService.feeOfDraw (Math_random env k))).
Proof.
  unfold UtilsService.computeUpdatedToTokens, UtilsService.computeUpdatedToTokensWith.
  revert w. induction toTokens as [|t0 l IH]; intros w; cbn [mapM].
  - exists [], w. repeat split; auto. intros [|i] t H; discriminate.
  - destruct (updateToToken_cases prices t0) as [F|(p & E & Hp)].
    + rewrite (bind_ok _ _ (updateToToken_unpriced _ usd prices t0 env w F)).
      destruct (IH (set_logs (cons (Line ConsoleError ("Prezzo non trovato per l'indirizzo "
                      ++ RequestToken.address t0)%string)) w))
        as (out & w' & E' & L & D & O & N).
      rewrite (bind_ok _ _ E'). unfold ret.
      eexists _, w'. split; [reflexivity|].
      split; [simpl; congruence|]. split; [exact D|]. split; [exact O|].
      intros [|i] t H; simpl in H.
      * injection H as <-. eexists. split; [reflexivity|]. simpl.
        split; [reflexivity|]. split; [reflexivity|].
        intros p E Hp. rewrite E in F. apply falsy_Some_true in F. contradiction.
      * destruct (N i t H) as (r & R1 & R2 & R3 & R4).
        exists r. simpl. repeat split; auto.
    + rewrite (bind_ok _ _ (updateToToken_priced usd prices t0 env w E Hp)).
      destruct (IH (set_draws S w)) as (out & w' & E' & L & D & O & N).
      rewrite (bind_ok _ _ E'). unfold ret. simpl in D.
      eexists _, w'. split; [reflexivity|].
      split; [simpl; congruence|]. split; [lia|]. split; [exact O|].
      intros [|i] t H; simpl in H.
      * injection H as <-. eexists. split; [reflexivity|]. simpl.
        split; [reflexivity|]. split.
        -- intros F. rewrite E in F. apply falsy_Some_true in F. contradiction.
        -- intros p' E2 _. rewrite E in E2. injection E2 as <-.
           exists (draws w). split; [lia|reflexivity].
      * destruct (N i t H) as (r & R1 & R2 & R3 & R4).
        exists r. simpl. split; [exact R1|]. split; [exact R2|]. split; [exact R3|].
        intros p' E2 Hp'. destruct (R4 p' E2 Hp') as (k & K1 & K2).
        exists k. split; [simpl in K1; lia|exact K2].
Qed.

(** The values computed do not depend on what has been logged: two worlds
    with the same number of draws yield the same amounts. *)
Lemma computeUpdatedToTokens_draws toTokens usd prices env w1 w2 :
  draws w1 = draws w2 ->
  exists out w1' w2',
    UtilsService.computeUpdatedToTokens toTokens usd prices env w1 = (Ok out, w1')
    /\ UtilsService.computeUpdatedToTokens toTokens usd prices env w2 = (Ok out, w2')
    /\ draws w1' = draws w2'.
Proof.
  unfold UtilsService.computeUpdatedToTokens, UtilsService.computeUpdatedToTokensWith.
  revert w1 w2. induction toTokens as [|t0 l IH]; intros w1 w2 D; cbn [mapM].
  - exists [], w1, w2. auto.
  - destruct (updateToToken_cases prices t0) as [F|(p & E & Hp)].
    + rewrite !(bind_ok _ _ (updateToToken_unpriced _ usd prices t0 env _ F)).
      match goal with
      | |- context [bind (mapM _ _) _ env ?a] =>
          match goal with
          | |- context [_ /\ bind (mapM _ _) _ env ?b = _ /\ _] =>
              destruct (IH a b D) as (out & w1' & w2' & E1 & E2 & D')
          end
      end.
      rewrite (bind_ok _ _ E1), (bind_ok _ _ E2). unfold ret.
      eexists _, _, _. repeat split; eauto.
    + rewrite !(bind_ok _ _ (updateToToken_priced usd prices t0 env _ E Hp)).
      destruct (IH (set_draws S w1) (set_draws S w2)) as (out & w1' & w2' & E1 & E2 & D');
        [simpl; congruence|].
      rewrite (bind_ok _ _ E1), (bind_ok _ _ E2). unfold ret. rewrite D.
      eexists _, _, _. repeat split; eauto.
Qed.

Lemma computeUpdatedToTokens_logs {toTokens usd prices env w out w'} :
  UtilsService.computeUpdatedToTokens toTokens usd prices env w = (Ok out, w') ->
  exists l, logs w' = l ++ logs w.
Proof.
  unfold UtilsService.computeUpdatedToTokens, UtilsService.computeUpdatedToTokensWith.
  revert w out w'. induction toTokens as [|t0 l IH]; intros w out w'; cbn [mapM].
  - unfold ret. intros [= <- <-]. now exists [].
  - destruct (updateToToken_cases prices t0) as [F|(p & E & Hp)].
    + rewrite (bind_ok _ _ (updateToToken_unpriced _ usd prices t0 env w F)).
      unfold bind at 1.
      destruct (mapM _ l env _) as [[o|e] w1] eqn:E1; [|discriminate].
      unfold ret. intros [= <- <-].
      destruct (IH _ _ _ E1) as (l1 & L1). rewrite L1. simpl.
      eexists (l1 ++ [_]). rewrite <- app_assoc. reflexivity.
    + rewrite (bind_ok _ _ (updateToToken_priced usd prices t0 env w E Hp)).
      unfold bind at 1.
      destruct (mapM _ l env _) as [[o|e] w1] eqn:E1; [|discriminate].
      unfold ret. intros [= <- <-].
      destruct (IH _ _ _ E1) as (l1 & L1). rewrite L1. simpl. now exists l1.
Qed.

(** Claim C5.  A destination token whose address has no price in the price
    list gets the amount [0] exactly, and the miss is only logged on the
    console; the amounts of the tokens before and after it are the ones
    computed for the list without it (an unpriced token draws no fee, so the
    others see the same draws); the map returns normally whatever is
    missing. *)
Theorem missing_destination_price_is_local :
  forall env w pre t post usd prices,
    UtilsService.getPriceForAddress prices (RequestToken.address t) = None ->
    exists out1 out2 w1 w2,
      UtilsService.computeUpdatedToTokens (pre ++ t :: post) usd prices env w
      = (Ok (out1
             ++ {| ResponseToken.address := RequestToken.address t;
                   ResponseToken.amount := 0 |} :: out2), w1)
      /\ UtilsService.computeUpdatedToTokens (pre ++ post) usd prices env w
         = (Ok (out1 ++ out2), w2)
      /\ List.length out1 = List.length pre
      /\ List.length out2 = List.length post
      /\ In (Line ConsoleError ("Prezzo non trovato per l'indirizzo " ++ RequestToken.address t)%string)
            (logs w1)
      /\ draws w1 = draws w2.
Proof.
  intros env w pre t post usd prices H.
  assert (F : falsy (UtilsService.getPriceForAddress prices (RequestToken.address t)) = true)
    by now rewrite H.
  destruct (computeUpdatedToTokens_nth pre usd prices env w)
    as (out1 & wa & E1 & L1 & _ & _ & _).
  pose (wb := set_logs (cons (Line ConsoleError ("Prezzo non trovato per l'indirizzo "
                    ++ RequestToken.address t)%string)) wa).
  destruct (computeUpdatedToTokens_draws post usd prices env wb wa eq_refl)
    as (out2 & w1 & w2 & E2 & E3 & D).
  destruct (computeUpdatedToTokens_nth post usd prices env wa)
    as (out2' & w2' & E3' & L2 & _ & _ & _).
  rewrite E3 in E3'. injection E3' as <- <-.
  destruct (computeUpdatedToTokens_logs E2) as (l & Hl).
  exists out1, out2, w1, w2.
  unfold UtilsService.computeUpdatedToTokens, UtilsService.computeUpdatedToTokensWith in *.
  rewrite !mapM_app.
  rewrite !(bind_ok _ _ E1). cbn [mapM]. rewrite bind_assoc.
  rewrite (bind_ok _ _ (updateToToken_unpriced _ usd prices t env wa F)).
  fold wb. rewrite bind_assoc, (bind_ok _ _ E2), (bind_ok _ _ E3). unfold bind, ret.
  repeat split; auto.
  rewrite Hl. apply in_or_app. right. simpl. now left.
Qed.

(** Claim C9.  For every draw [u] with [0 <= u < 1] the fee
    [u * (maxFee - minFee) + minFee] lies in [[0.001, 0.01]], and that is the
    fee [getRandomFeePercentage] returns; hence, when every draw is in
    [[0, 1)], the amount of a destination token with a known (non-zero)
    price lies between [destQuantity * (1 - 0.01)] and
    [destQuantity * (1 - 0.001)], where
    [destQuantity = sourceValue * weight / 100 / destPrice]: in that order
    when [destQuantity] is not negative, in the other order otherwise. *)
Theorem fee_range_and_amount_bounds :
  (forall u : number, 0 <= u < 1 ->
     (1 # 1000) <= UtilsService.feeOfDraw u <= (1 # 100))
  /\ (forall env w,
        UtilsService.getRandomFeePercentage env w
        = (Ok (UtilsService.feeOfDraw (Math_random env (draws w))), set_draws S w))
  /\ (forall env : Env, (forall n, 0 <= Math_random env n < 1) ->
      forall toTokens usd prices w,
      exists out w',
        UtilsService.computeUpdatedToTokens toTokens usd prices env w = (Ok out, w')
        /\ forall i t p,
             nth_error toTokens i = Some t ->
             UtilsService.getPriceForAddress prices (RequestToken.address t) = Some p ->
             ~ p == 0 ->
             let destQuantity := usd * RequestToken.weight t / 100 / p in
             exists r, nth_error out i = Some r
               /\ between (destQuantity * (1 - (1 # 100)))
                          (destQuantity * (1 - (1 # 1000)))
                          (ResponseToken.amount r)
               /\ (0 <= destQuantity ->
                   destQuantity * (1 - (1 # 100)) <= ResponseToken.amount r
                   /\ ResponseToken.amount r <= destQuantity * (1 - (1 # 1000)))).
Proof.
  split; [|split].
  - intros u Hu. destruct (feeOfDraw_range u Hu) as [H1 H2].
    unfold UtilsService.minFee, UtilsService.maxFee in *. split; lra.
  - reflexivity.
  - intros env Hrand toTokens usd prices w.
    destruct (computeUpdatedToTokens_nth toTokens usd prices env w)
      as (out & w' & E & _ & _ & _ & N).
    exists out, w'. split; [exact E|].
    intros i t p Hi Hp Hnz dq.
    destruct (N i t Hi) as (r & R1 & _ & _ & R4).
    destruct (R4 p Hp Hnz) as (k & _ & Hk).
    exists r. split; [exact R1|].
    fold dq in Hk. rewrite Hk.
    destruct (feeOfDraw_range _ (Hrand k)) as [F1 F2].
    unfold UtilsService.minFee, UtilsService.maxFee in *.
    set (fee := UtilsService.feeOfDraw (Math_random env k)) in *.
    split.
    + unfold between. destruct (Qlt_le_dec dq 0) as [Hneg|Hpos].
      * right. split; nra.
      * left. split; nra.
    + intros Hpos. split; nra.
Qed.

(** ** [processMessage] *)

Lemma processMessageWith_unpriced_source wallet feeSource request env w
      {fromToken rest prices w1} :
  RequestSide.tokens (RequestQuote.from request) = fromToken :: rest ->
  UtilsService.getTokenPrices (UtilsService.extractTokenAddresses request) env w
  = (Ok prices, w1) ->
  falsy (UtilsService.getPriceForAddress prices (RequestToken.address fromToken)) = true ->
  SolverService.processMessageWith wallet feeSource request env w
  = (Ok None,
     set_logs (cons (Line LoggerError ("Price not found for " ++ RequestToken.address fromToken)%string)) w1).
Proof.
  intros Ht Ep F. unfold SolverService.processMessageWith.
  rewrite (bind_ok _ _ Ep), Ht.
  destruct (UtilsService.getPriceForAddress _ _) as [p|]; [rewrite F|]; reflexivity.
Qed.

Lemma processMessageWith_priced_source wallet feeSource request env w
      {fromToken rest prices w1 p} :
  RequestSide.tokens (RequestQuote.from request) = fromToken :: rest ->
  UtilsService.getTokenPrices (UtilsService.extractTokenAddresses request) env w
  = (Ok prices, w1) ->
  UtilsService.getPriceForAddress prices (RequestToken.address fromToken) = Some p ->
  ~ p == 0 ->
  SolverService.processMessageWith wallet feeSource request env w
  = (updatedToTokens <-
       UtilsService.computeUpdatedToTokensWith feeSource
         (RequestSide.tokens (RequestQuote.to request))
         (RequestToken.weight fromToken * p) prices ;;
     ret (Some {| ResponseQuote.solver := HDNodeWallet.publicKey wallet;
                  ResponseQuote.from := echoedFrom request;
                  ResponseQuote.to :=
                    {| ResponseSide.network :=
                         RequestSide.network (RequestQuote.to request);
                       ResponseSide.tokens := updatedToTokens |} |})) env w1.
Proof.
  intros Ht Ep E Hp. unfold SolverService.processMessageWith.
  rewrite (bind_ok _ _ Ep), Ht, E.
  apply falsy_Some_false in Hp. rewrite Hp. rewrite <- Ht. reflexivity.
Qed.

(** Claim C8.  When the price of the source token is known (present and
    not zero, a zero price being treated as missing), the response echoes the
    from-tokens of the request one by one with [amount] equal to [weight],
    and carries the two networks of the request. *)
Theorem response_echoes_source_side :
  forall wallet request env w fromToken rest prices w1 p,
    RequestSide.tokens (RequestQuote.from request) = fromToken :: rest ->
    UtilsService.getTokenPrices (UtilsService.extractTokenAddresses request) env w
    = (Ok prices, w1) ->
    UtilsService.getPriceForAddress prices (RequestToken.address fromToken) = Some p ->
    ~ p == 0 ->
    exists response w2,
      SolverService.processMessage wallet request env w = (Ok (Some response), w2)
      /\ ResponseSide.tokens (ResponseQuote.from response)
         = map (fun token =>
                  {| ResponseToken.address := RequestToken.address token;
                     ResponseToken.amount := RequestToken.weight token |})
               (RequestSide.tokens (RequestQuote.from request))
      /\ ResponseSide.network (ResponseQuote.from response)
         = RequestSide.network (RequestQuote.from request)
      /\ ResponseSide.network (ResponseQuote.to response)
         = RequestSide.network (RequestQuote.to request).
Proof.
  intros wallet request env w fromToken rest prices w1 p Ht Ep E Hp.
  unfold SolverService.processMessage.
  rewrite (processMessageWith_priced_source wallet _ request env w Ht Ep E Hp).
  destruct (computeUpdatedToTokens_nth (RequestSide.tokens (RequestQuote.to request))
              (RequestToken.weight fromToken * p) prices env w1)
    as (out & w2 & E2 & _).
  unfold UtilsService.computeUpdatedToTokens in E2.
  rewrite (bind_ok _ _ E2). unfold ret.
  eexists _, _. split; [reflexivity|]. simpl. auto.
Qed.

(** Claim C10.  A price that is present but equal to [0] is treated like a
    missing one: a destination token priced [0] gets the amount [0], and a
    source token priced [0] makes [processMessage] resolve to [undefined]. *)
Theorem zero_price_is_treated_as_missing :
  (forall toTokens usd prices env w i t p,
      nth_error toTokens i = Some t ->
      UtilsService.getPriceForAddress prices (RequestToken.address t) = Some p ->
      p == 0 ->
      exists out w' r,
        UtilsService.computeUpdatedToTokens toTokens usd prices env w = (Ok out, w')
        /\ nth_error out i = Some r
        /\ r = {| ResponseToken.address := RequestToken.address t;
                  ResponseToken.amount := 0 |})
  /\ (forall wallet request env w fromToken rest prices w1 p,
        RequestSide.tokens (RequestQuote.from request) = fromToken :: rest ->
        UtilsService.getTokenPrices (UtilsService.extractTokenAddresses request) env w
        = (Ok prices, w1) ->
        UtilsService.getPriceForAddress prices (RequestToken.address fromToken) = Some p ->
        p == 0 ->
        exists w2, SolverService.processMessage wallet request env w = (Ok None, w2)).
Proof.
  split.
  - intros toTokens usd prices env w i t p Hi E Hz.
    destruct (computeUpdatedToTokens_nth toTokens usd prices env w)
      as (out & w' & Ec & _ & _ & _ & N).
    destruct (N i t Hi) as (r & R1 & R2 & R3 & _).
    exists out, w', r. split; [exact Ec|]. split; [exact R1|].
    destruct r as [a m]. simpl in *. f_equal; [exact R2|].
    apply R3. rewrite E. now apply falsy_Some_true.
  - intros wallet request env w fromToken rest prices w1 p Ht Ep E Hz.
    eexists. unfold SolverService.processMessage.
    apply (processMessageWith_unpriced_source wallet _ request env w Ht Ep).
    rewrite E. now apply falsy_Some_true.
Qed.

(** When every destination token is priced, the i-th amount uses the i-th
    draw after those already made. *)
Lemma computeUpdatedToTokens_all_priced toTokens usd prices env w :
  (forall t, In t toTokens ->
     exists p, UtilsService.getPriceForAddress prices (RequestToken.address t) = Some p
               /\ ~ p == 0) ->
  exists out w',
    UtilsService.computeUpdatedToTokens toTokens usd prices env w = (Ok out, w')
    /\ forall i t p,
         nth_error toTokens i = Some t ->
         UtilsService.getPriceForAddress prices (RequestToken.address t) = Some p ->
         nth_error out i
         = Some {| ResponseToken.address := RequestToken.address t;
                   ResponseToken.amount :=
                     usd * RequestToken.weight t / 100 / p
                     * (1 - UtilsService.feeOfDraw (Math_random env (draws w + i))) |}.
Proof.
  unfold UtilsService.computeUpdatedToTokens, UtilsService.computeUpdatedToTokensWith.
  revert w. induction toTokens as [|t0 l IH]; intros w Hall; cbn [mapM].
  - exists [], w. split; [reflexivity|]. intros [|i] t p H; discriminate.
  - destruct (Hall t0 (or_introl eq_refl)) as (p0 & E0 & Hp0).
    rewrite (bind_ok _ _ (updateToToken_priced usd prices t0 env w E0 Hp0)).
    destruct (IH (set_draws S w)) as (out & w' & E' & N);
      [intros t Ht; apply Hall; now right|].
    rewrite (bind_ok _ _ E'). unfold ret.
    eexists _, w'. split; [reflexivity|].
    intros [|i] t p H E; simpl in H.
    + injection H as <-. rewrite E0 in E. injection E as <-.
      simpl. now rewrite Nat.add_0_r.
    + simpl. rewrite (N i t p H E). simpl.
      replace (draws w + S i)%nat with (S (draws w + i))%nat by lia. reflexivity.
Qed.

(** Claim C2, amended.  When the source token and every destination token
    have a non-zero price in the price list, the i-th destination amount is
    [((sourceWeight * sourcePrice) * destWeight / 100 / destPrice) * (1 - fee)]
    with [fee] the fee of the i-th draw; in the scenario of the
    specification (1000 of [0xAAA] at price 1, to [0xBBB] at weight 30 and
    price 2 and [0xCCC] at weight 70 and price 5, fee forced to [0]) the
    amounts are 150 and 140, each computed on its own. *)
Theorem destination_amount_formula :
  (forall wallet request env w fromToken rest prices w1 sourcePrice,
      RequestSide.tokens (RequestQuote.from request) = fromToken :: rest ->
      UtilsService.getTokenPrices (UtilsService.extractTokenAddresses request) env w
      = (Ok prices, w1) ->
      UtilsService.getPriceForAddress prices (RequestToken.address fromToken)
      = Some sourcePrice ->
      ~ sourcePrice == 0 ->
      (forall t, In t (RequestSide.tokens (RequestQuote.to request)) ->
         exists p, UtilsService.getPriceForAddress prices (RequestToken.address t) = Some p
                   /\ ~ p == 0) ->
      exists response w2,
        SolverService.processMessage wallet request env w = (Ok (Some response), w2)
        /\ forall i t destPrice,
             nth_error (RequestSide.tokens (RequestQuote.to request)) i = Some t ->
             UtilsService.getPriceForAddress prices (RequestToken.address t)
             = Some destPrice ->
             let fee := UtilsService.feeOfDraw (Math_random env (draws w + i)) in
             nth_error (ResponseSide.tokens (ResponseQuote.to response)) i
             = Some {| ResponseToken.address := RequestToken.address t;
                       ResponseToken.amount :=
                         ((RequestToken.weight fromToken * sourcePrice)
                          * RequestToken.weight t / 100 / destPrice) * (1 - fee) |})
  /\ (exists response w2,
        SolverService.processMessageWith Scenario.wallet (ret 0) Scenario.request
          Scenario.env Scenario.world
        = (Ok (Some response), w2)
        /\ map (fun r => (ResponseToken.address r, Qred (ResponseToken.amount r)))
               (ResponseSide.tokens (ResponseQuote.to response))
           = [("0xBBB"%string, 150); ("0xCCC"%string, 140)]).
Proof.
  split.
  - intros wallet request env w fromToken rest prices w1 ps Ht Ep E Hp Hall.
    unfold SolverService.processMessage.
    rewrite (processMessageWith_priced_source wallet _ request env w Ht Ep E Hp).
    destruct (computeUpdatedToTokens_all_priced
                (RequestSide.tokens (RequestQuote.to request))
                (RequestToken.weight fromToken * ps) prices env w1 Hall)
      as (out & w2 & E2 & N).
    unfold UtilsService.computeUpdatedToTokens in E2.
    rewrite (bind_ok _ _ E2). unfold ret.
    eexists _, _. split; [reflexivity|].
    intros i t p Hi Et. simpl.
    destruct (getTokenPrices_returns (UtilsService.extractTokenAddresses request) env w)
      as (ps' & w1' & Ep' & D & _).
    rewrite Ep in Ep'. injection Ep' as <- <-.
    rewrite (N i t p Hi Et). now rewrite D.
  - eexists _, _. split; [vm_compute; reflexivity|]. vm_compute. reflexivity.
Qed.

(** Counterexample to claim C2 as stated: in the scenario the amounts are not
    150 and 70 (the second one is [1000 * 1 * 70 / 100 / 5 = 140]). *)
Lemma scenario_amounts_are_not_150_and_70 :
  ~ (exists response w2,
       SolverService.processMessageWith Scenario.wallet (ret 0) Scenario.request
         Scenario.env Scenario.world
       = (Ok (Some response), w2)
       /\ Forall2 (fun r expected =>
                     ResponseToken.address r = fst expected
                     /\ ResponseToken.amount r == snd expected)
                  (ResponseSide.tokens (ResponseQuote.to response))
                  [("0xBBB"%string, 150); ("0xCCC"%string, 70)]).
Proof.
  intros (response & w2 & E & F).
  vm_compute in E. injection E as <- <-.
  simpl in F. inversion F as [|? ? ? ? _ F1]; subst.
  inversion F1 as [|? ? ? ? [_ H] _]; subst.
  simpl in H. unfold Qeq in H. simpl in H. discriminate.
Qed.

Section WireFacts.
Import Protobuf.
Local Open Scope Z_scope.

(** ** protobufjs: bytes and bits *)

Lemma byteZ_range (b : byte) : 0 <= byteZ b < 256.
Proof.
  unfold byteZ. pose proof (Byte.to_N_bounded b). lia.
Qed.

Lemma byteZ_zByte (z : Z) : 0 <= z < 256 -> byteZ (zByte z) = z.
Proof.
  intros H. unfold byteZ, zByte.
  rewrite Z.mod_small by exact H.
  destruct (Byte.of_N (Z.to_N z)) as [b|] eqn:E.
  - apply Byte.to_of_N in E. rewrite E. lia.
  - exfalso. pose proof (Byte.to_of_N_option_map (Z.to_N z)) as P.
    rewrite E in P. simpl in P.
    destruct (N.leb_spec (Z.to_N z) 255) as [L|L]; [discriminate|lia].
Qed.

Lemma lor_shiftl_add (a b n : Z) :
  0 <= n -> 0 <= a < 2 ^ n -> Z.lor a (Z.shiftl b n) = a + b * 2 ^ n.
Proof.
  intros Hn Ha.
  rewrite <- Z.lxor_lor, <- Z.add_nocarry_lxor, Z.shiftl_mul_pow2; auto.
  all: apply Z.bits_inj'; intros i Hi; rewrite Z.land_spec, Z.bits_0;
    destruct (Z.lt_ge_cases i n) as [L|L].
  all: try (rewrite (Z.shiftl_spec_low b n i L); apply andb_false_r).
  all: assert (Z.testbit a i = false) as ->; [|reflexivity].
  all: destruct (Z.eq_dec a 0) as [->|Hnz]; [apply Z.bits_0|].
  all: apply Z.bits_above_log2; [lia|].
  all: apply Z.log2_lt_pow2; try lia.
  all: apply Z.lt_le_trans with (2 ^ n); [lia|apply Z.pow_le_mono_r; lia].
Qed.

Lemma land_low (x n : Z) : 0 <= n -> Z.land x (2 ^ n - 1) = x mod 2 ^ n.
Proof.
  intros Hn. rewrite <- Z.land_ones by exact Hn. f_equal.
  rewrite Z.ones_equiv. lia.
Qed.

(** A byte with the continuation bit set, as the writer builds it. *)
Lemma continuation_byte (v : Z) :
  0 <= v -> byteZ (zByte (Z.lor (Z.land v 127) 128)) = v mod 128 + 128.
Proof.
  intros Hv.
  change 127 with (2 ^ 7 - 1). rewrite land_low by lia.
  change 128 with (Z.shiftl 1 7) at 1. rewrite lor_shiftl_add.
  - rewrite byteZ_zByte; [reflexivity|].
    pose proof (Z.mod_pos_bound v (2 ^ 7)). lia.
  - lia.
  - apply Z.mod_pos_bound. lia.
Qed.

Lemma writeVarint_step (fuel : nat) (val : Z) :
  writeVarint (S fuel) val =
  if 127 <? val
  then zByte (Z.lor (Z.land val 127) 128) :: writeVarint fuel (Z.shiftr val 7)
  else [zByte val].
Proof. reflexivity. Qed.

Lemma land_continuation_127 (x : Z) :
  0 <= x < 128 -> Z.land (x + 128) 127 = x.
Proof.
  intros H. change 127 with (2 ^ 7 - 1). rewrite land_low by lia.
  change (2 ^ 7) with 128. Z.div_mod_to_equations. lia.
Qed.

Lemma land_continuation_15 (x : Z) :
  0 <= x < 128 -> Z.land (x + 128) 15 = x mod 16.
Proof.
  intros H. change 15 with (2 ^ 4 - 1). rewrite land_low by lia.
  change (2 ^ 4) with 16. Z.div_mod_to_equations. lia.
Qed.

Lemma land_small_127 (x : Z) : 0 <= x < 128 -> Z.land x 127 = x.
Proof.
  intros H. change 127 with (2 ^ 7 - 1). rewrite land_low by lia.
  apply Z.mod_small. lia.
Qed.

Lemma land_small_15 (x : Z) : 0 <= x < 16 -> Z.land x 15 = x.
Proof.
  intros H. change 15 with (2 ^ 4 - 1). rewrite land_low by lia.
  apply Z.mod_small. lia.
Qed.

Lemma shiftr7 (v : Z) : Z.shiftr v 7 = v / 128.
Proof. now rewrite Z.shiftr_div_pow2 by lia. Qed.

(** What the reader sees of a byte the writer produced. *)
Lemma read_continuation (v : Z) :
  0 <= v ->
  let b := zByte (Z.lor (Z.land v 127) 128) in
  (byteZ b <? 128) = false
  /\ Z.land (byteZ b) 127 = v mod 128
  /\ Z.land (byteZ b) 15 = v mod 16.
Proof.
  intros Hv b. unfold b. rewrite continuation_byte by exact Hv.
  pose proof (Z.mod_pos_bound v 128 ltac:(lia)) as B.
  split; [apply Z.ltb_ge; lia|]. split.
  - now apply land_continuation_127.
  - rewrite land_continuation_15 by exact B. Z.div_mod_to_equations. lia.
Qed.

Lemma read_last (v : Z) :
  0 <= v <= 127 ->
  (byteZ (zByte v) <? 128) = true
  /\ Z.land (byteZ (zByte v)) 127 = v
  /\ Z.land (byteZ (zByte v)) 15 = v mod 16.
Proof.
  intros Hv. rewrite byteZ_zByte by lia.
  split; [apply Z.ltb_lt; lia|]. split.
  - apply land_small_127. lia.
  - change 15 with (2 ^ 4 - 1). rewrite land_low by lia. reflexivity.
Qed.

Ltac varint_step Hcmp Hlt Hlo7 Hlo4 :=
  rewrite writeVarint_step;
  match goal with
  | |- context [127 <? ?x] =>
      destruct (Z.ltb_spec 127 x) as [Hcmp|Hcmp];
      [ destruct (read_continuation x ltac:(Z.div_mod_to_equations; lia))
          as (Hlt & Hlo7 & Hlo4)
      | destruct (read_last x ltac:(Z.div_mod_to_equations; lia))
          as (Hlt & Hlo7 & Hlo4) ];
      cbn [app readUint32]; rewrite Hlt; try rewrite Hlo7
  end.

Ltac pow_norm :=
  change (2 ^ 7) with 128; change (2 ^ 14) with 16384;
  change (2 ^ 21) with 2097152; change (2 ^ 28) with 268435456.

Ltac lor_to_add :=
  repeat match goal with
  | |- context [Z.lor ?a (Z.shiftl ?b ?n)] =>
      lazymatch a with
      | context [Z.lor] => fail
      | _ => rewrite (lor_shiftl_add a b n)
               by (pow_norm; try lia; Z.div_mod_to_equations; lia)
      end
  end.

Ltac varint_value :=
  lor_to_add; pow_norm; do 2 f_equal; Z.div_mod_to_equations; lia.

Lemma readUint32_writeVarint5 (v : Z) (rest : list byte) :
  0 <= v < 2 ^ 32 ->
  readUint32 (writeVarint 5 v ++ rest) = Ok (v, rest).
Proof.
  intros Hv. change (2 ^ 32) with 4294967296 in Hv.
  varint_step Hc0 Hl0 Hm0 Hn0; [|reflexivity].
  rewrite shiftr7.
  varint_step Hc1 Hl1 Hm1 Hn1; [|varint_value].
  rewrite shiftr7.
  varint_step Hc2 Hl2 Hm2 Hn2; [|varint_value].
  rewrite shiftr7.
  varint_step Hc3 Hl3 Hm3 Hn3; [|varint_value].
  rewrite shiftr7.
  varint_step Hc4 Hl4 Hm4 Hn4; [exfalso; Z.div_mod_to_equations; lia|].
  rewrite Hn4. varint_value.
Qed.

Lemma writeVarint5_five_bytes (x : Z) :
  2 ^ 28 <= x < 2 ^ 35 ->
  exists b0 b1 b2 b3 b4, writeVarint 5 x = [b0; b1; b2; b3; b4].
Proof.
  intros Hx. change (2 ^ 28) with 268435456 in Hx.
  change (2 ^ 35) with 34359738368 in Hx.
  rewrite writeVarint_step.
  destruct (Z.ltb_spec 127 x); [|lia]. rewrite shiftr7, writeVarint_step.
  destruct (Z.ltb_spec 127 (x / 128)); [|Z.div_mod_to_equations; lia].
  rewrite shiftr7, writeVarint_step.
  destruct (Z.ltb_spec 127 (x / 128 / 128)); [|Z.div_mod_to_equations; lia].
  rewrite shiftr7, writeVarint_step.
  destruct (Z.ltb_spec 127 (x / 128 / 128 / 128)); [|Z.div_mod_to_equations; lia].
  rewrite shiftr7, writeVarint_step.
  destruct (Z.ltb_spec 127 (x / 128 / 128 / 128 / 128));
    [Z.div_mod_to_equations; lia|].
  eexists _, _, _, _, _. reflexivity.
Qed.

(** A negative [int32] travels as ten bytes; the reader keeps the low 32
    bits and steps over the rest. *)
Lemma readUint32_writeVarint10 (v : Z) (rest : list byte) :
  2 ^ 63 <= v < 2 ^ 64 ->
  readUint32 (writeVarint 10 v ++ rest) = Ok (v mod 2 ^ 32, rest).
Proof.
  intros Hv. change (2 ^ 63) with 9223372036854775808 in Hv.
  change (2 ^ 64) with 18446744073709551616 in Hv.
  change (2 ^ 32) with 4294967296.
  varint_step Hc0 Hl0 Hm0 Hn0; [|lia].
  rewrite shiftr7.
  varint_step Hc1 Hl1 Hm1 Hn1; [|exfalso; Z.div_mod_to_equations; lia].
  rewrite shiftr7.
  varint_step Hc2 Hl2 Hm2 Hn2; [|exfalso; Z.div_mod_to_equations; lia].
  rewrite shiftr7.
  varint_step Hc3 Hl3 Hm3 Hn3; [|exfalso; Z.div_mod_to_equations; lia].
  rewrite shiftr7.
  varint_step Hc4 Hl4 Hm4 Hn4; [|exfalso; Z.div_mod_to_equations; lia].
  rewrite Hn4, shiftr7.
  destruct (writeVarint5_five_bytes (v / 128 / 128 / 128 / 128 / 128))
    as (b5 & b6 & b7 & b8 & b9 & E).
  { change (2 ^ 28) with 268435456. change (2 ^ 35) with 34359738368.
    Z.div_mod_to_equations. lia. }
  rewrite E. cbn [app List.length Nat.ltb Nat.leb skipn].
  varint_value.
Qed.

(** ** protobufjs: fields *)

Lemma truncate_inject_Z (n : Z) : truncate (inject_Z n) = n.
Proof. unfold truncate. simpl. apply Z.quot_1_r. Qed.

Lemma readUint32_Writer_uint32 (n : Z) (rest : list byte) :
  0 <= n < 2 ^ 32 ->
  readUint32 (Writer_uint32 (inject_Z n) ++ rest) = Ok (n, rest).
Proof.
  intros H. unfold Writer_uint32, ToUint32.
  rewrite truncate_inject_Z, Z.mod_small by exact H.
  now apply readUint32_writeVarint5.
Qed.

Lemma length_list_byte_of_string (s : string) :
  List.length (list_byte_of_string s) = String.length s.
Proof.
  unfold list_byte_of_string. rewrite length_map.
  induction s as [|c s IH]; simpl; congruence.
Qed.

Lemma firstn_exact {A} (l1 l2 : list A) : firstn (List.length l1) (l1 ++ l2) = l1.
Proof. induction l1; simpl; congruence. Qed.

Lemma skipn_exact {A} (l1 l2 : list A) : skipn (List.length l1) (l1 ++ l2) = l2.
Proof. induction l1; simpl; congruence. Qed.

Lemma readString_Writer_string (s : string) (rest : list byte) :
  Z.of_nat (String.length s) < 2 ^ 32 ->
  readString (Writer_string s ++ rest) = Ok (s, rest).
Proof.
  intros H. unfold readString, Writer_string. rewrite <- app_assoc.
  rewrite readUint32_Writer_uint32 by lia.
  rewrite length_app, length_list_byte_of_string.
  destruct (Z.ltb_spec (Z.of_nat (String.length s + List.length rest))
                       (Z.of_nat (String.length s))) as [L|L]; [lia|].
  rewrite Nat2Z.id, <- length_list_byte_of_string.
  now rewrite firstn_exact, skipn_exact, string_of_list_byte_of_string.
Qed.

(** The length prefix of a nested message. *)
Lemma readUint32_delimited (body rest : list byte) :
  Z.of_nat (List.length body) < 2 ^ 32 ->
  readUint32 (delimited body ++ rest) = Ok (Z.of_nat (List.length body), body ++ rest).
Proof.
  intros H. unfold delimited. rewrite <- app_assoc.
  apply readUint32_Writer_uint32. lia.
Qed.

Lemma truncate_sign (x : number) :
  (Qle_bool 0 x = true -> 0 <= truncate x)
  /\ (Qle_bool 0 x = false -> truncate x <= 0).
Proof.
  unfold truncate, Qle_bool. destruct x as [n d]. simpl.
  rewrite Z.mul_1_r. split; intros H.
  - apply Z.leb_le in H. apply Z.quot_pos; lia.
  - apply Z.leb_gt in H.
    rewrite <- (Z.opp_involutive n), Z.quot_opp_l by lia.
    pose proof (Z.quot_pos (- n) (Z.pos d)). lia.
Qed.

Lemma ToInt32_small (z : Z) : - 2 ^ 31 <= z < 2 ^ 31 -> ToInt32 z = z.
Proof.
  intros H. unfold ToInt32. change (2 ^ 31) with 2147483648 in *.
  change (2 ^ 32) with 4294967296. Z.div_mod_to_equations. lia.
Qed.

Lemma readInt32_int32Bytes (x : number) (rest : list byte) :
  - 2 ^ 31 <= truncate x < 2 ^ 31 ->
  readInt32 (int32Bytes x ++ rest) = Ok (truncate x, rest).
Proof.
  intros H. unfold readInt32, int32Bytes.
  destruct (truncate_sign x) as [Hpos Hneg].
  change (2 ^ 31) with 2147483648 in H.
  destruct (Qle_bool 0 x).
  - specialize (Hpos eq_refl). unfold Writer_uint32, ToUint32.
    rewrite Z.mod_small by (change (2 ^ 32) with 4294967296; lia).
    rewrite readUint32_writeVarint5 by (change (2 ^ 32) with 4294967296; lia).
    rewrite ToInt32_small; [reflexivity|change (2 ^ 31) with 2147483648; lia].
  - specialize (Hneg eq_refl).
    destruct (Z.eq_dec (truncate x) 0) as [E|E].
    + rewrite E. reflexivity.
    + rewrite readUint32_writeVarint10.
      * do 2 f_equal. unfold ToInt32.
        change (2 ^ 31) with 2147483648. change (2 ^ 32) with 4294967296.
        change (2 ^ 64) with 18446744073709551616.
        Z.div_mod_to_equations. lia.
      * change (2 ^ 63) with 9223372036854775808.
        change (2 ^ 64) with 18446744073709551616.
        Z.div_mod_to_equations. lia.
Qed.

Lemma tag_1_2 : tag 1 2 = [x0a]. Proof. reflexivity. Qed.
Lemma tag_2_0 : tag 2 0 = [x10]. Proof. reflexivity. Qed.
Lemma tag_2_2 : tag 2 2 = [x12]. Proof. reflexivity. Qed.
Lemma tag_3_2 : tag 3 2 = [x1a]. Proof. reflexivity. Qed.

Lemma readUint32_tag_1_2 rest : readUint32 (tag 1 2 ++ rest) = Ok (10, rest).
Proof. apply (readUint32_Writer_uint32 10). lia. Qed.
Lemma readUint32_tag_2_0 rest : readUint32 (tag 2 0 ++ rest) = Ok (16, rest).
Proof. apply (readUint32_Writer_uint32 16). lia. Qed.
Lemma readUint32_tag_2_2 rest : readUint32 (tag 2 2 ++ rest) = Ok (18, rest).
Proof. apply (readUint32_Writer_uint32 18). lia. Qed.
Lemma readUint32_tag_3_2 rest : readUint32 (tag 3 2 ++ rest) = Ok (26, rest).
Proof. apply (readUint32_Writer_uint32 26). lia. Qed.

Lemma length_tag_app id wt (l : list byte) :
  (List.length l < List.length (tag id wt ++ l))%nat.
Proof.
  rewrite length_app. unfold tag, Writer_uint32.
  generalize (ToUint32 (inject_Z (Z.lor (Z.shiftl id 3) wt))). intros v.
  rewrite writeVarint_step. destruct (127 <? v); cbn [List.length]; lia.
Qed.

(** ** protobufjs: the decode loops on what encode wrote *)

Lemma decodeTokenLoop_step fuel stop m buf :
  decodeTokenLoop (S fuel) stop m buf =
  if Z.of_nat (List.length buf) <=? stop then Ok (m, buf) else
  match readUint32 buf with
  | Threw e => Threw e
  | Ok (t, buf) =>
      match Z.shiftr t 3 with
      | 1 =>
          match readString buf with
          | Threw e => Threw e
          | Ok (s, buf) =>
              decodeTokenLoop fuel stop
                {| Token.address := Some s; Token.value := Token.value m |} buf
          end
      | 2 =>
          match readInt32 buf with
          | Threw e => Threw e
          | Ok (v, buf) =>
              decodeTokenLoop fuel stop
                {| Token.address := Token.address m; Token.value := Some v |} buf
          end
      | _ =>
          match skipType (Z.land t 7) buf with
          | Threw e => Threw e
          | Ok buf => decodeTokenLoop fuel stop m buf
          end
      end
  end.
Proof. reflexivity. Qed.

Lemma decodeTokenLoop_stop fuel stop m buf :
  Z.of_nat (List.length buf) <= stop ->
  decodeTokenLoop fuel stop m buf = Ok (m, buf).
Proof.
  intros H. apply Z.leb_le in H. destruct fuel; simpl; now rewrite H.
Qed.

Ltac more_bytes :=
  match goal with
  | |- context [Z.of_nat (List.length (tag ?i ?w ++ ?l)) <=? ?stop] =>
      let L := fresh "L" in
      destruct (Z.leb_spec (Z.of_nat (List.length (tag i w ++ l))) stop) as [L|_];
      [ exfalso; pose proof (length_tag_app i w l);
        repeat rewrite length_app in *; lia | ]
  end.

Lemma decodeTokenLoop_tokenBytes fuel m address value rest :
  (2 <= fuel)%nat -> tokenFits address value ->
  decodeTokenLoop fuel (Z.of_nat (List.length rest)) m
    (tokenBytes address value ++ rest)
  = Ok (wireToken address value, rest).
Proof.
  intros Hf [Ha Hv]. destruct fuel as [|[|fuel]]; try lia.
  unfold tokenBytes. rewrite <- !app_assoc.
  rewrite decodeTokenLoop_step. more_bytes.
  rewrite readUint32_tag_1_2. change (Z.shiftr 10 3) with 1.
  rewrite readString_Writer_string by exact Ha.
  rewrite decodeTokenLoop_step. more_bytes.
  rewrite readUint32_tag_2_0. change (Z.shiftr 16 3) with 2.
  rewrite readInt32_int32Bytes by exact Hv.
  apply decodeTokenLoop_stop. lia.
Qed.

Lemma decodeToken_tokenBytes address value rest :
  tokenFits address value ->
  decodeToken (Some (Z.of_nat (List.length (tokenBytes address value))))
    (tokenBytes address value ++ rest)
  = Ok (wireToken address value, rest).
Proof.
  intros H. unfold decodeToken, stopAfter.
  replace (Z.of_nat (List.length (tokenBytes address value ++ rest))
           - Z.of_nat (List.length (tokenBytes address value)))
    with (Z.of_nat (List.length rest)) by (rewrite length_app; lia).
  apply decodeTokenLoop_tokenBytes; [|exact H].
  rewrite length_app. unfold tokenBytes. rewrite !length_app.
  pose proof (length_tag_app 1 2 []). pose proof (length_tag_app 2 0 []).
  rewrite app_nil_r in *. simpl in *. lia.
Qed.

Lemma decodeSideLoop_step fuel stop m buf :
  decodeSideLoop (S fuel) stop m buf =
  if Z.of_nat (List.length buf) <=? stop then Ok (m, buf) else
  match readUint32 buf with
  | Threw e => Threw e
  | Ok (t, buf) =>
      match Z.shiftr t 3 with
      | 1 =>
          match readString buf with
          | Threw e => Threw e
          | Ok (s, buf) =>
              decodeSideLoop fuel stop
                {| SideMessage.network := Some s;
                   SideMessage.tokens := SideMessage.tokens m |} buf
          end
      | 2 =>
          match readUint32 buf with
          | Threw e => Threw e
          | Ok (l, buf) =>
              match decodeToken (Some l) buf with
              | Threw e => Threw e
              | Ok (token, buf) =>
                  decodeSideLoop fuel stop
                    {| SideMessage.network := SideMessage.network m;
                       SideMessage.tokens := SideMessage.tokens m ++ [token] |} buf
              end
          end
      | _ =>
          match skipType (Z.land t 7) buf with
          | Threw e => Threw e
          | Ok buf => decodeSideLoop fuel stop m buf
          end
      end
  end.
Proof. reflexivity. Qed.

Lemma decodeSideLoop_stop fuel stop m buf :
  Z.of_nat (List.length buf) <= stop ->
  decodeSideLoop fuel stop m buf = Ok (m, buf).
Proof.
  intros H. apply Z.leb_le in H. destruct fuel; simpl; now rewrite H.
Qed.

Lemma decodeSideLoop_tokens tokens :
  forall fuel m rest,
    (List.length tokens <= fuel)%nat ->
    Forall framedFits tokens ->
    decodeSideLoop fuel (Z.of_nat (List.length rest)) m
      (framed (tokensBytes tokens) ++ rest)
    = Ok ({| SideMessage.network := SideMessage.network m;
             SideMessage.tokens := SideMessage.tokens m ++ wireTokens tokens |},
          rest).
Proof.
  induction tokens as [|[a v] tokens IH]; intros fuel m rest Hf Hall.
  - cbn [tokensBytes framed map flat_map app wireTokens].
    rewrite decodeSideLoop_stop by lia.
    destruct m. cbn. now rewrite app_nil_r.
  - destruct fuel as [|fuel]; [simpl in Hf; lia|].
    inversion Hall as [|? ? [Hfit Hlen] Hall']; subst. cbn [fst snd] in *.
    cbn [tokensBytes framed map flat_map wireTokens fst snd].
    fold (tokensBytes tokens). fold (framed (tokensBytes tokens)).
    fold (wireTokens tokens).
    rewrite <- !app_assoc.
    rewrite decodeSideLoop_step. more_bytes.
    rewrite readUint32_tag_2_2. change (Z.shiftr 18 3) with 2.
    rewrite readUint32_delimited by exact Hlen.
    rewrite decodeToken_tokenBytes by exact Hfit.
    rewrite IH by (simpl in Hf; auto; lia).
    cbn [SideMessage.network SideMessage.tokens].
    now rewrite <- app_assoc.
Qed.

Lemma length_framed_ge (tokens : list (list byte)) :
  (List.length tokens <= List.length (framed tokens))%nat.
Proof.
  induction tokens as [|t tokens IH]; [simpl; lia|].
  cbn [framed flat_map]. fold (framed tokens).
  rewrite <- app_assoc.
  pose proof (length_tag_app 2 2 (delimited t ++ framed tokens)) as H.
  rewrite (length_app (delimited t)) in H. cbn [List.length]. lia.
Qed.

Lemma decodeSide_sideBytes network tokens rest :
  sideFits network tokens ->
  decodeSide (Some (Z.of_nat (List.length (sideBytes network (tokensBytes tokens)))))
    (sideBytes network (tokensBytes tokens) ++ rest)
  = Ok (wireSide network tokens, rest).
Proof.
  intros [Hn Hall]. unfold decodeSide, stopAfter.
  replace (Z.of_nat (List.length (sideBytes network (tokensBytes tokens) ++ rest))
           - Z.of_nat (List.length (sideBytes network (tokensBytes tokens))))
    with (Z.of_nat (List.length rest)) by (rewrite length_app; lia).
  unfold sideBytes. fold (framed (tokensBytes tokens)).
  rewrite <- !app_assoc.
  rewrite decodeSideLoop_step. more_bytes.
  rewrite readUint32_tag_1_2. change (Z.shiftr 10 3) with 1.
  rewrite readString_Writer_string by exact Hn.
  rewrite decodeSideLoop_tokens; [reflexivity| |exact Hall].
  rewrite !length_app.
  pose proof (length_framed_ge (tokensBytes tokens)) as H.
  unfold tokensBytes in H at 1. rewrite length_map in H. lia.
Qed.

Lemma decodeQuoteLoop_step fuel stop m buf :
  decodeQuoteLoop (S fuel) stop m buf =
  if Z.of_nat (List.length buf) <=? stop then Ok (m, buf) else
  match readUint32 buf with
  | Threw e => Threw e
  | Ok (t, buf) =>
      match Z.shiftr t 3 with
      | 1 =>
          match readString buf with
          | Threw e => Threw e
          | Ok (s, buf) =>
              decodeQuoteLoop fuel stop
                {| QuoteMessage.key := Some s;
                   QuoteMessage.from := QuoteMessage.from m;
                   QuoteMessage.to := QuoteMessage.to m |} buf
          end
      | 2 =>
          match readUint32 buf with
          | Threw e => Threw e
          | Ok (l, buf) =>
              match decodeSide (Some l) buf with
              | Threw e => Threw e
              | Ok (side, buf) =>
                  decodeQuoteLoop fuel stop
                    {| QuoteMessage.key := QuoteMessage.key m;
                       QuoteMessage.from := Some side;
                       QuoteMessage.to := QuoteMessage.to m |} buf
              end
          end
      | 3 =>
          match readUint32 buf with
          | Threw e => Threw e
          | Ok (l, buf) =>
              match decodeSide (Some l) buf with
              | Threw e => Threw e
              | Ok (side, buf) =>
                  decodeQuoteLoop fuel stop
                    {| QuoteMessage.key := QuoteMessage.key m;
                       QuoteMessage.from := QuoteMessage.from m;
                       QuoteMessage.to := Some side |} buf
              end
          end
      | _ =>
          match skipType (Z.land t 7) buf with
          | Threw e => Threw e
          | Ok buf => decodeQuoteLoop fuel stop m buf
          end
      end
  end.
Proof. reflexivity. Qed.

Lemma decodeQuoteLoop_stop fuel stop m buf :
  Z.of_nat (List.length buf) <= stop ->
  decodeQuoteLoop fuel stop m buf = Ok (m, buf).
Proof.
  intros H. apply Z.leb_le in H. destruct fuel; simpl; now rewrite H.
Qed.

Lemma decodeQuote_quoteBytes key fromNetwork fromTokens toNetwork toTokens :
  Z.of_nat (String.length key) < 2 ^ 32 ->
  sideFits fromNetwork fromTokens ->
  sideFits toNetwork toTokens ->
  Z.of_nat (List.length (sideBytes fromNetwork (tokensBytes fromTokens))) < 2 ^ 32 ->
  Z.of_nat (List.length (sideBytes toNetwork (tokensBytes toTokens))) < 2 ^ 32 ->
  decodeQuote
    (quoteBytes key (sideBytes fromNetwork (tokensBytes fromTokens))
                     (sideBytes toNetwork (tokensBytes toTokens)))
  = Ok (wireQuote key fromNetwork fromTokens toNetwork toTokens).
Proof.
  intros Hk Hf Ht Lf Lt. unfold decodeQuote, stopAfter.
  set (payload := quoteBytes _ _ _).
  assert (Hlen : (3 <= S (List.length payload))%nat).
  { unfold payload, quoteBytes. rewrite !length_app.
    pose proof (length_tag_app 1 2 []). pose proof (length_tag_app 2 2 []).
    rewrite app_nil_r in *. cbn [List.length] in *. lia. }
  destruct (S (List.length payload)) as [|[|[|fuel]]]; try lia.
  unfold payload, quoteBytes.
  rewrite decodeQuoteLoop_step. more_bytes.
  rewrite readUint32_tag_1_2. change (Z.shiftr 10 3) with 1.
  rewrite readString_Writer_string by exact Hk.
  rewrite decodeQuoteLoop_step. more_bytes.
  rewrite readUint32_tag_2_2. change (Z.shiftr 18 3) with 2.
  rewrite readUint32_delimited by exact Lf.
  rewrite decodeSide_sideBytes by exact Hf.
  rewrite decodeQuoteLoop_step. more_bytes.
  rewrite readUint32_tag_3_2. change (Z.shiftr 26 3) with 3.
  rewrite <- (app_nil_r (delimited _)).
  rewrite readUint32_delimited by exact Lt.
  rewrite decodeSide_sideBytes by exact Ht.
  rewrite decodeQuoteLoop_stop by (simpl; lia).
  reflexivity.
Qed.

(** *** Everything fits once the whole payload is shorter than [2^32] bytes
        and the values are [int32]s *)

Lemma length_Writer_string (s : string) :
  (String.length s <= List.length (Writer_string s))%nat.
Proof.
  unfold Writer_string. rewrite length_app, length_list_byte_of_string. lia.
Qed.

Lemma length_delimited (body : list byte) :
  (List.length body <= List.length (delimited body))%nat.
Proof. unfold delimited. rewrite length_app. lia. Qed.

Lemma framedFits_of_bound (tokens : list (string * number)) :
  Forall (fun token => int32 (snd token)) tokens ->
  Z.of_nat (List.length (framed (tokensBytes tokens))) < 2 ^ 32 ->
  Forall framedFits tokens.
Proof.
  induction tokens as [|[a v] tokens IH]; intros Hv Hb; constructor.
  - inversion Hv as [|? ? Hv1 _]; subst. cbn [snd] in Hv1.
    cbn [tokensBytes map framed flat_map fst snd] in Hb.
    rewrite !length_app in Hb.
    pose proof (length_delimited (tokenBytes a v)) as L1.
    assert (L2 : (String.length a <= List.length (tokenBytes a v))%nat).
    { unfold tokenBytes. rewrite !length_app.
      pose proof (length_Writer_string a). lia. }
    unfold framedFits, tokenFits. cbn [fst snd]. repeat split; try apply Hv1; lia.
  - inversion Hv; subst. apply IH; [assumption|].
    cbn [tokensBytes map framed flat_map] in Hb.
    fold (tokensBytes tokens) in Hb. fold (framed (tokensBytes tokens)) in Hb.
    rewrite !length_app in Hb. lia.
Qed.

Lemma sideFits_of_bound network tokens :
  Forall (fun token => int32 (snd token)) tokens ->
  Z.of_nat (List.length (sideBytes network (tokensBytes tokens))) < 2 ^ 32 ->
  sideFits network tokens.
Proof.
  intros Hv Hb. unfold sideBytes in Hb. fold (framed (tokensBytes tokens)) in Hb.
  rewrite !length_app in Hb. pose proof (length_Writer_string network).
  split; [lia|]. apply framedFits_of_bound; [exact Hv|lia].
Qed.

Lemma decodeQuote_quoteBytes_bounded key fromNetwork fromTokens toNetwork toTokens :
  Forall (fun token => int32 (snd token)) fromTokens ->
  Forall (fun token => int32 (snd token)) toTokens ->
  Z.of_nat (List.length
    (quoteBytes key (sideBytes fromNetwork (tokensBytes fromTokens))
                     (sideBytes toNetwork (tokensBytes toTokens)))) < 2 ^ 32 ->
  decodeQuote
    (quoteBytes key (sideBytes fromNetwork (tokensBytes fromTokens))
                     (sideBytes toNetwork (tokensBytes toTokens)))
  = Ok (wireQuote key fromNetwork fromTokens toNetwork toTokens).
Proof.
  intros Hf Ht Hb. unfold quoteBytes in Hb. rewrite !length_app in Hb.
  pose proof (length_Writer_string key).
  pose proof (length_delimited (sideBytes fromNetwork (tokensBytes fromTokens))).
  pose proof (length_delimited (sideBytes toNetwork (tokensBytes toTokens))).
  apply decodeQuote_quoteBytes; try lia;
    apply sideFits_of_bound; try assumption; lia.
Qed.

(** ** The writer, when nothing is left unwritten *)

Lemma written_app (a b : list byte) : written (a ++ b) = written a ++ written b.
Proof. apply map_app. Qed.

Lemma length_written (bytes : list byte) :
  List.length (written bytes) = List.length bytes.
Proof. apply length_map. Qed.

Lemma fillFrom_written pos buf bytes : fillFrom pos buf (written bytes) = bytes.
Proof.
  revert pos. induction bytes as [|b bytes IH]; intros pos; cbn; [reflexivity|].
  now rewrite IH.
Qed.

Lemma fill_written buf bytes : fill buf (written bytes) = bytes.
Proof. apply fillFrom_written. Qed.

Lemma length_writeVarint10 (v : Z) :
  2 ^ 63 <= v < 2 ^ 64 -> List.length (writeVarint 10 v) = 10%nat.
Proof.
  intros Hv. change (2 ^ 63) with 9223372036854775808 in Hv.
  change (2 ^ 64) with 18446744073709551616 in Hv.
  do 9 (rewrite writeVarint_step;
        match goal with
        | |- context [127 <? ?x] =>
            destruct (Z.ltb_spec 127 x); [|exfalso; Z.div_mod_to_equations; lia]
        end;
        rewrite shiftr7; cbn [List.length]).
  rewrite writeVarint_step.
  match goal with
  | |- context [127 <? ?x] =>
      destruct (Z.ltb_spec 127 x); [exfalso; Z.div_mod_to_equations; lia|]
  end.
  reflexivity.
Qed.

Lemma Writer_int32_written (value : number) :
  writtenInFull value -> Writer_int32 value = written (int32Bytes value).
Proof.
  intros H. unfold Writer_int32, int32Bytes.
  destruct (Qle_bool 0 value) eqn:E; [reflexivity|].
  destruct H as [H|H]; [congruence|].
  unfold reserved. rewrite length_writeVarint10.
  - cbn [Nat.sub repeat]. apply app_nil_r.
  - split; [exact H|]. apply Z.mod_pos_bound. lia.
Qed.

Lemma truncate_zero_bound (x : number) : truncate x = 0 -> (- (1) < x)%Q.
Proof.
  unfold truncate, Qlt. destruct x as [n d]. cbn [Qnum Qden]. intros H.
  assert (B : - Z.pos d < n).
  { destruct (Z.lt_ge_cases (- Z.pos d) n) as [L|L]; [exact L|exfalso].
    assert (Q : Z.quot (- n) (Z.pos d) >= 1).
    { apply Z.le_ge. apply Z.quot_le_lower_bound; lia. }
    rewrite Z.quot_opp_l in Q by lia. lia. }
  cbn. lia.
Qed.

Lemma carried_writtenInFull (value : number) : carried value -> writtenInFull value.
Proof.
  intros [Hr Hn]. unfold writtenInFull.
  destruct (Qle_bool 0 value) eqn:E; [now left|right].
  destruct (truncate_sign value) as [_ Hneg]. specialize (Hneg E).
  assert (Hz : truncate value <> 0).
  { intros Hz. apply Hn. split; [now apply truncate_zero_bound|].
    apply Qnot_le_lt. intros L. apply Qle_bool_iff in L. congruence. }
  change (2 ^ 31) with 2147483648 in Hr.
  change (2 ^ 63) with 9223372036854775808.
  change (2 ^ 64) with 18446744073709551616.
  Z.div_mod_to_equations. lia.
Qed.

Lemma ldelim_written (body : list byte) :
  ldelim (written body) = written (delimited body).
Proof.
  unfold ldelim, delimited. now rewrite written_app, length_written.
Qed.

Lemma encodeToken_written address value :
  writtenInFull value ->
  encodeToken address value = written (tokenBytes address value).
Proof.
  intros H. unfold encodeToken, tokenBytes.
  rewrite (Writer_int32_written value H), <- written_app.
  now rewrite <- !app_assoc.
Qed.

Lemma framed_written (tokens : list (list byte)) :
  flat_map (fun token => written (tag 2 2) ++ ldelim token) (map written tokens)
  = written (framed tokens).
Proof.
  induction tokens as [|t tokens IH]; [reflexivity|].
  cbn [map flat_map framed]. fold (framed tokens).
  now rewrite IH, ldelim_written, !written_app.
Qed.

Lemma encodeSide_written network (tokens : list (list byte)) :
  encodeSide network (map written tokens) = written (sideBytes network tokens).
Proof.
  unfold encodeSide, sideBytes. fold (framed tokens).
  now rewrite framed_written, <- written_app, <- !app_assoc.
Qed.

Lemma encodeQuote_written key (from to : list byte) :
  encodeQuote key (written from) (written to) = written (quoteBytes key from to).
Proof.
  unfold encodeQuote, quoteBytes.
  now rewrite !ldelim_written, <- !written_app, <- !app_assoc.
Qed.

Lemma encodeTokens_written (tokens : list (string * number)) :
  Forall (fun token => writtenInFull (snd token)) tokens ->
  map (fun token => encodeToken (fst token) (snd token)) tokens
  = map written (tokensBytes tokens).
Proof.
  intros H. unfold tokensBytes. rewrite map_map.
  apply map_ext_in. intros token Hin.
  apply encodeToken_written. rewrite Forall_forall in H. now apply H.
Qed.

End WireFacts.

(** ** Frames: what a computation leaves alone *)

Section Frames.
Variable R : World -> World -> Prop.
Hypothesis R_refl : forall w, R w w.
Hypothesis R_trans : forall w1 w2 w3, R w1 w2 -> R w2 w3 -> R w1 w3.

Lemma preserves_ret {A} (a : A) : preserves R (ret a).
Proof. intros env w. apply R_refl. Qed.

Lemma preserves_throw {A} (e : Exn) : preserves R (@throw A e).
Proof. intros env w. apply R_refl. Qed.


Lemma preserves_bind {A B} (c : M A) (k : A -> M B) :
  preserves R c -> (forall a, preserves R (k a)) -> preserves R (bind c k).
Proof.
  intros Hc Hk env w. unfold bind. specialize (Hc env w).
  destruct (c env w) as [[a|e] w1]; simpl in *; [|exact Hc].
  eapply R_trans; [exact Hc|apply Hk].
Qed.

Lemma preserves_tryCatch {A} (c : M A) (h : Exn -> M A) :
  preserves R c -> (forall e, preserves R (h e)) -> preserves R (tryCatch c h).
Proof.
  intros Hc Hh env w. unfold tryCatch. specialize (Hc env w).
  destruct (c env w) as [[a|e] w1]; simpl in *; [exact Hc|].
  eapply R_trans; [exact Hc|apply Hh].
Qed.

Lemma preserves_mapM {A B} (f : A -> M B) (l : list A) :
  (forall a, preserves R (f a)) -> preserves R (mapM f l).
Proof.
  intros Hf. induction l as [|a l IH]; cbn [mapM].
  - apply preserves_ret.
  - apply preserves_bind; [apply Hf|]. intros b.
    apply preserves_bind; [exact IH|]. intros bs. apply preserves_ret.
Qed.

Hypothesis R_logs : forall f w, R w (set_logs f w).
Hypothesis R_draws : forall f w, R w (set_draws f w).

Lemma preserves_write entry : preserves R (write entry).
Proof. intros env w. apply R_logs. Qed.

Lemma preserves_emit s line : preserves R (emit s line).
Proof. apply preserves_write. Qed.

Lemma preserves_random : preserves R random.
Proof. intros env w. apply R_draws. Qed.

Lemma preserves_ask : preserves R ask.
Proof. intros env w. apply R_refl. Qed.

Lemma preserves_getTokenPrices addresses :
  preserves R (UtilsService.getTokenPrices addresses).
Proof.
  induction addresses as [|a l IH]; cbn [UtilsService.getTokenPrices].
  - apply preserves_ret.
  - apply preserves_bind.
    + unfold UtilsService.fetchPrice. apply preserves_tryCatch.
      * apply preserves_bind; [apply preserves_ask|]. intros env.
        destruct (fetch env _); try apply preserves_throw.
        destruct (getProperty _ _); [apply preserves_ret|].
        apply preserves_bind; [apply preserves_emit|]. intros _. apply preserves_ret.
      * intros e. apply preserves_bind; [apply preserves_emit|].
        intros _. apply preserves_ret.
    + intros found. apply preserves_bind; [exact IH|]. intros ps. apply preserves_ret.
Qed.

Lemma preserves_computeUpdatedToTokens toTokens usd prices :
  preserves R (UtilsService.computeUpdatedToTokens toTokens usd prices).
Proof.
  apply preserves_mapM. intros t. unfold UtilsService.updateToToken.
  assert (N : preserves R
    (emit ConsoleError
       ("Prezzo non trovato per l'indirizzo " ++ RequestToken.address t)%string ;;
     ret {| ResponseToken.address := RequestToken.address t;
            ResponseToken.amount := 0 |})).
  { apply preserves_bind; [apply preserves_emit|]. intros _. apply preserves_ret. }
  destruct (UtilsService.getPriceForAddress prices (RequestToken.address t)) as [p|];
    [|exact N].
  destruct (falsy (Some p)); [exact N|].
  apply preserves_bind.
  - unfold UtilsService.getRandomFeePercentage.
    apply preserves_bind; [apply preserves_random|]. intros u. apply preserves_ret.
  - intros fee. apply preserves_ret.
Qed.

Lemma preserves_processMessage wallet request :
  preserves R (SolverService.processMessage wallet request).
Proof.
  unfold SolverService.processMessage, SolverService.processMessageWith.
  apply preserves_bind; [apply preserves_getTokenPrices|]. intros prices.
  destruct (RequestSide.tokens (RequestQuote.from request)) as [|fromToken rest];
    [apply preserves_throw|].
  assert (N : preserves R
    (emit LoggerError ("Price not found for " ++ RequestToken.address fromToken)%string ;;
     ret (@None ResponseQuote.t))).
  { apply preserves_bind; [apply preserves_emit|]. intros _. apply preserves_ret. }
  destruct (UtilsService.getPriceForAddress prices (RequestToken.address fromToken))
    as [p|]; [|exact N].
  destruct (falsy (Some p)); [exact N|].
  apply preserves_bind; [apply preserves_computeUpdatedToTokens|].
  intros out. apply preserves_ret.
Qed.





End Frames.

Lemma sameSubscription_refl w : sameSubscription w w.
Proof. repeat split. Qed.

Lemma sameSubscription_trans w1 w2 w3 :
  sameSubscription w1 w2 -> sameSubscription w2 w3 -> sameSubscription w1 w3.
Proof. unfold sameSubscription. intuition congruence. Qed.

Lemma samePublished_refl w : samePublished w w.
Proof. reflexivity. Qed.

Lemma samePublished_trans w1 w2 w3 :
  samePublished w1 w2 -> samePublished w2 w3 -> samePublished w1 w3.
Proof. unfold samePublished. congruence. Qed.





(** ** The callbacks *)





(** ** The two readings of the methods agree on an object of the declared
       shape *)

Lemma unchecked_getTokenPrices addresses env w :
  Unchecked.getTokenPrices (map Some addresses) env w
  = UtilsService.getTokenPrices addresses env w.
Proof.
  revert w. induction addresses as [|a l IH]; intros w; [reflexivity|].
  cbn [map Unchecked.getTokenPrices UtilsService.getTokenPrices].
  change (Unchecked.fetchPrice (Some a)) with (UtilsService.fetchPrice a).
  unfold bind. destruct (UtilsService.fetchPrice a env w) as [[found|e] w1];
    [|reflexivity].
  rewrite IH. reflexivity.
Qed.

Lemma asRequestTokens_addresses tokens typed :
  SolverService.asRequestTokens tokens = Some typed ->
  map Protobuf.Token.address tokens = map Some (map RequestToken.address typed)
  /\ map Protobuf.Token.value tokens
     = map (fun token => Some (Protobuf.truncate (RequestToken.weight token))) typed
  /\ Forall (fun token =>
               RequestToken.weight token
               = inject_Z (Protobuf.truncate (RequestToken.weight token))) typed.
Proof.
  revert typed. induction tokens as [|t l IH]; intros typed; cbn.
  - intros [= <-]. repeat split; constructor.
  - unfold SolverService.asRequestToken.
    destruct t as [[a|] [z|]]; cbn; try discriminate.
    destruct (SolverService.asRequestTokens l) as [ts|]; [|discriminate].
    intros [= <-]. destruct (IH ts eq_refl) as (A & V & F).
    cbn [map RequestToken.address RequestToken.weight].
    rewrite truncate_inject_Z, A, V. repeat split. constructor; [|exact F].
    cbn. now rewrite truncate_inject_Z.
Qed.

Lemma unchecked_updateToToken usd prices a z env w :
  Unchecked.updateToToken UtilsService.getRandomFeePercentage
    (Unchecked.Finite usd) prices
    {| Protobuf.Token.address := Some a; Protobuf.Token.value := Some z |} env w
  = match UtilsService.updateToToken UtilsService.getRandomFeePercentage usd prices
            {| RequestToken.address := a; RequestToken.weight := inject_Z z |} env w
    with
    | (Ok token, w') => (Ok (uncheckedToken token), w')
    | (Threw e, w') => (Threw e, w')
    end.
Proof.
  unfold Unchecked.updateToToken, UtilsService.updateToToken,
    Unchecked.getPriceForAddress.
  cbn [Protobuf.Token.address Protobuf.Token.value RequestToken.address
       RequestToken.weight].
  unfold bind, liftResult.
  destruct (UtilsService.getPriceForAddress prices a) as [p|]; [|reflexivity].
  destruct (falsy (Some p)); [reflexivity|].
  destruct (UtilsService.getRandomFeePercentage env w) as [[fee|e] w1]; reflexivity.
Qed.

Lemma unchecked_computeUpdatedToTokens usd prices tokens typed env w :
  SolverService.asRequestTokens tokens = Some typed ->
  Unchecked.computeUpdatedToTokens UtilsService.getRandomFeePercentage tokens
    (Unchecked.Finite usd) prices env w
  = match UtilsService.computeUpdatedToTokens typed usd prices env w with
    | (Ok out, w') => (Ok (map uncheckedToken out), w')
    | (Threw e, w') => (Threw e, w')
    end.
Proof.
  unfold Unchecked.computeUpdatedToTokens, UtilsService.computeUpdatedToTokens,
    UtilsService.computeUpdatedToTokensWith.
  revert typed w. induction tokens as [|t l IH]; intros typed w; cbn.
  - intros [= <-]. reflexivity.
  - unfold SolverService.asRequestToken.
    destruct t as [[a|] [z|]]; cbn; try discriminate.
    destruct (SolverService.asRequestTokens l) as [ts|] eqn:El; [|discriminate].
    intros [= <-]. cbn [mapM]. unfold bind.
    rewrite unchecked_updateToToken.
    destruct (UtilsService.updateToToken _ usd prices _ env w) as [[token|e] w1];
      [|reflexivity].
    rewrite (IH ts w1 eq_refl).
    destruct (mapM _ ts env w1) as [[out|e] w2]; reflexivity.
Qed.

Lemma unchecked_encode (response : ResponseQuote.t) :
  Unchecked.encode (uncheckedResponse response)
  = UtilsService.encode UtilsService.getResponseType response.
Proof.
  assert (T : forall token,
             Unchecked.encodeToken (uncheckedToken token)
             = Protobuf.encodeToken (ResponseToken.address token)
                 (ResponseToken.amount token)).
  { intros token. unfold Unchecked.encodeToken, Protobuf.encodeToken, uncheckedToken.
    cbn [Unchecked.ResponseToken.address Unchecked.ResponseToken.amount
         Unchecked.Writer_int32].
    rewrite !written_app, <- !app_assoc. reflexivity. }
  assert (S : forall side,
             Unchecked.encodeSide (uncheckedSide side)
             = Protobuf.encodeSide (ResponseSide.network side)
                 (map (fun token =>
                         Protobuf.encodeToken (ResponseToken.address token)
                           (ResponseToken.amount token))
                      (ResponseSide.tokens side))).
  { intros side. unfold Unchecked.encodeSide, Protobuf.encodeSide, uncheckedSide.
    cbn [Unchecked.ResponseSide.network Unchecked.ResponseSide.tokens].
    f_equal. induction (ResponseSide.tokens side) as [|t l IH]; [reflexivity|].
    cbn [map flat_map]. now rewrite IH, T. }
  unfold Unchecked.encode, uncheckedResponse, UtilsService.getResponseType,
    UtilsService.encode, Protobuf.encodeQuote.
  cbn [Unchecked.ResponseQuote.solver Unchecked.ResponseQuote.from
       Unchecked.ResponseQuote.to].
  now rewrite !S.
Qed.

Lemma unchecked_sendResponse bucket response env w :
  Unchecked.sendResponse (Some bucket) (option_map uncheckedResponse response) env w
  = SolverService.sendResponse bucket response env w.
Proof.
  unfold Unchecked.sendResponse, SolverService.sendResponse,
    SolverService.sendResponse_contentTopics, SolverService.responseType.
  cbn [Unchecked.interpolate nth].
  destruct response as [response|]; cbn [option_map]; [|reflexivity].
  now rewrite unchecked_encode.
Qed.

Lemma unchecked_processMessage wallet json request env w :
  SolverService.asRequestQuote json = SolverService.Typed request ->
  Unchecked.processMessage wallet UtilsService.getRandomFeePercentage json env w
  = match SolverService.processMessage wallet request env w with
    | (Ok response, w') => (Ok (option_map uncheckedResponse response), w')
    | (Threw e, w') => (Threw e, w')
    end
  /\ Protobuf.Quote.key json = Some (RequestQuote.bucket request).
Proof.
  unfold SolverService.asRequestQuote.
  destruct json as [key [[fromNetwork [fromTokens|]]|] [[toNetwork [toTokens|]]|]];
    cbn; try discriminate.
  destruct key as [key|]; [|discriminate].
  destruct fromNetwork as [fromNetwork|]; [|discriminate].
  destruct (SolverService.asRequestTokens fromTokens) as [typedFrom|] eqn:Ef;
    [|destruct toNetwork; discriminate].
  destruct toNetwork as [toNetwork|]; [|discriminate].
  destruct (SolverService.asRequestTokens toTokens) as [typedTo|] eqn:Et;
    [|discriminate].
  intros [= <-]. split; [|reflexivity].
  destruct (asRequestTokens_addresses _ _ Ef) as (Af & Vf & Ff).
  destruct (asRequestTokens_addresses _ _ Et) as (At & _ & _).
  unfold Unchecked.processMessage, SolverService.processMessage,
    SolverService.processMessageWith, Unchecked.extractTokenAddresses,
    UtilsService.extractTokenAddresses.
  cbn [Unchecked.tokensOf Unchecked.networkOf Protobuf.Quote.from Protobuf.Quote.to
       Protobuf.Side.tokens Protobuf.Side.network RequestQuote.from RequestQuote.to
       RequestSide.tokens RequestSide.network].
  rewrite Af, At, <- map_app.
  unfold bind. rewrite unchecked_getTokenPrices.
  destruct (UtilsService.getTokenPrices _ env w) as [[prices|e] w1]; [|reflexivity].
  destruct fromTokens as [|[[a|] [z|]] fromTokens];
    cbn in Ef; unfold SolverService.asRequestToken in Ef; cbn in Ef;
    try discriminate.
  { injection Ef as <-. reflexivity. }
  destruct (SolverService.asRequestTokens fromTokens) as [ts|] eqn:Ets;
    [|discriminate].
  injection Ef as <-.
  cbn [Protobuf.Token.address Protobuf.Token.value RequestToken.address
       RequestToken.weight Unchecked.getPriceForAddress].
  unfold liftResult.
  destruct (UtilsService.getPriceForAddress prices a) as [p|]; [|reflexivity].
  destruct (falsy (Some p)); [reflexivity|].
  cbn [Unchecked.numberOf Unchecked.operand option_map Unchecked.times].
  rewrite (unchecked_computeUpdatedToTokens _ prices toTokens typedTo env w1 Et).
  unfold UtilsService.computeUpdatedToTokens.
  destruct (UtilsService.computeUpdatedToTokensWith _ typedTo _ prices env w1)
    as [[out|e] w2]; [|reflexivity].
  unfold ret, uncheckedResponse, uncheckedSide. cbn [option_map].
  do 3 f_equal. cbn [ResponseQuote.solver ResponseQuote.from ResponseQuote.to
                     ResponseSide.network ResponseSide.tokens].
  f_equal. f_equal.
  destruct (asRequestTokens_addresses _ _ Ets) as (Ats & Vts & Fts).
  cbn [map]. f_equal.
  clear - Ets. revert ts Ets.
  induction fromTokens as [|t l IH]; intros ts; cbn.
  - intros [= <-]. reflexivity.
  - unfold SolverService.asRequestToken.
    destruct t as [[a|] [z|]]; cbn; try discriminate.
    destruct (SolverService.asRequestTokens l) as [ts'|]; [|discriminate].
    intros [= <-]. cbn [map]. now rewrite (IH ts' eq_refl).
Qed.

(** The callback is what the unchecked reading of every decoded object
    gives: where the object has the declared shape, the typed methods
    describe the same run. *)
Lemma callback_is_unchecked wallet message env w :
  SolverService.callback wallet message env w
  = uncheckedCallback wallet message env w.
Proof.
  unfold SolverService.callback, SolverService.callbackWith, uncheckedCallback,
    SolverService.requestType.
  destruct (Waku.DecodedMessage.payload message) as [payload|]; [|reflexivity].
  unfold bind, liftResult. cbn [emit write].
  destruct (UtilsService.decode UtilsService.getRequestType payload)
    as [decoded|e]; [|reflexivity].
  destruct (SolverService.asRequestQuote (Protobuf.toJSON decoded))
    as [request| |] eqn:Ec.
  - destruct (unchecked_processMessage wallet _ request env
                (set_logs (cons (Line LoggerLog "New request for quotes received.")) w)
                Ec) as [Ep Ek].
    rewrite Ep, Ek. unfold SolverService.processMessage.
    destruct (SolverService.processMessageWith wallet _ request env _)
      as [[response|e] w1]; [|reflexivity].
    now rewrite unchecked_sendResponse.
  - unfold throw, Unchecked.processMessage.
    unfold SolverService.asRequestQuote in Ec.
    destruct (Protobuf.toJSON decoded)
      as [key [[fromNetwork [fromTokens|]]|] [[toNetwork [toTokens|]]|]];
      cbn in *; try reflexivity.
    destruct key, fromNetwork, (SolverService.asRequestTokens fromTokens),
      toNetwork, (SolverService.asRequestTokens toTokens); discriminate.
  - reflexivity.
Qed.

(** ** The request codec *)

Lemma Forall_tokensOf (P : number -> Prop) side :
  Forall (fun token => P (RequestToken.weight token)) (RequestSide.tokens side) ->
  Forall (fun token => P (snd token)) (tokensOf side).
Proof.
  unfold tokensOf. intros H. apply Forall_map. exact H.
Qed.

Lemma Forall_carried {A} (f : A -> number) (l : list A) :
  Forall (fun x => carried (f x)) l ->
  Forall (fun x => int32 (f x)) l /\ Forall (fun x => writtenInFull (f x)) l.
Proof.
  intros H. split; (eapply Forall_impl; [|exact H]); intros x Hx.
  - exact (proj1 Hx).
  - now apply carried_writtenInFull.
Qed.

(** With every weight written in full, the writer holds the bytes of the
    request and nothing else. *)
Lemma encode_request_written (r : RequestQuote.t) :
  carriedWeights r ->
  UtilsService.encode UtilsService.getRequestType r
  = Protobuf.written
      (quoteBytes (RequestQuote.bucket r)
         (sideBytes (RequestSide.network (RequestQuote.from r))
            (tokensBytes (tokensOf (RequestQuote.from r))))
         (sideBytes (RequestSide.network (RequestQuote.to r))
            (tokensBytes (tokensOf (RequestQuote.to r))))).
Proof.
  intros [Hf Ht].
  apply Forall_carried in Hf, Ht.
  pose proof (encodeTokens_written (tokensOf (RequestQuote.from r))
                (Forall_tokensOf _ _ (proj2 Hf))) as Ef.
  pose proof (encodeTokens_written (tokensOf (RequestQuote.to r))
                (Forall_tokensOf _ _ (proj2 Ht))) as Et.
  unfold tokensOf in Ef at 1. unfold tokensOf in Et at 1. rewrite map_map in Ef, Et.
  cbn [fst snd] in Ef, Et.
  unfold UtilsService.getRequestType, UtilsService.encode.
  rewrite Ef, Et, !encodeSide_written. apply encodeQuote_written.
Qed.

(** Decoding what [encode] wrote, before [toJSON]. *)
Lemma decode_encode_request (r : RequestQuote.t) buf :
  carriedWeights r ->
  (Z.of_nat (List.length (UtilsService.encode UtilsService.getRequestType r)) < 2 ^ 32)%Z ->
  UtilsService.decode UtilsService.getRequestType
    (Protobuf.fill buf (UtilsService.encode UtilsService.getRequestType r))
  = Ok (wireQuote (RequestQuote.bucket r)
          (RequestSide.network (RequestQuote.from r)) (tokensOf (RequestQuote.from r))
          (RequestSide.network (RequestQuote.to r)) (tokensOf (RequestQuote.to r))).
Proof.
  intros Hw Hb. rewrite (encode_request_written r Hw) in *.
  rewrite length_written in Hb. rewrite fill_written.
  destruct Hw as [Hf Ht]. apply Forall_carried in Hf, Ht.
  apply decodeQuote_quoteBytes_bounded.
  - apply (Forall_tokensOf int32), Hf.
  - apply (Forall_tokensOf int32), Ht.
  - exact Hb.
Qed.

Lemma asRequestTokens_wireTokens side :
  SolverService.asRequestTokens (wireTokens (tokensOf side))
  = Some (map truncatedToken (RequestSide.tokens side)).
Proof.
  unfold tokensOf, wireTokens. rewrite map_map.
  induction (RequestSide.tokens side) as [|t l IH]; [reflexivity|].
  cbn [map SolverService.asRequestTokens]. rewrite IH. reflexivity.
Qed.

(** Claim C3, amended.  For a request whose weights, rounded toward zero,
    are [int32]s and none of which lies strictly between [-1] and [0],
    whose two token lists are not empty and whose encoding is shorter than
    [2^32] bytes, decoding what [encode(r).finish()] returns, whatever the
    fresh buffer held, and casting the result gives the request back with
    every weight rounded toward zero; zero weights and empty strings come
    back as they were. *)
Theorem request_round_trip :
  forall (r : RequestQuote.t) (buf : nat -> byte),
    carriedWeights r ->
    (Z.of_nat (List.length (UtilsService.encode UtilsService.getRequestType r)) < 2 ^ 32)%Z ->
    RequestSide.tokens (RequestQuote.from r) <> [] ->
    RequestSide.tokens (RequestQuote.to r) <> [] ->
    exists decoded,
      UtilsService.decode UtilsService.getRequestType
        (Protobuf.fill buf (UtilsService.encode UtilsService.getRequestType r))
      = Ok decoded
      /\ SolverService.asRequestQuote (Protobuf.toJSON decoded)
         = SolverService.Typed (truncatedQuote r).
Proof.
  intros r buf Hw Hb Hf Ht.
  eexists. split; [apply decode_encode_request; assumption|].
  unfold wireQuote, Protobuf.toJSON, wireSide, Protobuf.sideToJSON,
    SolverService.asRequestQuote.
  cbn [Protobuf.QuoteMessage.key Protobuf.QuoteMessage.from Protobuf.QuoteMessage.to
       option_map Protobuf.SideMessage.network Protobuf.SideMessage.tokens
       Protobuf.Quote.key Protobuf.Quote.from Protobuf.Quote.to].
  destruct (wireTokens (tokensOf (RequestQuote.from r))) as [|x xs] eqn:Ef.
  { exfalso. apply Hf. unfold wireTokens, tokensOf in Ef.
    apply map_eq_nil in Ef. now apply map_eq_nil in Ef. }
  destruct (wireTokens (tokensOf (RequestQuote.to r))) as [|y ys] eqn:Et.
  { exfalso. apply Ht. unfold wireTokens, tokensOf in Et.
    apply map_eq_nil in Et. now apply map_eq_nil in Et. }
  cbn [Protobuf.Side.tokens Protobuf.Side.network].
  rewrite <- Ef, <- Et, !asRequestTokens_wireTokens. reflexivity.
Qed.

(** Counterexample to claim C3 as stated: a weight of 3000000000 comes back
    as -1294967296, and the empty to-list comes back as no [tokens] property
    at all, so that the object is not a [RequestQuote]. *)
Lemma request_round_trip_fails :
  exists decoded,
    UtilsService.decode UtilsService.getRequestType
      (finished Scenario.env Scenario.world
         (UtilsService.encode UtilsService.getRequestType outOfRangeAndEmpty))
    = Ok decoded
    /\ Protobuf.toJSON decoded
       = {| Protobuf.Quote.key := Some "ab12cd34"%string;
            Protobuf.Quote.from :=
              Some {| Protobuf.Side.network := Some "mainnet"%string;
                      Protobuf.Side.tokens :=
                        Some [ {| Protobuf.Token.address := Some "0xAAA"%string;
                                  Protobuf.Token.value := Some (-1294967296)%Z |} ] |};
            Protobuf.Quote.to :=
              Some {| Protobuf.Side.network := Some "base"%string;
                      Protobuf.Side.tokens := None |} |}
    /\ SolverService.asRequestQuote (Protobuf.toJSON decoded)
       <> SolverService.Typed (truncatedQuote outOfRangeAndEmpty).
Proof.
  eexists. split; [vm_compute; reflexivity|]. split; [vm_compute; reflexivity|].
  vm_compute. discriminate.
Qed.

(** ** A missing source price *)

(** Claim C1.  When the price list looked up for a request has no entry
    for the address of the first from-token, [processMessage] logs the miss
    and resolves to [undefined] (no response, not one with zero amounts);
    and the callback handed a payload that decodes to such a request
    publishes nothing: [sendResponse] is still called, and throws a
    [TypeError] on encoding [undefined], before anything is pushed. *)
Theorem missing_source_price_yields_no_response :
  (forall wallet request env w fromToken rest prices w1,
      RequestSide.tokens (RequestQuote.from request) = fromToken :: rest ->
      UtilsService.getTokenPrices (UtilsService.extractTokenAddresses request) env w
      = (Ok prices, w1) ->
      UtilsService.getPriceForAddress prices (RequestToken.address fromToken) = None ->
      SolverService.processMessage wallet request env w
      = (Ok None,
         set_logs (cons (Line LoggerError
                           ("Price not found for "
                              ++ RequestToken.address fromToken)%string)) w1))
  /\ (forall wallet payload env w decoded request fromToken rest prices w1,
        UtilsService.decode UtilsService.getRequestType payload = Ok decoded ->
        SolverService.asRequestQuote (Protobuf.toJSON decoded)
        = SolverService.Typed request ->
        RequestSide.tokens (RequestQuote.from request) = fromToken :: rest ->
        UtilsService.getTokenPrices (UtilsService.extractTokenAddresses request) env
          (set_logs (cons receiptLine) w)
        = (Ok prices, w1) ->
        UtilsService.getPriceForAddress prices (RequestToken.address fromToken) = None ->
        exists w2,
          SolverService.callback wallet
            {| Waku.DecodedMessage.payload := Some payload |} env w
          = (Threw TypeError, w2)
          /\ published w2 = published w).
Proof.
  split.
  - intros wallet request env w fromToken rest prices w1 Ht Ep E.
    unfold SolverService.processMessage.
    apply (processMessageWith_unpriced_source wallet _ request env w Ht Ep).
    now rewrite E.
  - intros wallet payload env w decoded request fromToken rest prices w1
           Ed Ec Ht Ep E.
    unfold SolverService.callback, SolverService.callbackWith.
    cbn [Waku.DecodedMessage.payload]. unfold SolverService.requestType.
    unfold bind at 1. cbn [emit write]. fold receiptLine.
    unfold bind at 1, liftResult. rewrite Ed, Ec.
    assert (F : falsy (UtilsService.getPriceForAddress prices
                         (RequestToken.address fromToken)) = true) by now rewrite E.
    rewrite (bind_ok _ _
      (processMessageWith_unpriced_source wallet _ request env _ Ht Ep F)).
    eexists. split; [reflexivity|]. simpl.
    destruct (getTokenPrices_returns (UtilsService.extractTokenAddresses request)
                env (set_logs (cons receiptLine) w)) as (ps & w' & Ep' & _ & P & _).
    rewrite Ep in Ep'. injection Ep' as <- <-. exact P.
Qed.

(** ** Failures in the callbacks *)






(** ** Topics *)

(** Claim C6.  The topic the solver subscribes to and the topic the
    requester publishes its request on are the literal
    ["/iLayer/1/rfq/proto"]; the requester listens on
    ["/iLayer/1/" ++ bucket ++ "/proto"] for its own bucket, [sendResponse]
    publishes on the same string built from the bucket of the request, so a
    response to the bucket of a requester lands on the topic that requester
    listens on; and the subscription [onModuleInit] takes out, once the
    relay accepts it, is on that topic for each of the two services. *)
Theorem topics_agree :
  SolverService.decoderTopic = "/iLayer/1/rfq/proto"%string
  /\ nth 0 UserService.sendRequest_contentTopics ""%string
     = SolverService.decoderTopic
  /\ (forall wallet env w,
        let payload :=
          finished env w
            (UtilsService.encode UtilsService.getRequestType
               (UserService.sendRequest_message wallet)) in
        lightPush_send env "/iLayer/1/rfq/proto" payload = true ->
        published (snd (UserService.sendRequest wallet env w))
        = (SolverService.decoderTopic, payload) :: published w)
  /\ (forall userWallet,
        UserService.decoderTopic userWallet
        = ("/iLayer/1/" ++ UtilsService.getBucketFromPublicKey userWallet ++ "/proto")%string)
  /\ (forall bucket response env w,
        let payload :=
          finished env w (UtilsService.encode UtilsService.getResponseType response) in
        lightPush_send env ("/iLayer/1/" ++ bucket ++ "/proto")%string payload = true ->
        published (snd (SolverService.sendResponse bucket (Some response) env w))
        = (("/iLayer/1/" ++ bucket ++ "/proto")%string, payload) :: published w)
  /\ (forall userWallet response env w,
        lightPush_send env (UserService.decoderTopic userWallet)
          (finished env w (UtilsService.encode UtilsService.getResponseType response))
        = true ->
        exists payload,
          published (snd (SolverService.sendResponse (UserService.bucket userWallet)
                            (Some response) env w))
          = (UserService.decoderTopic userWallet, payload) :: published w)
  /\ (forall env w,
        subscribeWithUnsubscribe env (attempts w) = true ->
        subscribed (snd (SolverService.onModuleInit env w))
        = "/iLayer/1/rfq/proto"%string :: subscribed w)
  /\ (forall userWallet env w,
        subscribeWithUnsubscribe env (attempts w) = true ->
        subscribed (snd (UserService.onModuleInit userWallet env w))
        = ("/iLayer/1/" ++ UtilsService.getBucketFromPublicKey userWallet
             ++ "/proto")%string :: subscribed w).
Proof.
  split; [reflexivity|]. split; [reflexivity|].
  split; [|split; [reflexivity|split; [|split; [|split]]]].
  - intros wallet env w payload H.
    unfold UserService.sendRequest, bind, Waku.startLightNode, emit, write,
      BufferWriter.finish, BufferWriter.alloc, bind, ret,
      Waku.lightPushSend, Waku.stopLightNode, UserService.requestType.
    cbn [nth UserService.sendRequest_contentTopics allocations set_lightNodes set_logs].
    fold (finished env w (UtilsService.encode UtilsService.getRequestType
                            (UserService.sendRequest_message wallet))).
    fold payload. rewrite H. reflexivity.
  - intros bucket response env w payload H.
    unfold SolverService.sendResponse, bind, Waku.startLightNode, emit, write,
      BufferWriter.finish, BufferWriter.alloc, bind, ret,
      Waku.lightPushSend, Waku.stopLightNode, SolverService.responseType.
    cbn [nth SolverService.sendResponse_contentTopics allocations set_lightNodes set_logs].
    fold (finished env w (UtilsService.encode UtilsService.getResponseType response)).
    fold payload. rewrite H. reflexivity.
  - intros userWallet response env w H. eexists.
    unfold SolverService.sendResponse, bind, Waku.startLightNode, emit, write,
      BufferWriter.finish, BufferWriter.alloc, bind, ret,
      Waku.lightPushSend, Waku.stopLightNode, SolverService.responseType.
    cbn [nth SolverService.sendResponse_contentTopics allocations set_lightNodes set_logs].
    fold (finished env w (UtilsService.encode UtilsService.getResponseType response)).
    change ("/iLayer/1/" ++ UserService.bucket userWallet ++ "/proto")%string
      with (UserService.decoderTopic userWallet).
    rewrite H. reflexivity.
  - intros env w H.
    unfold SolverService.onModuleInit, SolverService.listenToQuoteRequests,
      tryCatch, bind, emit, write, Waku.relaySubscribe.
    cbn [attempts set_logs]. rewrite H. reflexivity.
  - intros userWallet env w H.
    unfold UserService.onModuleInit, UserService.listenToQuoteResponses,
      tryCatch, bind, emit, write, Waku.relaySubscribe.
    cbn [attempts set_logs]. rewrite H. reflexivity.
Qed.

(** ** The bucket *)




(** The hypotheses of the theorem of claim C1 hold in the scenario. *)
Lemma missing_source_price_yields_no_response_witness :
  SolverService.processMessage Scenario.wallet unknownSource Scenario.env Scenario.world
  = (Ok None,
     set_logs (cons (Line LoggerError "Price not found for 0xEEE"))
       (snd (UtilsService.getTokenPrices
               (UtilsService.extractTokenAddresses unknownSource)
               Scenario.env Scenario.world)))
  /\ exists w2,
       SolverService.callback Scenario.wallet
         {| Waku.DecodedMessage.payload :=
              Some (finished Scenario.env Scenario.world
                      (UtilsService.encode UtilsService.getRequestType
                         unknownSource)) |}
         Scenario.env Scenario.world
       = (Threw TypeError, w2)
       /\ published w2 = published Scenario.world.
Proof.
  split.
  - refine (proj1 missing_source_price_yields_no_response Scenario.wallet
              unknownSource Scenario.env Scenario.world
              (Scenario.token "0xEEE" 1000) [] _ _ eq_refl _ _);
      [vm_compute; reflexivity | vm_compute; reflexivity].
  - refine (proj2 missing_source_price_yields_no_response Scenario.wallet _
              Scenario.env Scenario.world _ unknownSource
              (Scenario.token "0xEEE" 1000) [] _ _ _ _ eq_refl _ _);
      [vm_compute; reflexivity | vm_compute; reflexivity
      | vm_compute; reflexivity | vm_compute; reflexivity].
Defined.

(** The hypotheses of the theorem of claim C2 hold in the scenario. *)
Lemma destination_amount_formula_witness :
  exists response w2,
    SolverService.processMessage Scenario.wallet Scenario.request
      Scenario.env Scenario.world = (Ok (Some response), w2)
    /\ nth_error (ResponseSide.tokens (ResponseQuote.to response)) 1
       = Some {| ResponseToken.address := "0xCCC";
                 ResponseToken.amount :=
                   ((1000 * 1) * 70 / 100 / 5)
                   * (1 - UtilsService.feeOfDraw (1 # 2)) |}.
Proof.
  destruct (proj1 destination_amount_formula Scenario.wallet Scenario.request
              Scenario.env Scenario.world (Scenario.token "0xAAA" 1000) []
              (firstn 3 Scenario.prices) Scenario.world 1)
    as (response & w2 & E & N).
  - reflexivity.
  - vm_compute. reflexivity.
  - reflexivity.
  - intros H. vm_compute in H. discriminate.
  - intros t [<-|[<-|[]]].
    + exists 2. split; [reflexivity|]. intros H. vm_compute in H. discriminate.
    + exists 5. split; [reflexivity|]. intros H. vm_compute in H. discriminate.
  - exists response, w2. split; [exact E|].
    exact (N 1%nat (Scenario.token "0xCCC" 70) 5 eq_refl eq_refl).
Defined.

(** The hypotheses of the theorem of claim C3 hold in the scenario. *)
Lemma request_round_trip_witness :
  exists decoded,
    UtilsService.decode UtilsService.getRequestType
      (finished Scenario.env Scenario.world
         (UtilsService.encode UtilsService.getRequestType Scenario.request))
    = Ok decoded
    /\ SolverService.asRequestQuote (Protobuf.toJSON decoded)
       = SolverService.Typed (truncatedQuote Scenario.request).
Proof.
  apply request_round_trip.
  - split; repeat constructor; try (vm_compute; intros H; discriminate);
      intros [_ H]; vm_compute in H; discriminate.
  - vm_compute. reflexivity.
  - discriminate.
  - discriminate.
Defined.


(** The hypotheses of the theorem of claim C5 hold in the scenario. *)
Lemma missing_destination_price_is_local_witness :
  UtilsService.getPriceForAddress Scenario.prices "0xEEE" = None
  /\ exists out1 out2 w1 w2,
       UtilsService.computeUpdatedToTokens
         ([Scenario.token "0xBBB" 30] ++ Scenario.token "0xEEE" 10
            :: [Scenario.token "0xCCC" 70])
         1000 Scenario.prices Scenario.env Scenario.world
       = (Ok (out1 ++ {| ResponseToken.address := "0xEEE";
                         ResponseToken.amount := 0 |} :: out2), w1)
       /\ UtilsService.computeUpdatedToTokens
            ([Scenario.token "0xBBB" 30] ++ [Scenario.token "0xCCC" 70])
            1000 Scenario.prices Scenario.env Scenario.world
          = (Ok (out1 ++ out2), w2).
Proof.
  split; [reflexivity|].
  destruct (missing_destination_price_is_local Scenario.env Scenario.world
              [Scenario.token "0xBBB" 30] (Scenario.token "0xEEE" 10)
              [Scenario.token "0xCCC" 70] 1000 Scenario.prices eq_refl)
    as (out1 & out2 & w1 & w2 & E1 & E2 & _).
  exists out1, out2, w1, w2. split; assumption.
Defined.

(** The hypotheses of the theorem of claim C6 hold in the scenario. *)
Lemma topics_agree_witness :
  published (snd (UserService.sendRequest Scenario.wallet Scenario.env Scenario.world))
  = [(SolverService.decoderTopic,
      finished Scenario.env Scenario.world
        (UtilsService.encode UtilsService.getRequestType
           (UserService.sendRequest_message Scenario.wallet)))]
  /\ exists payload,
       published (snd (SolverService.sendResponse (UserService.bucket Scenario.wallet)
                         (Some {| ResponseQuote.solver := "0x03def";
                                  ResponseQuote.from :=
                                    {| ResponseSide.network := "mainnet";
                                       ResponseSide.tokens := [] |};
                                  ResponseQuote.to :=
                                    {| ResponseSide.network := "base";
                                       ResponseSide.tokens := [] |} |})
                         Scenario.env Scenario.world))
       = [(UserService.decoderTopic Scenario.wallet, payload)].
Proof.
  split.
  - apply (proj1 (proj2 (proj2 topics_agree)) Scenario.wallet Scenario.env
             Scenario.world). reflexivity.
  - apply (proj1 (proj2 (proj2 (proj2 (proj2 (proj2 topics_agree)))))
             Scenario.wallet _ Scenario.env Scenario.world). reflexivity.
Defined.


(** The hypotheses of the theorem of claim C8 hold in the scenario. *)
Lemma response_echoes_source_side_witness :
  exists response w2,
    SolverService.processMessage Scenario.wallet Scenario.request
      Scenario.env Scenario.world = (Ok (Some response), w2)
    /\ ResponseSide.tokens (ResponseQuote.from response)
       = [ {| ResponseToken.address := "0xAAA"; ResponseToken.amount := 1000 |} ]
    /\ ResponseSide.network (ResponseQuote.from response) = "mainnet"%string
    /\ ResponseSide.network (ResponseQuote.to response) = "base"%string.
Proof.
  apply (response_echoes_source_side Scenario.wallet Scenario.request
           Scenario.env Scenario.world (Scenario.token "0xAAA" 1000) []
           (firstn 3 Scenario.prices) Scenario.world 1).
  - reflexivity.
  - vm_compute. reflexivity.
  - reflexivity.
  - intros H. vm_compute in H. discriminate.
Defined.

(** The hypotheses of the theorem of claim C9 hold in the scenario. *)
Lemma fee_range_and_amount_bounds_witness :
  (1 # 1000) <= UtilsService.feeOfDraw (1 # 2) <= (1 # 100)
  /\ exists out w',
       UtilsService.computeUpdatedToTokens
         [Scenario.token "0xBBB" 30] 1000 Scenario.prices Scenario.env Scenario.world
       = (Ok out, w')
       /\ exists r, nth_error out 0 = Some r
            /\ (1000 * 30 / 100 / 2) * (1 - (1 # 100)) <= ResponseToken.amount r
            /\ ResponseToken.amount r <= (1000 * 30 / 100 / 2) * (1 - (1 # 1000)).
Proof.
  split.
  - apply (proj1 fee_range_and_amount_bounds). split; [discriminate|reflexivity].
  - assert (Hrand : forall n, 0 <= Math_random Scenario.env n < 1)
      by (intros n; split; [discriminate|reflexivity]).
    destruct (proj2 (proj2 fee_range_and_amount_bounds) Scenario.env Hrand
                [Scenario.token "0xBBB" 30] 1000 Scenario.prices Scenario.world)
      as (out & w' & E & N).
    exists out, w'. split; [exact E|].
    assert (Hnz : ~ 2 == 0) by (intros H; discriminate H).
    destruct (N 0%nat (Scenario.token "0xBBB" 30) 2 eq_refl eq_refl Hnz)
      as (r & R1 & _ & R3).
    exists r. split; [exact R1|]. apply R3. discriminate.
Defined.

(** The hypotheses of the theorem of claim C10 hold in the scenario. *)
Lemma zero_price_is_treated_as_missing_witness :
  (exists out w' r,
     UtilsService.computeUpdatedToTokens
       [Scenario.token "0xDDD" 50] 1000 Scenario.prices Scenario.env Scenario.world
     = (Ok out, w')
     /\ nth_error out 0 = Some r
     /\ r = {| ResponseToken.address := "0xDDD"; ResponseToken.amount := 0 |})
  /\ exists w2,
       SolverService.processMessage Scenario.wallet zeroPricedSource
         Scenario.env Scenario.world = (Ok None, w2).
Proof.
  split.
  - apply (proj1 zero_price_is_treated_as_missing
             [Scenario.token "0xDDD" 50] 1000 Scenario.prices Scenario.env
             Scenario.world 0%nat (Scenario.token "0xDDD" 50) 0);
      reflexivity.
  - apply (proj2 zero_price_is_treated_as_missing Scenario.wallet zeroPricedSource
             Scenario.env Scenario.world (Scenario.token "0xDDD" 1000) []
             [ {| Price.address := "0xddd"; Price.price := Some 0 |};
               {| Price.address := "0xbbb"; Price.price := Some 2 |} ]
             Scenario.world 0);
      [reflexivity | vm_compute; reflexivity | reflexivity | reflexivity].
Defined.

(* ================================================================== *)
(** * Further properties of the code *)

(** ** More on the price lookup *)

Lemma lowerAscii_idempotent (c : ascii) : lowerAscii (lowerAscii c) = lowerAscii c.
Proof. destruct c as [[] [] [] [] [] [] [] []]; reflexivity. Qed.

Lemma toLowerCase_idempotent (s : string) : toLowerCase (toLowerCase s) = toLowerCase s.
Proof.
  induction s as [|c s IH]; [reflexivity|].
  cbn [toLowerCase]. now rewrite lowerAscii_idempotent, IH.
Qed.

Lemma fetchPrice_result address env w :
  exists w',
    UtilsService.fetchPrice address env w = (Ok (pushed env address), w')
    /\ (forall quotation, feedEntry env address = Some quotation -> w' = w).
Proof.
  unfold UtilsService.fetchPrice, pushed, feedEntry, tryCatch, bind, ask, throw,
    emit, write, ret.
  destruct (fetch env (UtilsService.priceUrl address)) as [|st|data];
    try (eexists; split; [reflexivity|discriminate]).
  destruct (getProperty data (toLowerCase address));
    eexists; (split; [reflexivity|]); [reflexivity|discriminate].
Qed.

Lemma getTokenPrices_pushed addresses env w :
  exists w',
    UtilsService.getTokenPrices addresses env w
    = (Ok (flat_map (pushed env) addresses), w').
Proof.
  revert w. induction addresses as [|a l IH]; intros w;
    cbn [UtilsService.getTokenPrices flat_map].
  - now exists w.
  - destruct (fetchPrice_result a env w) as (w1 & E1 & _).
    destruct (IH w1) as (w2 & E2).
    rewrite (bind_ok _ _ E1), (bind_ok _ _ E2). unfold ret. now exists w2.
Qed.

Lemma find_pushed env addresses address :
  UtilsService.getPriceForAddress (flat_map (pushed env) addresses) address
  = firstKnown env addresses address.
Proof.
  unfold UtilsService.getPriceForAddress.
  induction addresses as [|a l IH]; [reflexivity|].
  cbn [flat_map firstKnown]. unfold pushed at 1.
  destruct (feedEntry env a) as [quotation|]; [|exact IH].
  cbn [app find Price.address Price.price]. rewrite toLowerCase_idempotent.
  destruct (String.eqb (toLowerCase a) (toLowerCase address)); [reflexivity|exact IH].
Qed.

Lemma getTokenPrices_lookup addresses address env w :
  exists prices w',
    UtilsService.getTokenPrices addresses env w = (Ok prices, w')
    /\ UtilsService.getPriceForAddress prices address
       = firstKnown env addresses address.
Proof.
  destruct (getTokenPrices_pushed addresses env w) as (w' & E).
  eexists _, w'. split; [exact E|apply find_pushed].
Qed.

Lemma firstKnown_found env addresses address usd :
  In address addresses ->
  feedPrice env address = Some usd ->
  (forall a, In a addresses -> toLowerCase a = toLowerCase address -> a = address) ->
  firstKnown env addresses address = Some usd.
Proof.
  induction addresses as [|a l IH]; intros Hin Hk Hu; [destruct Hin|].
  cbn [firstKnown].
  destruct (String.eqb_spec (toLowerCase a) (toLowerCase address)) as [E|N].
  - rewrite (Hu a (or_introl eq_refl) E). unfold feedPrice in Hk.
    destruct (feedEntry env address); [exact Hk|discriminate].
  - assert (Hin' : In address l).
    { destruct Hin as [->|H]; [contradiction N; reflexivity|exact H]. }
    assert (R : firstKnown env l address = Some usd).
    { apply IH; auto. intros a' Ha'. apply Hu. now right. }
    destruct (feedEntry env a); exact R.
Qed.

Lemma firstKnown_none env addresses address :
  (forall a, In a addresses -> toLowerCase a = toLowerCase address ->
             feedPrice env a = None) ->
  firstKnown env addresses address = None.
Proof.
  induction addresses as [|a l IH]; intros Hu; [reflexivity|].
  cbn [firstKnown].
  assert (R : firstKnown env l address = None).
  { apply IH. intros a' Ha'. apply Hu. now right. }
  destruct (feedEntry env a) as [quotation|] eqn:F; [|exact R].
  destruct (String.eqb_spec (toLowerCase a) (toLowerCase address)) as [E|N];
    [|exact R].
  pose proof (Hu a (or_introl eq_refl) E) as K. unfold feedPrice in K.
  now rewrite F in K.
Qed.

(** The batch of lookups never fails, and what it returns answers the
    later lookups by address: an address of the batch that the feed knows
    is found with the price the feed gave, and an address the feed does not
    know is not found.  Addresses that differ only by case share one entry,
    the first one the feed knows. *)
Theorem price_lookup_after_batch :
  forall addresses address env w,
    exists prices w',
      UtilsService.getTokenPrices addresses env w = (Ok prices, w')
      /\ (forall usd,
            In address addresses ->
            feedPrice env address = Some usd ->
            (forall a, In a addresses ->
                       toLowerCase a = toLowerCase address -> a = address) ->
            UtilsService.getPriceForAddress prices address = Some usd)
      /\ ((forall a, In a addresses -> toLowerCase a = toLowerCase address ->
                     feedPrice env a = None) ->
          UtilsService.getPriceForAddress prices address = None).
Proof.
  intros addresses address env w.
  destruct (getTokenPrices_lookup addresses address env w) as (ps & w' & E & L).
  exists ps, w'. split; [exact E|]. split.
  - intros usd Hin Hk Hu. rewrite L. now apply firstKnown_found.
  - intros Hu. rewrite L. now apply firstKnown_none.
Qed.

(** Addresses are compared without regard to case, and of several entries
    for one address the first is the one that counts. *)
Theorem price_lookup_ignores_case :
  forall prices a b,
    toLowerCase a = toLowerCase b ->
    UtilsService.getPriceForAddress prices a = UtilsService.getPriceForAddress prices b
    /\ UtilsService.getPriceForAddress prices (toLowerCase a)
       = UtilsService.getPriceForAddress prices a
    /\ forall p,
         UtilsService.getPriceForAddress
           ({| Price.address := a; Price.price := p |} :: prices) b = p.
Proof.
  intros prices a b H. unfold UtilsService.getPriceForAddress. split; [|split].
  - now rewrite H.
  - now rewrite toLowerCase_idempotent.
  - intros p. cbn [find Price.address]. rewrite H, String.eqb_refl. reflexivity.
Qed.

(** ** More on [computeUpdatedToTokens] *)

Lemma priced_cases prices t :
  (priced prices t = false
   /\ falsy (UtilsService.getPriceForAddress prices (RequestToken.address t)) = true)
  \/ (priced prices t = true
      /\ exists p,
           UtilsService.getPriceForAddress prices (RequestToken.address t) = Some p
           /\ ~ p == 0).
Proof.
  unfold priced. destruct (updateToToken_cases prices t) as [F|(p & E & Hp)].
  - left. now rewrite F.
  - right. split; [|now exists p]. rewrite E.
    apply falsy_Some_false in Hp. now rewrite Hp.
Qed.

Lemma computeUpdatedToTokens_addresses toTokens usd prices env w :
  exists out w',
    UtilsService.computeUpdatedToTokens toTokens usd prices env w = (Ok out, w')
    /\ map ResponseToken.address out = map RequestToken.address toTokens
    /\ (draws w' <= draws w + List.length toTokens)%nat.
Proof.
  destruct (computeUpdatedToTokens_nth toTokens usd prices env w)
    as (out & w' & E & L & _ & _ & N).
  exists out, w'. split; [exact E|]. split.
  - clear E. revert out L N.
    induction toTokens as [|t l IH]; intros [|r out] L N; try discriminate;
      [reflexivity|].
    cbn [map]. f_equal.
    + destruct (N 0%nat t eq_refl) as (r' & R & A & _). now injection R as <-.
    + apply IH; [now injection L|]. intros i t' H. exact (N (S i) t' H).
  - clear N L. revert w out w' E.
    unfold UtilsService.computeUpdatedToTokens,
      UtilsService.computeUpdatedToTokensWith.
    induction toTokens as [|t l IH]; intros w out w'; cbn [mapM].
    + unfold ret. intros [= <- <-]. cbn. lia.
    + destruct (updateToToken_cases prices t) as [F|(p & E & Hp)].
      * rewrite (bind_ok _ _ (updateToToken_unpriced _ usd prices t env w F)).
        unfold bind at 1.
        destruct (mapM _ l env _) as [[o|e] w1] eqn:E1; [|discriminate].
        unfold ret. intros [= <- <-]. apply IH in E1. cbn in *. lia.
      * rewrite (bind_ok _ _ (updateToToken_priced usd prices t env w E Hp)).
        unfold bind at 1.
        destruct (mapM _ l env _) as [[o|e] w1] eqn:E1; [|discriminate].
        unfold ret. intros [= <- <-]. apply IH in E1. cbn in *. lia.
Qed.

(** The result has one entry per destination token, under the same address
    and in the same order; a fee is drawn for the priced tokens and for
    them only; one console line is written for each of the others, latest
    first. *)
Theorem computeUpdatedToTokens_accounting :
  forall toTokens usd prices env w,
    exists out w',
      UtilsService.computeUpdatedToTokens toTokens usd prices env w = (Ok out, w')
      /\ map ResponseToken.address out = map RequestToken.address toTokens
      /\ draws w' = (draws w + List.length (filter (priced prices) toTokens))%nat
      /\ logs w'
         = rev (map notFoundLine
                    (filter (fun t => negb (priced prices t)) toTokens))
           ++ logs w.
Proof.
  unfold UtilsService.computeUpdatedToTokens, UtilsService.computeUpdatedToTokensWith.
  induction toTokens as [|t l IH]; intros usd prices env w; cbn [mapM].
  - exists [], w. cbn. repeat split; auto.
  - destruct (priced_cases prices t) as [[P F]|[P (p & E & Hp)]].
    + rewrite (bind_ok _ _ (updateToToken_unpriced _ usd prices t env w F)).
      destruct (IH usd prices env (set_logs (cons (notFoundLine t)) w))
        as (out & w' & E' & A & D & L).
      unfold notFoundLine in E'. rewrite (bind_ok _ _ E'). unfold ret.
      eexists _, w'. split; [reflexivity|].
      cbn [map filter]. rewrite P. cbn [negb map rev ResponseToken.address].
      split; [now rewrite A|]. split; [exact D|].
      rewrite L. cbn [logs set_logs]. now rewrite <- app_assoc.
    + rewrite (bind_ok _ _ (updateToToken_priced usd prices t env w E Hp)).
      destruct (IH usd prices env (set_draws S w)) as (out & w' & E' & A & D & L).
      rewrite (bind_ok _ _ E'). unfold ret.
      eexists _, w'. split; [reflexivity|].
      cbn [map filter]. rewrite P. cbn [negb map ResponseToken.address List.length].
      split; [now rewrite A|]. split; [rewrite D; cbn; lia|exact L].
Qed.

(** The amount of a destination token depends on its own weight only, not
    on the weights of the others: there is no normalisation across the
    list.  Two lists with the same addresses, run from the same state, give
    the same amount wherever they carry the same weight. *)
Theorem amount_depends_on_own_weight_only :
  forall l1 l2 usd prices env w,
    map RequestToken.address l1 = map RequestToken.address l2 ->
    exists out1 out2 w1 w2,
      UtilsService.computeUpdatedToTokens l1 usd prices env w = (Ok out1, w1)
      /\ UtilsService.computeUpdatedToTokens l2 usd prices env w = (Ok out2, w2)
      /\ forall i t1 t2,
           nth_error l1 i = Some t1 -> nth_error l2 i = Some t2 ->
           RequestToken.weight t1 = RequestToken.weight t2 ->
           nth_error out1 i = nth_error out2 i.
Proof.
  unfold UtilsService.computeUpdatedToTokens, UtilsService.computeUpdatedToTokensWith.
  induction l1 as [|a1 l1 IH]; intros [|a2 l2] usd prices env w Hm;
    try discriminate; cbn [mapM].
  - exists [], [], w, w. repeat split.
  - cbn [map] in Hm. injection Hm as Ha Hm.
    destruct (updateToToken_cases prices a1) as [F|(p & E & Hp)].
    + rewrite (bind_ok _ _ (updateToToken_unpriced _ usd prices a1 env w F)).
      rewrite Ha in F.
      rewrite (bind_ok _ _ (updateToToken_unpriced _ usd prices a2 env w F)).
      rewrite Ha.
      destruct (IH l2 usd prices env
                  (set_logs (cons (Line ConsoleError
                     ("Prezzo non trovato per l'indirizzo "
                        ++ RequestToken.address a2)%string)) w) Hm)
        as (out1 & out2 & w1 & w2 & E1 & E2 & N).
      rewrite (bind_ok _ _ E1), (bind_ok _ _ E2). unfold ret.
      eexists _, _, _, _. split; [reflexivity|]. split; [reflexivity|].
      intros [|i] t1 t2 H1 H2 Hw; cbn [nth_error] in *.
      * reflexivity.
      * eapply N; eassumption.
    + rewrite (bind_ok _ _ (updateToToken_priced usd prices a1 env w E Hp)).
      rewrite Ha in E.
      rewrite (bind_ok _ _ (updateToToken_priced usd prices a2 env w E Hp)).
      destruct (IH l2 usd prices env (set_draws S w) Hm)
        as (out1 & out2 & w1 & w2 & E1 & E2 & N).
      rewrite (bind_ok _ _ E1), (bind_ok _ _ E2). unfold ret.
      eexists _, _, _, _. split; [reflexivity|]. split; [reflexivity|].
      intros [|i] t1 t2 H1 H2 Hw; cbn [nth_error] in *.
      * injection H1 as <-. injection H2 as <-. now rewrite Ha, Hw.
      * eapply N; eassumption.
Qed.

(** ** More on [processMessage] and [sendResponse] *)

(** A request without a source token: the prices of the destination tokens
    are still looked up, then reading [request.from.tokens[0].address]
    throws; nothing is published and no response is produced. *)
Theorem processMessage_without_source_token :
  forall wallet request env w,
    RequestSide.tokens (RequestQuote.from request) = [] ->
    exists prices w1,
      UtilsService.getTokenPrices
        (map RequestToken.address (RequestSide.tokens (RequestQuote.to request)))
        env w = (Ok prices, w1)
      /\ SolverService.processMessage wallet request env w = (Threw TypeError, w1).
Proof.
  intros wallet request env w H.
  destruct (getTokenPrices_returns
              (map RequestToken.address (RequestSide.tokens (RequestQuote.to request)))
              env w) as (ps & w1 & E & _).
  exists ps, w1. split; [exact E|].
  unfold SolverService.processMessage, SolverService.processMessageWith,
    UtilsService.extractTokenAddresses.
  rewrite H. cbn [map app]. rewrite (bind_ok _ _ E). reflexivity.
Qed.

(** [processMessage] reads prices, writes log lines and draws fees, nothing
    else: it publishes nothing, starts and stops no node, leaves the
    subscription alone, and draws at most one fee per destination token;
    and whenever it resolves to a response, that response names the wallet
    of the solver and lists the destination tokens of the request, address
    by address. *)
Theorem processMessage_effects :
  forall wallet request env w,
    let outcome := SolverService.processMessage wallet request env w in
    published (snd outcome) = published w
    /\ lightNodes (snd outcome) = lightNodes w
    /\ sameSubscription w (snd outcome)
    /\ (draws w <= draws (snd outcome)
        <= draws w + List.length (RequestSide.tokens (RequestQuote.to request)))%nat
    /\ forall response,
         fst outcome = Ok (Some response) ->
         ResponseQuote.solver response = HDNodeWallet.publicKey wallet
         /\ map ResponseToken.address (ResponseSide.tokens (ResponseQuote.to response))
            = map RequestToken.address (RequestSide.tokens (RequestQuote.to request)).
Proof.
  intros wallet request env w outcome. unfold outcome. clear outcome.
  unfold SolverService.processMessage, SolverService.processMessageWith.
  destruct (getTokenPrices_returns (UtilsService.extractTokenAddresses request) env w)
    as (ps & w1 & E & D & P & S & L).
  rewrite (bind_ok _ _ E).
  assert (A1 : attempts w1 = attempts w /\ timers w1 = timers w).
  { pose proof (preserves_getTokenPrices sameSubscription sameSubscription_refl
                  sameSubscription_trans
                  (fun f w => conj eq_refl (conj eq_refl eq_refl))
                  (UtilsService.extractTokenAddresses request) env w) as H.
    rewrite E in H. destruct H as (_ & H1 & H2). now split. }
  destruct A1 as [At Ti].
  destruct (RequestSide.tokens (RequestQuote.from request)) as [|fromToken rest].
  { cbn [throw fst snd]. unfold sameSubscription.
    split; [|split; [|split; [|split]]]; try (repeat split; congruence); lia. }
  assert (N : forall line,
    let o := (emit LoggerError line ;; ret (@None ResponseQuote.t)) env w1 in
    published (snd o) = published w /\ lightNodes (snd o) = lightNodes w
    /\ sameSubscription w (snd o)
    /\ (draws w <= draws (snd o)
        <= draws w + List.length (RequestSide.tokens (RequestQuote.to request)))%nat
    /\ forall response, fst o = Ok (Some response) ->
         ResponseQuote.solver response = HDNodeWallet.publicKey wallet
         /\ map ResponseToken.address (ResponseSide.tokens (ResponseQuote.to response))
            = map RequestToken.address (RequestSide.tokens (RequestQuote.to request))).
  { intros line. cbn. unfold sameSubscription. cbn.
    split; [|split; [|split; [|split]]]; try (repeat split; congruence); lia. }
  destruct (UtilsService.getPriceForAddress ps (RequestToken.address fromToken))
    as [p|]; [|apply N].
  destruct (falsy (Some p)); [apply N|].
  destruct (computeUpdatedToTokens_addresses
              (RequestSide.tokens (RequestQuote.to request))
              (RequestToken.weight fromToken * p) ps env w1)
    as (out & w2 & E2 & A & D2).
  destruct (computeUpdatedToTokens_nth
              (RequestSide.tokens (RequestQuote.to request))
              (RequestToken.weight fromToken * p) ps env w1)
    as (out' & w2' & E2' & _ & Dlow & O & _).
  rewrite E2 in E2'. injection E2' as <- <-.
  unfold UtilsService.computeUpdatedToTokens in E2.
  rewrite (bind_ok _ _ E2). cbn [ret fst snd].
  destruct O as (O1 & O2 & O3 & O4 & O5).
  unfold sameSubscription.
  split; [congruence|]. split; [congruence|].
  split; [repeat split; congruence|]. split; [lia|].
  intros response H. injection H as <-. split; [reflexivity|exact A].
Qed.

Lemma sendResponse_sent bucket response env w :
  lightPush_send env ("/iLayer/1/" ++ bucket ++ "/proto")%string
    (finished env w (UtilsService.encode UtilsService.getResponseType response))
  = true ->
  exists w',
    SolverService.sendResponse bucket (Some response) env w = (Ok tt, w')
    /\ published w'
       = (("/iLayer/1/" ++ bucket ++ "/proto")%string,
          finished env w (UtilsService.encode UtilsService.getResponseType response))
         :: published w
    /\ lightNodes w' = lightNodes w.
Proof.
  intros H.
  unfold SolverService.sendResponse, bind, Waku.startLightNode, emit, write,
    BufferWriter.finish, BufferWriter.alloc, bind, ret,
    Waku.lightPushSend, Waku.stopLightNode, SolverService.responseType.
  cbn [nth SolverService.sendResponse_contentTopics allocations set_lightNodes set_logs].
  fold (finished env w (UtilsService.encode UtilsService.getResponseType response)).
  rewrite H. eexists. split; [reflexivity|]. split; reflexivity.
Qed.

(** [sendResponse] stops the light node it started only on the way out of a
    successful send: it publishes exactly one message, on the topic of the
    bucket, and leaves no node behind; when there is no response to encode,
    or when the send fails, it throws with nothing published and the node
    still running. *)
Theorem sendResponse_outcomes :
  forall bucket env w,
    let topic := ("/iLayer/1/" ++ bucket ++ "/proto")%string in
    (exists w',
       SolverService.sendResponse bucket None env w = (Threw TypeError, w')
       /\ published w' = published w
       /\ lightNodes w' = S (lightNodes w))
    /\ forall response,
         let payload :=
           finished env w
             (UtilsService.encode UtilsService.getResponseType response) in
         exists w',
           published w'
           = (if lightPush_send env topic payload then [(topic, payload)] else [])
             ++ published w
           /\ lightNodes w'
              = (if lightPush_send env topic payload
                 then lightNodes w else S (lightNodes w))
           /\ SolverService.sendResponse bucket (Some response) env w
              = (if lightPush_send env topic payload
                 then Ok tt else Threw TransportError, w').
Proof.
  intros bucket env w topic. split.
  - eexists. split; [reflexivity|]. split; reflexivity.
  - intros response payload.
    unfold SolverService.sendResponse, bind, Waku.startLightNode, emit, write,
      BufferWriter.finish, BufferWriter.alloc, bind, ret,
      Waku.lightPushSend, Waku.stopLightNode, SolverService.responseType.
    cbn [nth SolverService.sendResponse_contentTopics allocations set_lightNodes
         set_logs].
    fold (finished env w (UtilsService.encode UtilsService.getResponseType response)).
    fold topic. fold payload.
    destruct (lightPush_send env topic payload);
      (eexists; split; [|split; [|reflexivity]]; reflexivity).
Qed.

(** A request whose source token has no price costs the solver a light
    node: the callback goes on to [sendResponse] with no response, which
    starts a node and throws before it would stop it. *)
Theorem unpriced_request_leaves_a_light_node_running :
  forall wallet payload env w decoded request fromToken rest prices w1,
    UtilsService.decode UtilsService.getRequestType payload = Ok decoded ->
    SolverService.asRequestQuote (Protobuf.toJSON decoded)
    = SolverService.Typed request ->
    RequestSide.tokens (RequestQuote.from request) = fromToken :: rest ->
    UtilsService.getTokenPrices (UtilsService.extractTokenAddresses request) env
      (set_logs (cons receiptLine) w)
    = (Ok prices, w1) ->
    falsy (UtilsService.getPriceForAddress prices (RequestToken.address fromToken))
    = true ->
    lightNodes
      (snd (SolverService.callback wallet
              {| Waku.DecodedMessage.payload := Some payload |} env w))
    = S (lightNodes w).
Proof.
  intros wallet payload env w decoded request fromToken rest prices w1
         Ed Ec Ht Ep F.
  unfold SolverService.callback, SolverService.callbackWith.
  cbn [Waku.DecodedMessage.payload]. unfold SolverService.requestType.
  unfold bind at 1. cbn [emit write]. fold receiptLine.
  unfold bind at 1, liftResult. rewrite Ed, Ec.
  rewrite (bind_ok _ _
    (processMessageWith_unpriced_source wallet _ request env _ Ht Ep F)).
  cbn.
  destruct (getTokenPrices_returns (UtilsService.extractTokenAddresses request)
              env (set_logs (cons receiptLine) w)) as (ps & w' & Ep' & _ & _ & _ & L).
  rewrite Ep in Ep'. injection Ep' as <- <-. now rewrite L.
Qed.

(** ** The subscription and its retries *)

Lemma subscribeAttempt_eq topic line env w :
  subscribeAttempt topic line env w
  = if subscribeWithUnsubscribe env (attempts w)
    then (Ok tt, set_logs (cons (Line LoggerLog line))
                   (set_subscribed (cons topic) (set_attempts S w)))
    else (Ok tt, set_timers (cons 3000%Z)
                   (set_logs (cons (Line LoggerWarn "Subscription retry..."))
                      (set_attempts S w))).
Proof.
  unfold subscribeAttempt, tryCatch, bind, Waku.relaySubscribe, emit, write,
    Waku.setTimeout.
  destruct (subscribeWithUnsubscribe env (attempts w)); reflexivity.
Qed.

Lemma runTimers_idle turns callback env w :
  timers w = [] -> EventLoop.runTimers turns callback env w = (Ok tt, w).
Proof. intros H. destruct turns; cbn; rewrite ?H; reflexivity. Qed.

Lemma repeat_snoc {A} (x : A) n l : repeat x n ++ x :: l = x :: repeat x n ++ l.
Proof. induction n as [|n IH]; cbn; [reflexivity|]. now rewrite IH. Qed.

Lemma retry_until_subscribed topic line env k :
  forall turns w,
    (k <= turns)%nat ->
    timers w = [] ->
    (forall i, (i < k)%nat -> subscribeWithUnsubscribe env (attempts w + i) = false) ->
    subscribeWithUnsubscribe env (attempts w + k) = true ->
    exists w',
      (subscribeAttempt topic line
       ;; EventLoop.runTimers turns (subscribeAttempt topic line)) env w
      = (Ok tt, w')
      /\ subscribed w' = topic :: subscribed w
      /\ timers w' = []
      /\ attempts w' = (attempts w + k + 1)%nat
      /\ logs w' = retryLog line k (logs w)
      /\ published w' = published w
      /\ lightNodes w' = lightNodes w.
Proof.
  induction k as [|k IH]; intros turns w Ht Hw Hf Hs.
  - unfold bind. rewrite subscribeAttempt_eq.
    rewrite Nat.add_0_r in Hs. rewrite Hs.
    rewrite runTimers_idle by exact Hw.
    eexists. split; [reflexivity|]. cbn. repeat split; auto; lia.
  - destruct turns as [|turns]; [lia|].
    unfold bind. rewrite subscribeAttempt_eq.
    pose proof (Hf 0%nat ltac:(lia)) as H0. rewrite Nat.add_0_r in H0. rewrite H0.
    cbn [EventLoop.runTimers timers set_timers].
    set (w1 := set_timers (@removelast Z) _).
    assert (Hw1 : timers w1 = []) by (unfold w1; cbn; now rewrite Hw).
    assert (Ha1 : attempts w1 = S (attempts w)) by reflexivity.
    destruct (IH turns w1) as (w' & E & S1 & T1 & A1 & L1 & P1 & N1); auto.
    + lia.
    + intros i Hi. rewrite Ha1.
      replace (S (attempts w) + i)%nat with (attempts w + S i)%nat by lia.
      apply Hf. lia.
    + rewrite Ha1.
      replace (S (attempts w) + k)%nat with (attempts w + S k)%nat by lia.
      exact Hs.
    + unfold bind in E.
      destruct (subscribeAttempt topic line env w1) as [[[]|e] w2] eqn:E1;
        [|discriminate].
      exists w'. split; [exact E|]. rewrite S1, T1, A1, L1, P1, N1, Ha1.
      unfold retryLog, w1. cbn [logs set_timers set_logs set_attempts repeat].
      rewrite repeat_snoc. repeat split; auto; lia.
Qed.

(** However many times in a row the relay refuses the subscription, the
    service warns once per refusal, tries again when the three-second
    timer fires, and ends up subscribed once, on the topic of its decoder,
    with no timer pending; it never throws and publishes nothing on the
    way. *)
Theorem subscription_survives_refusals :
  forall userWallet env k turns w,
    (k <= turns)%nat ->
    timers w = [] ->
    (forall i, (i < k)%nat -> subscribeWithUnsubscribe env (attempts w + i) = false) ->
    subscribeWithUnsubscribe env (attempts w + k) = true ->
    (exists w',
       (SolverService.onModuleInit
        ;; EventLoop.runTimers turns SolverService.listenToQuoteRequests) env w
       = (Ok tt, w')
       /\ subscribed w' = "/iLayer/1/rfq/proto"%string :: subscribed w
       /\ timers w' = []
       /\ attempts w' = (attempts w + k + 1)%nat
       /\ logs w' = retryLog "Subscribed to quotes request topic." k
                      (Line LoggerLog "Connected to TCP relay Node." :: logs w)
       /\ published w' = published w)
    /\ (exists w',
          (UserService.onModuleInit userWallet
           ;; EventLoop.runTimers turns (UserService.listenToQuoteResponses userWallet))
            env w
          = (Ok tt, w')
          /\ subscribed w'
             = ("/iLayer/1/" ++ UtilsService.getBucketFromPublicKey userWallet
                  ++ "/proto")%string :: subscribed w
          /\ timers w' = []
          /\ attempts w' = (attempts w + k + 1)%nat
          /\ logs w' = retryLog "Subscribed to quotes response topic." k
                         (Line LoggerLog "Connected to TCP relay Node." :: logs w)
          /\ published w' = published w).
Proof.
  intros userWallet env k turns w Ht Hw Hf Hs.
  set (w0 := set_logs (cons (Line LoggerLog "Connected to TCP relay Node.")) w).
  split.
  - destruct (retry_until_subscribed SolverService.decoderTopic
                "Subscribed to quotes request topic." env k turns w0 Ht Hw Hf Hs)
      as (w' & E & S1 & T1 & A1 & L1 & P1 & _).
    exists w'. split; [|now repeat split].
    unfold SolverService.onModuleInit. rewrite bind_assoc.
    unfold bind at 1. cbn [emit write]. fold w0. exact E.
  - destruct (retry_until_subscribed (UserService.decoderTopic userWallet)
                "Subscribed to quotes response topic." env k turns w0 Ht Hw Hf Hs)
      as (w' & E & S1 & T1 & A1 & L1 & P1 & _).
    exists w'. split; [|now repeat split].
    unfold UserService.onModuleInit. rewrite bind_assoc.
    unfold bind at 1. cbn [emit write]. fold w0. exact E.
Qed.

(** ** The codecs in the callbacks *)

Lemma encode_response_written (r : ResponseQuote.t) :
  carriedAmounts r ->
  UtilsService.encode UtilsService.getResponseType r
  = Protobuf.written
      (quoteBytes (ResponseQuote.solver r)
         (sideBytes (ResponseSide.network (ResponseQuote.from r))
            (tokensBytes (amountsOf (ResponseQuote.from r))))
         (sideBytes (ResponseSide.network (ResponseQuote.to r))
            (tokensBytes (amountsOf (ResponseQuote.to r))))).
Proof.
  intros [Hf Ht].
  apply Forall_carried in Hf, Ht.
  assert (Ef := encodeTokens_written (amountsOf (ResponseQuote.from r))).
  assert (Et := encodeTokens_written (amountsOf (ResponseQuote.to r))).
  unfold amountsOf in Ef at 1 2. unfold amountsOf in Et at 1 2.
  rewrite !map_map in Ef, Et. cbn [fst snd] in Ef, Et.
  rewrite Forall_map in Ef, Et. cbn [snd] in Ef, Et.
  specialize (Ef (proj2 Hf)). specialize (Et (proj2 Ht)).
  unfold UtilsService.getResponseType, UtilsService.encode.
  rewrite Ef, Et, !encodeSide_written. apply encodeQuote_written.
Qed.

Lemma decode_encode_response (r : ResponseQuote.t) buf :
  carriedAmounts r ->
  (Z.of_nat (List.length (UtilsService.encode UtilsService.getResponseType r)) < 2 ^ 32)%Z ->
  UtilsService.decode UtilsService.getResponseType
    (Protobuf.fill buf (UtilsService.encode UtilsService.getResponseType r))
  = Ok (wireQuote (ResponseQuote.solver r)
          (ResponseSide.network (ResponseQuote.from r)) (amountsOf (ResponseQuote.from r))
          (ResponseSide.network (ResponseQuote.to r)) (amountsOf (ResponseQuote.to r))).
Proof.
  intros Hw Hb. rewrite (encode_response_written r Hw) in *.
  rewrite length_written in Hb. rewrite fill_written.
  destruct Hw as [Hf Ht]. apply Forall_carried in Hf, Ht.
  apply decodeQuote_quoteBytes_bounded.
  - unfold amountsOf. apply Forall_map. exact (proj1 Hf).
  - unfold amountsOf. apply Forall_map. exact (proj1 Ht).
  - exact Hb.
Qed.

Lemma sideToJSON_wireSide side :
  Protobuf.sideToJSON (wireSide (ResponseSide.network side) (amountsOf side))
  = printedSide side.
Proof.
  unfold Protobuf.sideToJSON, wireSide, printedSide, amountsOf, wireTokens.
  cbn [Protobuf.SideMessage.network Protobuf.SideMessage.tokens].
  rewrite map_map. destruct (ResponseSide.tokens side); reflexivity.
Qed.

(** The requester prints what the solver sent, amounts cut down to their
    integer part: a response whose amounts fit an [int32], none of them
    strictly between [-1] and [0], and whose encoding is shorter than
    [2^32] bytes is decoded by the callback of the requester without
    failure, whatever the buffer of the writer held, and what is printed
    carries the solver, the networks, the addresses and the truncation
    toward zero of each amount (148.5 is printed as 148, 0.3 as 0). *)
Theorem requester_prints_truncated_amounts :
  forall response buf env w,
    carriedAmounts response ->
    (Z.of_nat (List.length (UtilsService.encode UtilsService.getResponseType response))
     < 2 ^ 32)%Z ->
    UserService.callback
      {| Waku.DecodedMessage.payload :=
           Some (Protobuf.fill buf
                   (UtilsService.encode UtilsService.getResponseType response)) |}
      env w
    = (Ok tt,
       set_logs (cons (PrintedResponse (printedResponse response)))
         (set_logs (cons (Line LoggerLog "New response for quotes received.")) w)).
Proof.
  intros response buf env w Ha Hb. unfold UserService.callback.
  cbn [Waku.DecodedMessage.payload]. unfold UserService.responseType.
  unfold bind at 1. cbn [emit write]. unfold bind at 1, liftResult.
  rewrite (decode_encode_response response buf Ha Hb).
  unfold write, Protobuf.toJSON, wireQuote.
  cbn [Protobuf.QuoteMessage.key Protobuf.QuoteMessage.from Protobuf.QuoteMessage.to
       option_map].
  now rewrite !sideToJSON_wireSide.
Qed.

(** A request with an empty token list on either side does not survive the
    wire: the list comes back as no [tokens] property, and the callback of
    the solver throws a [TypeError] on its first use, before any price is
    looked up, any node started or anything published.  The weights of the
    other side are taken to travel unharmed (integer part an [int32], none
    strictly between [-1] and [0]) and the encoding to be shorter than
    [2^32] bytes, so that it is this that fails and not the decoder. *)
Theorem empty_token_list_makes_the_solver_throw :
  forall wallet request buf env w,
    carriedWeights request ->
    (Z.of_nat (List.length (UtilsService.encode UtilsService.getRequestType request))
     < 2 ^ 32)%Z ->
    RequestSide.tokens (RequestQuote.from request) = []
    \/ RequestSide.tokens (RequestQuote.to request) = [] ->
    SolverService.callback wallet
      {| Waku.DecodedMessage.payload :=
           Some (Protobuf.fill buf
                   (UtilsService.encode UtilsService.getRequestType request)) |}
      env w
    = (Threw TypeError, set_logs (cons receiptLine) w).
Proof.
  intros wallet request buf env w Hw Hb He.
  unfold SolverService.callback, SolverService.callbackWith.
  cbn [Waku.DecodedMessage.payload]. unfold SolverService.requestType.
  unfold bind at 1. cbn [emit write]. fold receiptLine.
  unfold bind at 1, liftResult.
  rewrite (decode_encode_request request buf Hw Hb).
  unfold Protobuf.toJSON, wireQuote, wireSide, Protobuf.sideToJSON,
    SolverService.asRequestQuote, tokensOf, wireTokens.
  cbn [Protobuf.QuoteMessage.key Protobuf.QuoteMessage.from Protobuf.QuoteMessage.to
       option_map Protobuf.SideMessage.network Protobuf.SideMessage.tokens
       Protobuf.Quote.key Protobuf.Quote.from Protobuf.Quote.to
       Protobuf.Side.tokens Protobuf.Side.network].
  destruct He as [E|E]; rewrite E; cbn [map].
  - reflexivity.
  - destruct (map _ (map _ (RequestSide.tokens (RequestQuote.from request))));
      reflexivity.
Qed.

(** ** From the requester to the solver and back *)

Lemma sendRequest_message_fits wallet :
  carriedWeights (UserService.sendRequest_message wallet)
  /\ (Z.of_nat (List.length (UtilsService.encode UtilsService.getRequestType
                               (UserService.sendRequest_message wallet))) < 2 ^ 32)%Z.
Proof.
  assert (C : carriedWeights (UserService.sendRequest_message wallet)).
  { split; repeat constructor; try (vm_compute; intros H; discriminate);
      intros [_ H]; vm_compute in H; discriminate. }
  split; [exact C|].
  rewrite (encode_request_written _ C), length_written. unfold quoteBytes.
  rewrite length_app, (length_app (Protobuf.Writer_string _)).
  unfold Protobuf.Writer_string at 1.
  rewrite length_app, length_list_byte_of_string.
  cbn [RequestQuote.bucket UserService.sendRequest_message].
  change (String.length (UserService.bucket wallet)) with 8%nat.
  vm_compute. reflexivity.
Qed.

Lemma processMessage_keeps_allocations wallet request env w :
  allocations (snd (SolverService.processMessage wallet request env w))
  = allocations w.
Proof.
  apply (preserves_processMessage sameAllocations); unfold sameAllocations;
    try reflexivity; congruence.
Qed.

(** The sample request of the requester, handed to the callback of a
    solver whose feed prices the source token and whose sends go through,
    is answered on the very topic the requester listens on: one message,
    carrying the key of the solver, the source side echoed and one amount
    per destination token; the light node used for it is stopped again. *)
Theorem response_reaches_the_requester :
  forall userWallet solverWallet buf env w prices w1 price,
    let request := UserService.sendRequest_message userWallet in
    (forall topic payload, lightPush_send env topic payload = true) ->
    UtilsService.getTokenPrices (UtilsService.extractTokenAddresses request) env
      (set_logs (cons receiptLine) w) = (Ok prices, w1) ->
    UtilsService.getPriceForAddress prices
      "0xc02aaa39b223fe8d0a0e5c4f27ead9083c756cc2" = Some price ->
    ~ price == 0 ->
    exists response w',
      SolverService.callback solverWallet
        {| Waku.DecodedMessage.payload :=
             Some (Protobuf.fill buf
                     (UtilsService.encode UtilsService.getRequestType request)) |}
        env w
      = (Ok tt, w')
      /\ published w'
         = (UserService.decoderTopic userWallet,
            finished env w
              (UtilsService.encode UtilsService.getResponseType response))
           :: published w
      /\ ResponseQuote.solver response = HDNodeWallet.publicKey solverWallet
      /\ ResponseQuote.from response = echoedFrom request
      /\ map ResponseToken.address (ResponseSide.tokens (ResponseQuote.to response))
         = [ "0xa0b86991c6218b36c1d19d4a2e9eb0ce3606eb48"%string;
             "0xdac17f958d2ee523a2206206994597c13d831ec7"%string ]
      /\ lightNodes w' = lightNodes w.
Proof.
  intros userWallet solverWallet buf env w prices w1 price request Hsend Ep E Hp.
  destruct (sendRequest_message_fits userWallet) as [Hw Hb].
  unfold SolverService.callback, SolverService.callbackWith.
  cbn [Waku.DecodedMessage.payload]. unfold SolverService.requestType.
  unfold bind at 1. cbn [emit write]. fold receiptLine.
  unfold bind at 1, liftResult. fold request in Hw, Hb.
  rewrite (decode_encode_request request buf Hw Hb).
  change (SolverService.asRequestQuote (Protobuf.toJSON _))
    with (SolverService.Typed request).
  pose proof (processMessageWith_priced_source solverWallet
                UtilsService.getRandomFeePercentage request env
                (set_logs (cons receiptLine) w) eq_refl Ep E Hp) as Hpm.
  destruct (computeUpdatedToTokens_addresses
              (RequestSide.tokens (RequestQuote.to request)) (1 * price) prices env w1)
    as (out & w2 & E2 & A & _).
  destruct (computeUpdatedToTokens_nth
              (RequestSide.tokens (RequestQuote.to request)) (1 * price) prices env w1)
    as (out' & w2' & E2' & _ & Dlow & O & _).
  rewrite E2 in E2'. injection E2' as <- <-.
  unfold UtilsService.computeUpdatedToTokens in E2.
  cbn [RequestToken.weight] in Hpm. rewrite (bind_ok _ _ E2) in Hpm.
  unfold ret in Hpm. rewrite (bind_ok _ _ Hpm).
  match type of Hpm with _ = (Ok (Some ?r), _) => set (response := r) end.
  assert (Al : allocations w2 = allocations w).
  { pose proof (processMessage_keeps_allocations solverWallet request env
                  (set_logs (cons receiptLine) w)) as K.
    unfold SolverService.processMessage in K. rewrite Hpm in K. exact K. }
  destruct (sendResponse_sent (RequestQuote.bucket request) response env w2
              (Hsend _ _)) as (w3 & E3 & P3 & L3).
  rewrite E3.
  exists response, w3. split; [reflexivity|].
  destruct O as (_ & _ & _ & O4 & O5).
  destruct (getTokenPrices_returns (UtilsService.extractTokenAddresses request) env
              (set_logs (cons receiptLine) w)) as (ps & wp & Ep' & _ & Pp & _ & Lp).
  rewrite Ep in Ep'. injection Ep' as <- <-.
  split; [rewrite P3, O5, Pp; unfold finished; rewrite Al; reflexivity|].
  split; [reflexivity|]. split; [reflexivity|]. split; [exact A|].
  rewrite L3, O4, Lp. reflexivity.
Qed.

(** [sendRequest], which the controller calls as it is: when the send goes
    through, exactly one message is published, on the request topic; what a
    solver decodes from it is the sample request under the bucket of the
    wallet; the light node is stopped.  When the send fails the method
    throws, nothing is published and the node is left running. *)
Theorem sendRequest_outcomes :
  forall wallet env w,
    let message := UserService.sendRequest_message wallet in
    let payload :=
      finished env w (UtilsService.encode UtilsService.getRequestType message) in
    exists w',
      UserController.sendMessage wallet env w
      = (if lightPush_send env "/iLayer/1/rfq/proto" payload
         then Ok tt else Threw TransportError, w')
      /\ published w'
         = (if lightPush_send env "/iLayer/1/rfq/proto" payload
            then [("/iLayer/1/rfq/proto"%string, payload)] else [])
           ++ published w
      /\ lightNodes w'
         = (if lightPush_send env "/iLayer/1/rfq/proto" payload
            then lightNodes w else S (lightNodes w))
      /\ In (PrintedRequest message) (logs w')
      /\ exists decoded,
           UtilsService.decode UtilsService.getRequestType payload = Ok decoded
           /\ SolverService.asRequestQuote (Protobuf.toJSON decoded)
              = SolverService.Typed message
           /\ RequestQuote.bucket message
              = UtilsService.getBucketFromPublicKey wallet.
Proof.
  intros wallet env w message payload.
  destruct (sendRequest_message_fits wallet) as [Hw Hb].
  unfold UserController.sendMessage, UserService.sendRequest, bind,
    Waku.startLightNode, emit, write, BufferWriter.finish, BufferWriter.alloc,
    bind, ret, Waku.lightPushSend, Waku.stopLightNode, UserService.requestType.
  cbn [nth UserService.sendRequest_contentTopics allocations set_lightNodes set_logs].
  fold message.
  fold (finished env w (UtilsService.encode UtilsService.getRequestType message)).
  fold payload.
  destruct (lightPush_send env "/iLayer/1/rfq/proto" payload);
    (eexists; split; [reflexivity|]; split; [reflexivity|];
     split; [reflexivity|]; split; [cbn; auto|]);
    (eexists; split;
       [apply (decode_encode_request message
                 (Buffer_allocUnsafe env (allocations w)) Hw Hb)|];
     split; reflexivity).
Qed.

(** The price list is made of what the answers of the feed have under the
    lower-cased addresses, in the order asked: one entry for each address
    whose answer has a property under that key, its own or one inherited
    from [Object.prototype], with the [usd] of that property for price,
    [undefined] when it has none.  So the address ["constructor"], which
    every answer inherits, gets an entry without a price and no warning,
    unless the feed quotes it. *)
Theorem price_list_comes_from_the_feed :
  (forall addresses env w,
     exists w',
       UtilsService.getTokenPrices addresses env w
       = (Ok (flat_map (pushed env) addresses), w'))
  /\ (forall addresses env,
        (List.length (flat_map (pushed env) addresses) <= List.length addresses)%nat
        /\ Forall (fun entry =>
                     exists address quotation,
                       In address addresses
                       /\ feedEntry env address = Some quotation
                       /\ entry = {| Price.address := toLowerCase address;
                                     Price.price := Quotation.usd quotation |})
                  (flat_map (pushed env) addresses))
  /\ (forall env w data,
        fetch env (UtilsService.priceUrl "constructor") = HttpOk data ->
        data "constructor"%string = None ->
        UtilsService.getTokenPrices ["constructor"%string] env w
        = (Ok [ {| Price.address := "constructor"; Price.price := None |} ], w)).
Proof.
  split; [|split].
  - intros addresses env w. apply getTokenPrices_pushed.
  - intros addresses env. induction addresses as [|a l [L F]]; [split; auto|].
    cbn [flat_map]. rewrite length_app. split.
    + unfold pushed at 1. destruct (feedEntry env a); cbn [List.length]; lia.
    + apply Forall_app. split.
      * unfold pushed. destruct (feedEntry env a) as [quotation|] eqn:K;
          constructor; [|constructor].
        exists a, quotation. cbn. auto.
      * eapply Forall_impl; [|exact F].
        intros entry (address & quotation & Hin & Hk & He).
        exists address, quotation. cbn. auto.
  - intros env w data Hf Hd. cbn [UtilsService.getTokenPrices].
    unfold UtilsService.fetchPrice, tryCatch, bind, ask, ret.
    rewrite Hf. unfold getProperty.
    change (toLowerCase "constructor") with "constructor"%string.
    rewrite Hd. reflexivity.
Qed.

(** A request that arrives without its bucket is answered all the same, on
    the topic spelled with ["undefined"]: [sendResponse] builds the topic
    from [request.bucket] as it is. *)
Theorem missing_bucket_is_answered_on_undefined :
  forall wallet payload decoded response env w w1,
    UtilsService.decode UtilsService.getRequestType payload = Ok decoded ->
    Protobuf.Quote.key (Protobuf.toJSON decoded) = None ->
    Unchecked.processMessage wallet UtilsService.getRandomFeePercentage
      (Protobuf.toJSON decoded) env (set_logs (cons receiptLine) w)
    = (Ok (Some response), w1) ->
    lightPush_send env "/iLayer/1/undefined/proto"
      (finished env w1 (Unchecked.encode response)) = true ->
    exists w',
      SolverService.callback wallet
        {| Waku.DecodedMessage.payload := Some payload |} env w = (Ok tt, w')
      /\ published w'
         = ("/iLayer/1/undefined/proto"%string,
            finished env w1 (Unchecked.encode response)) :: published w1
      /\ lightNodes w' = lightNodes w1.
Proof.
  intros wallet payload decoded response env w w1 Ed Ek Ep Hs.
  rewrite callback_is_unchecked. unfold uncheckedCallback.
  cbn [Waku.DecodedMessage.payload].
  unfold bind at 1. cbn [emit write]. fold receiptLine.
  unfold bind at 1, liftResult. rewrite Ed, Ek.
  rewrite (bind_ok _ _ Ep).
  unfold Unchecked.sendResponse, bind, Waku.startLightNode, emit, write,
    BufferWriter.finish, BufferWriter.alloc, bind, ret,
    Waku.lightPushSend, Waku.stopLightNode.
  cbn [nth Unchecked.interpolate allocations set_lightNodes set_logs].
  change ("/iLayer/1/" ++ "undefined" ++ "/proto")%string
    with "/iLayer/1/undefined/proto"%string.
  fold (finished env w1 (Unchecked.encode response)).
  rewrite Hs. eexists. split; [reflexivity|]. split; reflexivity.
Qed.

Section WireMore.
Import Protobuf.
Local Open Scope Z_scope.

Ltac not_at_the_end :=
  match goal with
  | |- context [Z.of_nat (List.length (tag ?i ?w ++ ?l)) <=? ?stop] =>
      let L := fresh "L" in
      destruct (Z.leb_spec (Z.of_nat (List.length (tag i w ++ l))) stop) as [L|_];
      [ exfalso; pose proof (length_tag_app i w l);
        repeat rewrite length_app in *; lia | ]
  end.

(** The [weight] and [amount] fields are [int32]: a non-negative value of
    any size travels as its integer part modulo [2^32] and is read back as
    a signed number, so that 3000000000 arrives as -1294967296 and
    4294967297 as 1. *)
Theorem non_negative_value_wraps_into_int32 :
  forall address value buf rest,
    Z.of_nat (String.length address) < 2 ^ 32 ->
    Qle_bool 0 value = true ->
    decodeToken (Some (Z.of_nat (List.length (encodeToken address value))))
      (fill buf (encodeToken address value) ++ rest)
    = Ok ({| Token.address := Some address;
             Token.value := Some (ToInt32 (truncate value mod 2 ^ 32)) |}, rest).
Proof.
  intros address value buf rest Ha Hv.
  rewrite (encodeToken_written address value (or_introl Hv)).
  rewrite fill_written, length_written.
  unfold decodeToken, stopAfter.
  replace (Z.of_nat (List.length (tokenBytes address value ++ rest))
           - Z.of_nat (List.length (tokenBytes address value)))
    with (Z.of_nat (List.length rest)) by (rewrite length_app; lia).
  assert (Hf : (2 <= S (List.length (tokenBytes address value ++ rest)))%nat).
  { rewrite length_app. unfold tokenBytes. rewrite !length_app.
    pose proof (length_tag_app 1 2 []). pose proof (length_tag_app 2 0 []).
    rewrite app_nil_r in *. cbn [List.length] in *. lia. }
  destruct (S (List.length (tokenBytes address value ++ rest))) as [|[|fuel]];
    try lia.
  unfold tokenBytes. rewrite <- !app_assoc.
  rewrite decodeTokenLoop_step. not_at_the_end.
  rewrite readUint32_tag_1_2. change (Z.shiftr 10 3) with 1.
  rewrite readString_Writer_string by exact Ha.
  rewrite decodeTokenLoop_step. not_at_the_end.
  rewrite readUint32_tag_2_0. change (Z.shiftr 16 3) with 2.
  unfold readInt32, int32Bytes. rewrite Hv. unfold Writer_uint32, ToUint32.
  rewrite readUint32_writeVarint5 by (apply Z.mod_pos_bound; lia).
  apply decodeTokenLoop_stop. lia.
Qed.

End WireMore.

(** ** The further properties hold of the scenario *)

Lemma price_lookup_after_batch_witness :
  exists prices w',
    UtilsService.getTokenPrices ["0xAAA"; "0xEEE"]%string Scenario.env Scenario.world
    = (Ok prices, w')
    /\ UtilsService.getPriceForAddress prices "0xAAA" = Some 1
    /\ UtilsService.getPriceForAddress prices "0xEEE" = None.
Proof.
  destruct (price_lookup_after_batch ["0xAAA"; "0xEEE"]%string "0xAAA"
              Scenario.env Scenario.world) as (prices & w' & E & Known & _).
  destruct (price_lookup_after_batch ["0xAAA"; "0xEEE"]%string "0xEEE"
              Scenario.env Scenario.world) as (prices' & w'' & E' & _ & Unknown).
  rewrite E in E'. injection E' as <- <-.
  exists prices, w'. split; [exact E|]. split.
  - apply Known; [left; reflexivity|reflexivity|].
    intros a [<-|[<-|[]]] H; [reflexivity|vm_compute in H; discriminate].
  - apply Unknown.
    intros a [<-|[<-|[]]] H; [vm_compute in H; discriminate|reflexivity].
Defined.

Lemma price_lookup_ignores_case_witness :
  UtilsService.getPriceForAddress Scenario.prices "0xBbB"
  = UtilsService.getPriceForAddress Scenario.prices "0xbBb".
Proof.
  apply (price_lookup_ignores_case Scenario.prices "0xBbB" "0xbBb"). reflexivity.
Defined.

Lemma amount_depends_on_own_weight_only_witness :
  exists out1 out2 w1 w2,
    UtilsService.computeUpdatedToTokens
      [Scenario.token "0xBBB" 30; Scenario.token "0xCCC" 70]
      1000 Scenario.prices Scenario.env Scenario.world = (Ok out1, w1)
    /\ UtilsService.computeUpdatedToTokens
         [Scenario.token "0xBBB" 30; Scenario.token "0xCCC" 5]
         1000 Scenario.prices Scenario.env Scenario.world = (Ok out2, w2)
    /\ nth_error out1 0 = nth_error out2 0.
Proof.
  destruct (amount_depends_on_own_weight_only
              [Scenario.token "0xBBB" 30; Scenario.token "0xCCC" 70]
              [Scenario.token "0xBBB" 30; Scenario.token "0xCCC" 5]
              1000 Scenario.prices Scenario.env Scenario.world eq_refl)
    as (out1 & out2 & w1 & w2 & E1 & E2 & N).
  exists out1, out2, w1, w2. split; [exact E1|]. split; [exact E2|].
  exact (N 0%nat _ _ eq_refl eq_refl eq_refl).
Defined.

Lemma processMessage_without_source_token_witness :
  exists w1,
    SolverService.processMessage Scenario.wallet
      (Scenario.quote [] [Scenario.token "0xBBB" 30]) Scenario.env Scenario.world
    = (Threw TypeError, w1).
Proof.
  destruct (processMessage_without_source_token Scenario.wallet
              (Scenario.quote [] [Scenario.token "0xBBB" 30])
              Scenario.env Scenario.world eq_refl) as (prices & w1 & _ & E).
  exists w1. exact E.
Defined.

Lemma processMessage_effects_witness :
  exists response,
    fst (SolverService.processMessage Scenario.wallet Scenario.request
           Scenario.env Scenario.world) = Ok (Some response)
    /\ ResponseQuote.solver response = "0x02abc"%string
    /\ map ResponseToken.address (ResponseSide.tokens (ResponseQuote.to response))
       = ["0xBBB"; "0xCCC"]%string.
Proof.
  eexists. split; [vm_compute; reflexivity|].
  apply (proj2 (proj2 (proj2 (proj2
           (processMessage_effects Scenario.wallet Scenario.request
              Scenario.env Scenario.world))))).
  vm_compute. reflexivity.
Defined.

Lemma unpriced_request_leaves_a_light_node_running_witness :
  lightNodes
    (snd (SolverService.callback Scenario.wallet
            {| Waku.DecodedMessage.payload :=
                 Some (finished Scenario.env Scenario.world
                         (UtilsService.encode UtilsService.getRequestType
                            unknownSource)) |}
            Scenario.env Scenario.world))
  = 1%nat.
Proof.
  refine (unpriced_request_leaves_a_light_node_running Scenario.wallet _
            Scenario.env Scenario.world _ unknownSource
            (Scenario.token "0xEEE" 1000) [] _ _ _ _ eq_refl _ _);
    vm_compute; reflexivity.
Defined.

Lemma subscription_survives_refusals_witness :
  exists w',
    (SolverService.onModuleInit
     ;; EventLoop.runTimers 5 SolverService.listenToQuoteRequests)
      reluctantRelay Scenario.world = (Ok tt, w')
    /\ subscribed w' = "/iLayer/1/rfq/proto"%string :: subscribed Scenario.world
    /\ timers w' = [] /\ attempts w' = 4%nat.
Proof.
  destruct (proj1 (subscription_survives_refusals Scenario.wallet reluctantRelay 2 5
                     Scenario.world
                     ltac:(repeat constructor) eq_refl
                     ltac:(intros [|[|i]] H; [reflexivity|reflexivity|lia])
                     eq_refl))
    as (w' & E & S1 & T1 & A1 & _).
  exists w'. split; [exact E|]. split; [exact S1|]. split; [exact T1|exact A1].
Defined.

Lemma requester_prints_truncated_amounts_witness :
  UserService.callback
    {| Waku.DecodedMessage.payload :=
         Some (finished Scenario.env Scenario.world
                 (UtilsService.encode UtilsService.getResponseType
                    fractionalResponse)) |}
    Scenario.env Scenario.world
  = (Ok tt,
     set_logs (cons (PrintedResponse (printedResponse fractionalResponse)))
       (set_logs (cons (Line LoggerLog "New response for quotes received."))
          Scenario.world))
  /\ Protobuf.Side.tokens (printedSide (ResponseQuote.to fractionalResponse))
     = Some [ {| Protobuf.Token.address := Some "0xBBB"%string;
                 Protobuf.Token.value := Some 148%Z |};
              {| Protobuf.Token.address := Some "0xCCC"%string;
                 Protobuf.Token.value := Some 0%Z |} ].
Proof.
  split; [|reflexivity].
  apply requester_prints_truncated_amounts.
  - split; repeat constructor; try (vm_compute; intros H; discriminate);
      intros [_ H]; vm_compute in H; discriminate.
  - vm_compute. reflexivity.
Defined.

Lemma empty_token_list_makes_the_solver_throw_witness :
  SolverService.callback Scenario.wallet
    {| Waku.DecodedMessage.payload :=
         Some (finished Scenario.env Scenario.world
                 (UtilsService.encode UtilsService.getRequestType
                    (Scenario.quote [Scenario.token "0xAAA" 1000] []))) |}
    Scenario.env Scenario.world
  = (Threw TypeError, set_logs (cons receiptLine) Scenario.world).
Proof.
  apply empty_token_list_makes_the_solver_throw.
  - split; repeat constructor; try (vm_compute; intros H; discriminate);
      intros [_ H]; vm_compute in H; discriminate.
  - vm_compute. reflexivity.
  - right. reflexivity.
Defined.

Lemma response_reaches_the_requester_witness :
  exists response w',
    SolverService.callback {| HDNodeWallet.publicKey := "0x03def" |}
      {| Waku.DecodedMessage.payload :=
           Some (finished Scenario.env Scenario.world
                   (UtilsService.encode UtilsService.getRequestType
                      (UserService.sendRequest_message Scenario.wallet))) |}
      mainnet Scenario.world
    = (Ok tt, w')
    /\ published w'
       = [(UserService.decoderTopic Scenario.wallet,
           finished mainnet Scenario.world
             (UtilsService.encode UtilsService.getResponseType response))].
Proof.
  destruct (response_reaches_the_requester Scenario.wallet
              {| HDNodeWallet.publicKey := "0x03def" |}
              (Buffer_allocUnsafe Scenario.env (allocations Scenario.world))
              mainnet Scenario.world
              [ {| Price.address := "0xc02aaa39b223fe8d0a0e5c4f27ead9083c756cc2";
                   Price.price := Some 2000 |};
                {| Price.address := "0xa0b86991c6218b36c1d19d4a2e9eb0ce3606eb48";
                   Price.price := Some 1 |};
                {| Price.address := "0xdac17f958d2ee523a2206206994597c13d831ec7";
                   Price.price := Some 1 |} ]
              (set_logs (cons receiptLine) Scenario.world) 2000)
    as (response & w' & E & P & _).
  - intros topic payload. reflexivity.
  - vm_compute. reflexivity.
  - reflexivity.
  - intros H. vm_compute in H. discriminate.
  - exists response, w'. split; [exact E|exact P].
Defined.

Lemma non_negative_value_wraps_into_int32_witness :
  Protobuf.decodeToken
    (Some (Z.of_nat (List.length (Protobuf.encodeToken "0xAAA" 3000000000))))
    (Protobuf.fill (fun _ => xff) (Protobuf.encodeToken "0xAAA" 3000000000) ++ [])
  = Ok ({| Protobuf.Token.address := Some "0xAAA"%string;
           Protobuf.Token.value := Some (-1294967296)%Z |}, []).
Proof.
  apply (non_negative_value_wraps_into_int32 "0xAAA" 3000000000 (fun _ => xff) []).
  - vm_compute. reflexivity.
  - reflexivity.
Defined.

Lemma price_list_comes_from_the_feed_witness :
  UtilsService.getTokenPrices ["constructor"%string] Scenario.env Scenario.world
  = (Ok [ {| Price.address := "constructor"; Price.price := None |} ],
     Scenario.world).
Proof.
  apply (proj2 (proj2 price_list_comes_from_the_feed) Scenario.env Scenario.world
           Scenario.feed); reflexivity.
Defined.

Lemma missing_bucket_is_answered_on_undefined_witness :
  exists w',
    SolverService.callback Scenario.wallet
      {| Waku.DecodedMessage.payload := Some withoutBucket |}
      Scenario.env Scenario.world = (Ok tt, w')
    /\ map fst (published w') = ["/iLayer/1/undefined/proto"%string].
Proof.
  edestruct (missing_bucket_is_answered_on_undefined Scenario.wallet withoutBucket)
    with (env := Scenario.env) (w := Scenario.world) as (w' & E & P & _).
  - vm_compute. reflexivity.
  - vm_compute. reflexivity.
  - vm_compute. reflexivity.
  - reflexivity.
  - exists w'. split; [exact E|]. rewrite P. reflexivity.
Defined.
